(** * SimpleConnectivityTester: the probe and the connectivity-run engine

    A shallow embedding of [connectivity-tester.py]:
    - [_connect_to_host], the TCP probe, over a small state-and-exception
      monad whose state is the table of open socket descriptors;
    - [ConnectivityRun], the global [runs] dictionary,
      [start_connectivity_check], [stop_running_tests] and [run_task_async]
      with its worker thread [scan_worker], as a labelled transition system
      over the Tk timer queue, the worker threads and the run objects.

    The Python socket library and the Tk event loop are not part of the
    repository; the parts of their documented behaviour the program relies
    on are modelled in the modules [PySocket] and in the timer queue of
    module [Engine], and are marked as such. *)

From Stdlib Require Import ZArith String Ascii List Bool Lia DecimalString.
From stdpp Require Import base option list gmap strings.

Import ListNotations.
Local Open Scope string_scope.
Local Open Scope Z_scope.

(** ** Python values used by the program *)

(** [str(n)] for a Python integer. *)
Definition str_of_int (n : Z) : string := NilZero.string_of_int (Z.to_int n).

(** Truthiness of an optional string: [None] and [""] are falsy. *)
Definition truthy (s : option string) : bool :=
  match s with
  | None => false
  | Some "" => false
  | Some _ => true
  end.

(** The exceptions the probe distinguishes.  [socket.timeout] and
    [ConnectionRefusedError] have a handler of their own; every other
    [Exception] is caught by the last handler, which only uses [str(exc)]. *)
Inductive exn : Type :=
  | SocketTimeout
  | ConnectionRefusedError
  | OtherException (msg : string).

(** ** The socket library, as far as the probe uses it *)

Module PySocket.

(** What the operating system does with a C-level [connect()] on a
    socket with a timeout. *)
Inductive connect_outcome : Type :=
  | Established
  | Refused                          (* RST from a closed port: ECONNREFUSED *)
  | DeadlineExceeded                 (* nothing came back within the timeout *)
  | CError (errno : positive)        (* any other errno of connect() *)
  | ResolveFailed (msg : string).    (* the host name does not resolve *)

Definition ECONNREFUSED : Z := 111.
Definition EWOULDBLOCK : Z := 11.

(** One probe's view of the outside world: the two readings of
    [time.perf_counter()] (in nanoseconds), and what the operating system
    answers to [socket()], [bind()] and [connect()]. *)
Record World : Type := {
  t_start : Z;
  t_end : Z;
  sys_socket : option string;              (* [Some msg]: socket() fails with OSError msg *)
  sys_bind : string -> option string;      (* [Some msg]: bind() fails with OSError msg *)
  sys_connect : string -> Z -> connect_outcome
}.

(** The table of open descriptors of the process. *)
Record os_state : Type := {
  next_fd : nat;
  open_fds : list nat
}.

Record sock : Type := { fd : nat; timeout : option Z }.

(** State and exception monad of the library calls. *)
Definition M (A : Type) : Type := os_state -> (exn + A) * os_state.

Definition ret {A} (a : A) : M A := fun st => (inr a, st).
Definition raise {A} (e : exn) : M A := fun st => (inl e, st).
Definition bind {A B} (m : M A) (k : A -> M B) : M B :=
  fun st =>
    match m st with
    | (inl e, st') => (inl e, st')
    | (inr a, st') => k a st'
    end.
(** [try m except handler]: the handler returns, it never re-raises. *)
Definition try_except {A} (m : M A) (handler : exn -> A) : os_state -> A * os_state :=
  fun st =>
    match m st with
    | (inl e, st') => (handler e, st')
    | (inr a, st') => (a, st')
    end.

(** [socket.socket(AF_INET, SOCK_STREAM)] *)
Definition socket (w : World) : M sock :=
  fun st =>
    match sys_socket w with
    | Some msg => (inl (OtherException msg), st)
    | None =>
        (inr {| fd := next_fd st; timeout := None |},
         {| next_fd := S (next_fd st); open_fds := next_fd st :: open_fds st |})
    end.

(** [sock.settimeout(t)] *)
Definition settimeout (s : sock) (t : Z) : M sock :=
  ret {| fd := fd s; timeout := Some t |}.

(** [sock.bind((addr, 0))] *)
Definition sock_bind (w : World) (s : sock) (addr : string) : M unit :=
  match sys_bind w addr with
  | Some msg => raise (OtherException msg)
  | None => ret tt
  end.

(** [sock.connect_ex((host, port))].  As the library documents it,
    [connect_ex] returns the error indicator of the C-level [connect()]
    call instead of raising: a refusal comes back as [ECONNREFUSED] and an
    expired timeout as [EWOULDBLOCK].  Problems found before the call is
    made still raise: a host name that does not resolve, and a port
    outside 0-65535 ([OverflowError]). *)
Definition connect_ex (w : World) (s : sock) (host : string) (port : Z) : M Z :=
  match sys_connect w host port with
  | ResolveFailed msg => raise (OtherException msg)
  | outcome =>
      if (port <? 0) || (65535 <? port)
      then raise (OtherException "connect_ex(): port must be 0-65535.")
      else ret match outcome with
               | Established => 0
               | Refused => ECONNREFUSED
               | DeadlineExceeded => EWOULDBLOCK
               | CError e => Z.pos e
               | ResolveFailed _ => 0
               end
  end.

(** [sock.close()] *)
Definition close (s : sock) : M unit :=
  fun st =>
    (inr tt, {| next_fd := next_fd st;
                open_fds := filter (fun d => negb (Nat.eqb d (fd s))) (open_fds st) |}).

End PySocket.

Import PySocket.

Notation "'let*' x ':=' m 'in' k" := (PySocket.bind m (fun x => k))
  (at level 10, x name, m at level 100, k at level 200).

(** ** The probe *)

(** The tuple [(success, elapsed_ms, error_text)] the probe returns. *)
Definition ProbeTuple : Type := (bool * option Z * string)%type.

(** [int((time.perf_counter() - start) * 1000)], the clock read in
    nanoseconds. *)
Definition elapsed_millis (w : World) : Z := Z.quot (t_end w - t_start w) 1000000.

(** The [try] block of [_connect_to_host]. *)
Definition connect_body (w : World) (dest_ip : string) (dest_port : Z)
    (source_ip : option string) : M ProbeTuple :=
  let* sock := socket w in
  let* sock := settimeout sock 2 in
  let* _bound := (if truthy source_ip
                  then sock_bind w sock (default "" source_ip)
                  else ret tt) in
  let* code := connect_ex w sock dest_ip dest_port in
  let* _closed := close sock in
  let elapsed_ms := elapsed_millis w in
  let success := code =? 0 in
  ret (success, Some elapsed_ms, if success then "" else "UNSUCCESSFUL").

(** The three [except] clauses. *)
Definition connect_handler (e : exn) : ProbeTuple :=
  match e with
  | SocketTimeout => (false, None, "Connection timed out")
  | ConnectionRefusedError => (false, None, "Connection refused by remote host")
  | OtherException msg => (false, None, "Error: " ++ msg)
  end.

Definition _connect_to_host (w : World) (dest_ip : string) (dest_port : Z)
    (source_ip : option string) : os_state -> ProbeTuple * os_state :=
  try_except (connect_body w dest_ip dest_port source_ip) connect_handler.

(** The probe's result alone, started with no descriptor open. *)
Definition os_init : os_state := {| next_fd := 3; open_fds := [] |}.

Definition probe (w : World) (dest_ip : string) (dest_port : Z)
    (source_ip : option string) : ProbeTuple :=
  fst (_connect_to_host w dest_ip dest_port source_ip os_init).

(** ** Task lists *)

(** A task is the tuple [(Description, IP, Port)]. *)
Definition Task : Type := (string * string * Z)%type.

(** One row of [csv.DictReader]: a dictionary from column name to cell. *)
Definition csv_row : Type := list (string * string).

(** The faults that leave [load_tasks] and [start_connectivity_check]. *)
Inductive fault : Type :=
  | OSError (msg : string)         (* the file cannot be opened *)
  | KeyError (column : string)     (* a column is missing *)
  | ValueError (cell : string)     (* [int()] rejects the cell *)
  | TclError (msg : string).       (* a call on a destroyed widget *)

Fixpoint getitem (r : csv_row) (column : string) : fault + string :=
  match r with
  | [] => inl (KeyError column)
  | (c, v) :: r' => if String.eqb c column then inr v else getitem r' column
  end.

Section Loading.

(** The two things outside the program that [load_tasks] reads: the file
    system (a path gives the rows [csv.DictReader] yields, or the file
    does not open) and the builtin [int] on strings. *)
Variable read_csv : string -> fault + list csv_row.
Variable py_int : string -> option Z.

Definition load_row (r : csv_row) : fault + Task :=
  match getitem r "Description" with
  | inl f => inl f
  | inr desc =>
      match getitem r "IP" with
      | inl f => inl f
      | inr ip =>
          match getitem r "Port" with
          | inl f => inl f
          | inr cell =>
              match py_int cell with
              | None => inl (ValueError cell)
              | Some port => inr (desc, ip, port)
              end
          end
      end
  end.

Fixpoint load_rows (rs : list csv_row) : fault + list Task :=
  match rs with
  | [] => inr []
  | r :: rs' =>
      match load_row r with
      | inl f => inl f
      | inr t =>
          match load_rows rs' with
          | inl f => inl f
          | inr ts => inr (t :: ts)
          end
      end
  end.

Definition load_tasks (csv_path : string) : fault + list Task :=
  match read_csv csv_path with
  | inl f => inl f
  | inr rs => load_rows rs
  end.

End Loading.

(** [int] on the decimal numerals, the cells a task file holds. *)
Definition int_of_decimal (cell : string) : option Z :=
  option_map Z.of_int (NilZero.int_of_string cell).

(** ** The run engine *)

Module Engine.

(** A [Treeview] widget, the key of the [runs] dictionary, is named by a
    number; so is a [ConnectivityRun] object, by its place in the heap. *)
Abbreviation key := nat (only parsing).
Abbreviation rid := nat (only parsing).

Record ConnectivityRun : Type := {
  tree : key;
  tasks : list Task;
  source_ip : option string;
  index : nat;
  stop_flag : bool;
  thread : option nat
}.

(** [ConnectivityRun.__init__] *)
Definition new_run (k : key) (ts : list Task) (src : option string) : ConnectivityRun :=
  {| tree := k; tasks := ts; source_ip := src; index := 0; stop_flag := false;
     thread := None |}.

(** [ConnectivityRun.stop] *)
Definition stop (r : ConnectivityRun) : ConnectivityRun :=
  {| tree := tree r; tasks := tasks r; source_ip := source_ip r; index := index r;
     stop_flag := true; thread := thread r |}.

Definition set_progress (i : nat) (t : nat) (r : ConnectivityRun) : ConnectivityRun :=
  {| tree := tree r; tasks := tasks r; source_ip := source_ip r; index := i;
     stop_flag := stop_flag r; thread := Some t |}.

(** One row of the tree: the values [(desc, ip, port, status)] and the tag. *)
Record Row : Type := {
  r_desc : string; r_ip : string; r_port : Z; r_status : string; r_tag : string
}.

Definition with_status (status tag : string) (r : Row) : Row :=
  {| r_desc := r_desc r; r_ip := r_ip r; r_port := r_port r;
     r_status := status; r_tag := tag |}.

(** The callbacks handed to [after]: the closures of the program with the
    variables they capture. *)
Inductive callback : Type :=
  | CbSetTesting (r : rid) (k : key) (i : nat)
  | CbUpdateUi (k : key) (i : nat) (status_text tag : string)
  | CbNext (ts : list Task) (k : key) (i : nat) (src : option string) (delay_ms : Z)
  | CbRestart (csv_path : string) (k : key) (src : option string) (delay_ms : Z).

Record timer : Type := { due : Z; cb : callback }.

Definition cb_key (c : callback) : key :=
  match c with
  | CbSetTesting _ k _ | CbUpdateUi k _ _ _ | CbNext _ k _ _ _ | CbRestart _ k _ _ => k
  end.

(** Tk keeps its timers ordered by due time; a new timer goes behind the
    ones due at the same time. *)
Fixpoint enqueue (t : timer) (q : list timer) : list timer :=
  match q with
  | [] => [t]
  | u :: q' => if due t <? due u then t :: q else u :: enqueue t q'
  end.

(** Where a [scan_worker] thread stands. *)
Inductive pc : Type :=
  | AtMark                                  (* before [tree.after(0, set_testing)] *)
  | AtProbe                                 (* before [_connect_to_host] *)
  | AtUpdate (status_text tag : string)     (* before [tree.after(0, update_ui)] *)
  | AtNext                                  (* before [if not run.stop_flag] *)
  | Finished.

(** A [scan_worker] thread: the variables its closure captures and its
    program counter. *)
Record Worker : Type := {
  w_run : rid;
  w_tasks : list Task;
  w_tree : key;
  w_index : nat;
  w_source : option string;
  w_delay : Z;
  w_pc : pc
}.

Definition at_pc (p : pc) (w : Worker) : Worker :=
  {| w_run := w_run w; w_tasks := w_tasks w; w_tree := w_tree w; w_index := w_index w;
     w_source := w_source w; w_delay := w_delay w; w_pc := p |}.

(** What the result surface saw, in order (a history variable: the
    program does not read it). *)
Inductive event : Type :=
  | Dispatched (r : rid) (k : key) (i : nat)        (* [thread.start()] for task [i] *)
  | TaskStarted (k : key) (i : nat)                 (* [set_testing] marked row [i] *)
  | TaskResult (k : key) (i : nat) (status_text : string). (* [update_ui] wrote row [i] *)

Record State : Type := {
  now : Z;                        (* the clock of the event loop, in ms *)
  os : os_state;
  heap : list ConnectivityRun;
  runs : gmap key rid;            (* the global [runs] *)
  trees : gmap key (list Row);
  closed : gset key;              (* destroyed result windows *)
  timers : list timer;
  threads : list Worker;
  log : list event
}.

Definition init : State :=
  {| now := 0; os := os_init; heap := []; runs := ∅; trees := ∅; closed := ∅;
     timers := []; threads := []; log := [] |}.

Definition set_now (v : Z) (s : State) : State :=
  {| now := v; os := os s; heap := heap s; runs := runs s; trees := trees s;
     closed := closed s; timers := timers s; threads := threads s; log := log s |}.
Definition set_os (v : os_state) (s : State) : State :=
  {| now := now s; os := v; heap := heap s; runs := runs s; trees := trees s;
     closed := closed s; timers := timers s; threads := threads s; log := log s |}.
Definition set_heap (v : list ConnectivityRun) (s : State) : State :=
  {| now := now s; os := os s; heap := v; runs := runs s; trees := trees s;
     closed := closed s; timers := timers s; threads := threads s; log := log s |}.
Definition set_runs (v : gmap key rid) (s : State) : State :=
  {| now := now s; os := os s; heap := heap s; runs := v; trees := trees s;
     closed := closed s; timers := timers s; threads := threads s; log := log s |}.
Definition set_trees (v : gmap key (list Row)) (s : State) : State :=
  {| now := now s; os := os s; heap := heap s; runs := runs s; trees := v;
     closed := closed s; timers := timers s; threads := threads s; log := log s |}.
Definition set_closed (v : gset key) (s : State) : State :=
  {| now := now s; os := os s; heap := heap s; runs := runs s; trees := trees s;
     closed := v; timers := timers s; threads := threads s; log := log s |}.
Definition set_timers (v : list timer) (s : State) : State :=
  {| now := now s; os := os s; heap := heap s; runs := runs s; trees := trees s;
     closed := closed s; timers := v; threads := threads s; log := log s |}.
Definition set_threads (v : list Worker) (s : State) : State :=
  {| now := now s; os := os s; heap := heap s; runs := runs s; trees := trees s;
     closed := closed s; timers := timers s; threads := v; log := log s |}.
Definition set_log (v : list event) (s : State) : State :=
  {| now := now s; os := os s; heap := heap s; runs := runs s; trees := trees s;
     closed := closed s; timers := timers s; threads := threads s; log := v |}.

(** [runs.get(tree)]: the run object registered for the key. *)
Definition registered (s : State) (k : key) : option (rid * ConnectivityRun) :=
  match runs s !! k with
  | None => None
  | Some r => match heap s !! r with
              | None => None
              | Some o => Some (r, o)
              end
  end.

(** [tree in runs and not runs[tree].stop_flag] *)
Definition active_run (s : State) (k : key) : option (rid * ConnectivityRun) :=
  match registered s k with
  | Some (r, o) => if stop_flag o then None else Some (r, o)
  | None => None
  end.

(** [tree.get_children()] *)
Definition rows_of (s : State) (k : key) : list Row := default [] (trees s !! k).

(** [widget.after(ms, f)] *)
Definition after (ms : Z) (c : callback) (s : State) : State :=
  set_timers (enqueue {| due := now s + ms; cb := c |} (timers s)) s.

Definition emit (e : event) (s : State) : State := set_log (log s ++ [e]) s.

(** [run_task_async] up to and including [thread.start()]. *)
Definition run_task_async (ts : list Task) (k : key) (i : nat)
    (src : option string) (delay_ms : Z) (s : State) : State :=
  match registered s k with
  | None => s
  | Some (r, o) =>
      if stop_flag o || (length (tasks o) <=? i)%nat then s
      else
        let t := length (threads s) in
        let w := {| w_run := r; w_tasks := ts; w_tree := k; w_index := i;
                    w_source := src; w_delay := delay_ms; w_pc := AtMark |} in
        emit (Dispatched r k i)
          (set_threads (threads s ++ [w])
             (set_heap (<[r := set_progress i t o]> (heap s)) s))
  end.

(** The text and tag [scan_worker] computes from the probe's tuple. *)
Definition status_of (res : ProbeTuple) : string * string :=
  let '(success, elapsed_ms, err_msg) := res in
  (if success
   then "SUCCESSFUL (" ++ match elapsed_ms with
                          | Some ms => str_of_int ms
                          | None => "None"
                          end ++ " ms)"
   else err_msg,
   if success then "successful" else "unsuccessful").

Definition set_worker (t : nat) (w : Worker) (s : State) : State :=
  set_threads (<[t := w]> (threads s)) s.

(** One statement of [scan_worker] in thread [t]; [w] is the world its
    probe meets.  [None]: the thread does not exist or has ended.  A call
    of [tree.after] from the thread is handed to the event loop, which
    enters the timer at its current time; the thread waits for that. *)
Definition scan_worker (t : nat) (w : World) (s : State) : option State :=
  match threads s !! t with
  | None => None
  | Some wk =>
      match w_pc wk with
      | AtMark =>
          Some (set_worker t (at_pc AtProbe wk)
                  (after 0 (CbSetTesting (w_run wk) (w_tree wk) (w_index wk)) s))
      | AtProbe =>
          match w_tasks wk !! w_index wk with
          | None => Some (set_worker t (at_pc Finished wk) s)   (* IndexError *)
          | Some (_, ip, port) =>
              let '(res, os') := _connect_to_host w ip port (w_source wk) (os s) in
              let '(status_text, tag) := status_of res in
              Some (set_worker t (at_pc (AtUpdate status_text tag) wk) (set_os os' s))
          end
      | AtUpdate status_text tag =>
          Some (set_worker t (at_pc AtNext wk)
                  (after 0 (CbUpdateUi (w_tree wk) (w_index wk) status_text tag) s))
      | AtNext =>
          match heap s !! w_run wk with
          | None => None
          | Some o =>
              if stop_flag o then Some (set_worker t (at_pc Finished wk) s)
              else
                let next_delay := Z.max 0 (w_delay wk) in
                Some (set_worker t (at_pc Finished wk)
                        (after next_delay
                           (CbNext (w_tasks wk) (w_tree wk) (S (w_index wk))
                              (w_source wk) next_delay) s))
          end
      | Finished => None
      end
  end.

(** [set_testing] *)
Definition set_testing (r : rid) (k : key) (i : nat) (s : State) : State :=
  match heap s !! r with
  | None => s
  | Some o =>
      if stop_flag o then s
      else if bool_decide (k ∈ closed s) then s        (* TclError *)
      else
        match rows_of s k !! i with
        | None => s                                       (* IndexError *)
        | Some row =>
            emit (TaskStarted k i)
              (set_trees (<[k := <[i := with_status "Testing" "testing" row]> (rows_of s k)]>
                            (trees s)) s)
        end
  end.

(** [update_ui] (the scrolling of the view is not modelled) *)
Definition update_ui (k : key) (i : nat) (status_text tag : string) (s : State) : State :=
  if bool_decide (k ∈ closed s) then s                    (* [not tree.winfo_exists()] *)
  else
    match rows_of s k !! i with
    | None => s                                           (* IndexError *)
    | Some row =>
        emit (TaskResult k i status_text)
          (set_trees (<[k := <[i := with_status status_text tag row]> (rows_of s k)]>
                        (trees s)) s)
    end.

(** The loop of [stop_running_tests] and of [_on_result_window_close]. *)
Definition cancel_row (r : Row) : Row :=
  if String.eqb (r_status r) "Testing" || String.eqb (r_status r) "Not tested"
  then with_status "Cancelled" "cancelled" r
  else r.

Definition stop_run (r : rid) (o : ConnectivityRun) (s : State) : State :=
  set_heap (<[r := stop o]> (heap s)) s.

(** [stop_running_tests] *)
Definition stop_running_tests (k : key) (s : State) : State :=
  match registered s k with
  | None => s
  | Some (r, o) =>
      stop_run r o (set_trees (<[k := map cancel_row (rows_of s k)]> (trees s)) s)
  end.

(** [_on_result_window_close]: [win.destroy()] also deletes the callbacks
    registered through the window's widgets and still pending. *)
Definition _on_result_window_close (k : key) (s : State) : State :=
  let s1 := stop_running_tests k s in
  set_closed ({[k]} ∪ closed s1)
    (set_timers (filter (fun t => negb (Nat.eqb (cb_key (cb t)) k)) (timers s1)) s1).

Section WithFiles.

Variable read_csv : string -> fault + list csv_row.
Variable py_int : string -> option Z.

Definition placeholder (t : Task) : Row :=
  let '(desc, ip, port) := t in
  {| r_desc := desc; r_ip := ip; r_port := port; r_status := "Testing";
     r_tag := "pending" |}.

(** [start_connectivity_check]; the state it leaves and the fault it
    raises, if any (the text widget of local addresses is not
    modelled). *)
Definition start_connectivity_check (csv_path : string) (k : key)
    (src : option string) (delay_ms : Z) (s : State) : State * option fault :=
  match active_run s k with
  | Some (r, o) =>
      (after 100 (CbRestart csv_path k src delay_ms) (stop_run r o s), None)
  | None =>
      match load_tasks read_csv py_int csv_path with
      | inl f => (s, Some f)
      | inr ts =>
          let s1 := set_runs (<[k := length (heap s)]> (runs s))
                      (set_heap (heap s ++ [new_run k ts src]) s) in
          if bool_decide (k ∈ closed s)
          then (s1, Some (TclError "invalid command name"))
          else (run_task_async ts k 0 src delay_ms
                  (set_trees (<[k := map placeholder ts]> (trees s1)) s1), None)
      end
  end.

(** A callback run by the event loop; an exception it raises is reported
    and the loop goes on. *)
Definition run_callback (c : callback) (s : State) : State :=
  match c with
  | CbSetTesting r k i => set_testing r k i s
  | CbUpdateUi k i status_text tag => update_ui k i status_text tag s
  | CbNext ts k i src delay_ms => run_task_async ts k i src delay_ms s
  | CbRestart csv_path k src delay_ms =>
      fst (start_connectivity_check csv_path k src delay_ms s)
  end.

(** What can happen next. *)
Inductive label : Type :=
  | Tick (ms : nat)                      (* time passes *)
  | Fire                                 (* the event loop runs the first due timer *)
  | Work (t : nat) (w : World)           (* thread [t] runs its next statement *)
  | ClickTest (k : key) (csv_path : string) (src : option string) (delay_ms : Z)
  | ClickStop (k : key)
  | CloseWindow (k : key).

Definition step (s : State) (l : label) : option State :=
  match l with
  | Tick ms => Some (set_now (now s + Z.of_nat ms) s)
  | Fire =>
      match timers s with
      | [] => None
      | t :: q =>
          if due t <=? now s then Some (run_callback (cb t) (set_timers q s)) else None
      end
  | Work t w => scan_worker t w s
  | ClickTest k csv_path src delay_ms =>
      if bool_decide (k ∈ closed s) then None
      else Some (fst (start_connectivity_check csv_path k src delay_ms s))
  | ClickStop k =>
      if bool_decide (k ∈ closed s) then None else Some (stop_running_tests k s)
  | CloseWindow k =>
      if bool_decide (k ∈ closed s) then None else Some (_on_result_window_close k s)
  end.

Fixpoint exec (s : State) (ls : list label) : option State :=
  match ls with
  | [] => Some s
  | l :: ls' =>
      match step s l with
      | None => None
      | Some s' => exec s' ls'
      end
  end.

End WithFiles.

End Engine.

(** ** The specification's view of the program's data *)

(** The specification's error kinds, read off the error text the probe
    returns (the program has no such enumeration). *)
Inductive ErrorKind : Type := KNone | KTimeout | KRefused | KOther.

Definition error_kind (res : ProbeTuple) : ErrorKind :=
  let '(_, _, error_text) := res in
  if String.eqb error_text "" then KNone
  else if String.eqb error_text "Connection timed out" then KTimeout
  else if String.eqb error_text "Connection refused by remote host" then KRefused
  else KOther.

(** The two shapes the specification allows for an outcome. *)
Definition outcome_shape_ok (res : ProbeTuple) : bool :=
  let '(success, elapsed_ms, _) := res in
  match success, elapsed_ms, error_kind res with
  | true, Some _, _ => true
  | false, None, (KTimeout | KRefused | KOther) => true
  | _, _, _ => false
  end.

(** Worlds used as concrete inputs. *)
Definition world_of (c : connect_outcome) (b : option string) : World :=
  {| t_start := 1000000; t_end := 4500000; sys_socket := None;
     sys_bind := fun _ => b; sys_connect := fun _ _ => c |}.

(** The world [w] with another answer to [bind()]. *)
Definition with_bind (b : string -> option string) (w : World) : World :=
  {| t_start := t_start w; t_end := t_end w; sys_socket := sys_socket w;
     sys_bind := b; sys_connect := sys_connect w |}.

Import Engine.

(** The specification's run states, read off the run object and the worker
    threads: [Running] while the stop flag is clear; once it is set,
    [Stopping] as long as a [scan_worker] of the run has not ended, then
    [Stopped]. *)
Inductive RunState : Type := Running | Stopping | Stopped.

Definition pc_finished (p : pc) : bool :=
  match p with
  | Finished => true
  | _ => false
  end.

Definition in_flight (s : State) (r : rid) : bool :=
  existsb (fun w => Nat.eqb (w_run w) r && negb (pc_finished (w_pc w))) (threads s).

Definition run_state (s : State) (r : rid) (o : ConnectivityRun) : RunState :=
  if stop_flag o then (if in_flight s r then Stopping else Stopped) else Running.

(** The indices dispatched on behalf of run [r], in order. *)
Definition dispatch_index (r : rid) (e : event) : list nat :=
  match e with
  | Dispatched r' _ i => if Nat.eqb r' r then [i] else []
  | _ => []
  end.

Definition dispatched_of (r : rid) (l : list event) : list nat :=
  flat_map (dispatch_index r) l.

(** A run object just created for [k] with tasks [ts] is registered as [r]. *)
Definition fresh_run_at (r : rid) (k : key) (ts : list Task) (src : option string)
    (s : State) : Prop :=
  exists o, registered s k = Some (r, o) /\ tasks o = ts /\ source_ip o = src
            /\ index o = 0%nat /\ stop_flag o = false.

(** Run [r] has its stop flag set, its index is [i] and the indices
    dispatched for it so far are [dl]. *)
Definition stopped_at (r : rid) (i : nat) (dl : list nat) (s : State) : Prop :=
  exists o, heap s !! r = Some o /\ stop_flag o = true /\ index o = i
            /\ dispatched_of r (log s) = dl.

(** How a step may change the heap and the log without touching a stopped
    run: the object stays, keeps its flag and index, and nothing is
    dispatched for it. *)
Definition keeps_stopped (s s' : State) : Prop :=
  forall r o, heap s !! r = Some o -> stop_flag o = true ->
    (exists o', heap s' !! r = Some o' /\ stop_flag o' = true /\ index o' = index o)
    /\ dispatched_of r (log s') = dispatched_of r (log s).

(** Every run's index is the last index dispatched for it, and nothing was
    dispatched for an object that does not exist. *)
Definition index_tracks (s : State) : Prop :=
  forall r, match heap s !! r with
            | Some o => index o = default 0%nat (last (dispatched_of r (log s)))
            | None => dispatched_of r (log s) = []
            end.

(** A task file with two rows, and one whose port is out of range. *)
Definition sample_files (csv_path : string) : fault + list csv_row :=
  if String.eqb csv_path "two.csv"
  then inr [[("Description", "web"); ("IP", "10.0.0.1"); ("Port", "80")];
            [("Description", "db"); ("IP", "10.0.0.2"); ("Port", "5432")]]
  else if String.eqb csv_path "one.csv"
  then inr [[("Description", "web"); ("IP", "10.0.0.1"); ("Port", "80")]]
  else if String.eqb csv_path "bad-port.csv"
  then inr [[("Description", "web"); ("IP", "10.0.0.1"); ("Port", "70000")]]
  else inl (OSError "No such file or directory").

(** *** A run on its own

    The run started by one request on a fresh program, on which nothing but
    time, the event loop and the worker threads act. *)

(** The labels that are no request of the user. *)
Definition quiet (l : label) : Prop :=
  match l with
  | Tick _ | Fire | Work _ _ => True
  | _ => False
  end.

(** Nothing is pending: no timer, and every worker thread has ended. *)
Definition quiescent (s : State) : bool :=
  match timers s with
  | [] => forallb (fun w => pc_finished (w_pc w)) (threads s)
  | _ :: _ => false
  end.

(** An event without the status text, which depends on what the probe met. *)
Definition erase (e : event) : event :=
  match e with
  | TaskResult k i _ => TaskResult k i ""
  | _ => e
  end.

(** What the result surface is to see of task [i] of run [0] on tree [k],
    and of the first [n] tasks. *)
Definition events_of_task (k : key) (i : nat) : list event :=
  [Dispatched 0 k i; TaskStarted k i; TaskResult k i ""].

Definition schedule (k : key) (n : nat) : list event :=
  flat_map (events_of_task k) (seq 0 n).

(** How many callbacks a worker has handed to [after] when it is at [p],
    and how many statements it still has to run. *)
Definition enqueued (p : pc) : nat :=
  match p with
  | AtMark => 0
  | AtProbe | AtUpdate _ _ => 1
  | AtNext => 2
  | Finished => 3
  end.

Definition pc_rank (p : pc) : nat :=
  match p with
  | AtMark => 4
  | AtProbe => 3
  | AtUpdate _ _ => 2
  | AtNext => 1
  | Finished => 0
  end.

(** The run object while task [i] is the last one dispatched, and the
    thread that works on task [i]. *)
Definition the_run (k : key) (ts : list Task) (src : option string) (i : nat)
    : ConnectivityRun :=
  {| tree := k; tasks := ts; source_ip := src; index := i; stop_flag := false;
     thread := Some i |}.

Definition the_worker (k : key) (ts : list Task) (src : option string) (i : nat)
    (delay_ms : Z) (p : pc) : Worker :=
  {| w_run := 0; w_tasks := ts; w_tree := k; w_index := i; w_source := src;
     w_delay := delay_ms; w_pc := p |}.

(** The three callbacks of task [i], in the order [scan_worker] hands them
    to [after]. *)
Definition callbacks_of_task (k : key) (ts : list Task) (src : option string) (i : nat)
    (delay_ms : Z) (d1 d2 d3 : Z) (status_text tag : string) : list timer :=
  [ {| due := d1; cb := CbSetTesting 0 k i |};
    {| due := d2; cb := CbUpdateUi k i status_text tag |};
    {| due := d3; cb := CbNext ts k (S i) src (Z.max 0 delay_ms) |} ].

(** Task [i] is under way: its worker is at [p], and the event loop has run
    [f] of the callbacks of the task. *)
Record busy_inv (k : key) (ts : list Task) (src : option string) (delay_ms : Z)
    (i : nat) (p : pc) (f : nat) (s : State) : Prop := {
  bi_bound : (i < length ts)%nat;
  bi_fired : (f <= enqueued p)%nat /\ (f <= 2)%nat;
  bi_heap : heap s = [the_run k ts src i];
  bi_runs : runs s !! k = Some 0%nat;
  bi_open : k ∉ closed s;
  bi_rows : length (rows_of s k) = length ts;
  bi_threads :
    exists olds dl,
      threads s = (olds ++ [the_worker k ts src i dl p])%list
      /\ length olds = i
      /\ Forall (fun w => w_pc w = Finished) olds
      /\ Z.max 0 dl = Z.max 0 delay_ms;
  bi_timers :
    exists d1 d2 d3 status_text tag,
      timers s = drop f (take (enqueued p)
                           (callbacks_of_task k ts src i delay_ms d1 d2 d3 status_text tag));
  bi_due : (enqueued p < 3)%nat -> Forall (fun t => due t <= now s) (timers s);
  bi_log : map erase (log s) = (schedule k i ++ take (S f) (events_of_task k i))%list
}.

(** Every task has been handled and nothing is pending. *)
Record idle_inv (k : key) (ts : list Task) (s : State) : Prop := {
  ii_heap : exists o, heap s = [o] /\ tasks o = ts /\ stop_flag o = false
                      /\ index o = pred (length ts);
  ii_runs : runs s !! k = Some 0%nat;
  ii_threads : Forall (fun w => w_pc w = Finished) (threads s);
  ii_timers : timers s = [];
  ii_log : map erase (log s) = schedule k (length ts)
}.

Inductive phase : Type :=
  | Busy (i : nat) (p : pc) (f : nat)
  | Idle.

Definition solo_inv (k : key) (ts : list Task) (src : option string) (delay_ms : Z)
    (ph : phase) (s : State) : Prop :=
  match ph with
  | Busy i p f => busy_inv k ts src delay_ms i p f s
  | Idle => idle_inv k ts s
  end.

(** What is left to do: statements of worker threads and callbacks to run. *)
Definition work_left (n : nat) (ph : phase) : nat :=
  match ph with
  | Busy i p f => (n - i) * 8 + pc_rank p + (3 - f)
  | Idle => 0
  end.

(** *** Concrete inputs *)

Definition w_up : World := world_of Established None.
Definition w_refusing : World := world_of Refused None.

Definition two_tasks : list Task := [("web", "10.0.0.1", 80); ("db", "10.0.0.2", 5432)].

(** The state after the labels [ls], on the sample files. *)
Definition sample_exec (s : State) (ls : list label) : State :=
  default s (exec sample_files int_of_decimal s ls).

(** Window 7 runs "two.csv"; the worker of task 0 has marked its row and is
    about to probe when Stop is clicked. *)
Definition stop_mid_probe : list label :=
  [ClickTest 7 "two.csv" None 100; Work 0 w_up; Fire; ClickStop 7].

Definition stopped_mid_probe : State := sample_exec init stop_mid_probe.

(** The worker thread and the run object in that state. *)
Definition probing_worker : Worker := the_worker 7 two_tasks None 0 100 AtProbe.

Definition stopped_run : ConnectivityRun :=
  {| tree := 7; tasks := two_tasks; source_ip := None; index := 0; stop_flag := true;
     thread := Some 0%nat |}.

(** Window 7 runs "two.csv" and nothing else has happened yet. *)
Definition just_started : State :=
  fst (start_connectivity_check sample_files int_of_decimal "two.csv" 7 None 100 init).

(** The probe then completes, the worker runs to its end and the event loop
    runs the callback it left. *)
Definition probe_completes : list label :=
  [Work 0 w_refusing; Work 0 w_up; Work 0 w_up; Fire].

(** The same request made again on the stopped run, its probe in flight. *)
Definition requested_again : State :=
  fst (start_connectivity_check sample_files int_of_decimal "two.csv" 7 None 100
         stopped_mid_probe).

(** Window 7 runs "one.csv" to its end. *)
Definition one_task_run : list label :=
  [Work 0 w_up; Fire; Work 0 w_up; Work 0 w_up; Work 0 w_up; Fire; Tick 100; Fire].

Definition one_task_done : State :=
  sample_exec
    (fst (start_connectivity_check sample_files int_of_decimal "one.csv" 7 None 100 init))
    one_task_run.

(** What happens to window 7 after the stop: the probe completes, the test
    is requested again, time passes and the new run goes on. *)
Definition after_the_stop : list label :=
  [Work 0 w_refusing; Work 0 w_up; Work 0 w_up; Fire;
   ClickTest 7 "two.csv" None 100; Work 1 w_up; Fire; Work 1 w_up; Work 1 w_up;
   Work 1 w_up; Fire; Tick 100; Fire; Work 2 w_up].

(** Window 7 runs "two.csv" with a delay of 100 ms; task 0 is handled and
    the callback for task 1 is pending when Stop and then Test are clicked;
    the pending callback then comes due. *)
Definition stop_then_test : list label :=
  [ClickTest 7 "two.csv" None 100; Work 0 w_up; Work 0 w_up; Work 0 w_up; Work 0 w_up;
   Fire; Fire; ClickStop 7; ClickTest 7 "two.csv" None 100; Tick 100; Fire].

(** *** Opening a result window *)

(** The row [open_result_window] inserts for a task before any test. *)
Definition not_tested (t : Task) : Row :=
  let '(desc, ip, port) := t in
  {| r_desc := desc; r_ip := ip; r_port := port; r_status := "Not tested";
     r_tag := "pending" |}.

(** The loop of [open_result_window] over the rows of the file: the rows
    inserted in the tree, and the fault that ended the loop, if any. *)
Fixpoint preload_rows (py_int : string -> option Z) (rs : list csv_row)
    : list Row * option fault :=
  match rs with
  | [] => ([], None)
  | r :: rs' =>
      match load_row py_int r with
      | inl f => ([], Some f)
      | inr t =>
          let '(rows, f) := preload_rows py_int rs' in
          (not_tested t :: rows, f)
      end
  end.

Definition preload (read_csv : string -> fault + list csv_row)
    (py_int : string -> option Z) (csv_path : string) : list Row * option fault :=
  match read_csv csv_path with
  | inl f => ([], Some f)
  | inr rs => preload_rows py_int rs
  end.

(** The first three columns of a row. *)
Definition row_task (r : Row) : Task := (r_desc r, r_ip r, r_port r).

(** The sample files and one more, whose second row has a port that is no
    integer. *)
Definition more_files (csv_path : string) : fault + list csv_row :=
  if String.eqb csv_path "mixed.csv"
  then inr [[("Description", "web"); ("IP", "10.0.0.1"); ("Port", "80")];
            [("Description", "db"); ("IP", "10.0.0.2"); ("Port", "http")]]
  else sample_files csv_path.

(** *** What holds of every state the program reaches *)

(** The registry and the trees are in order: a registered key names a run
    object of that tree; a run object whose stop flag is clear is the one
    registered for its tree; the tree of an open window shows, row by row,
    the tasks of the run registered for it; and the indices dispatched for a
    run object are indices of its task list. *)
Record engine_inv (s : State) : Prop := {
  ei_registered :
    forall (k r : nat), runs s !! k = Some r -> exists o, heap s !! r = Some o /\ tree o = k;
  ei_active :
    forall (r : nat) (o : ConnectivityRun),
      heap s !! r = Some o -> stop_flag o = false -> runs s !! tree o = Some r;
  ei_rows :
    forall (k r : nat) (o : ConnectivityRun),
      k ∉ closed s -> registered s k = Some (r, o) ->
      map row_task (rows_of s k) = tasks o;
  ei_range :
    forall r : nat,
      match heap s !! r with
      | Some o => Forall (fun i => (i < length (tasks o))%nat) (dispatched_of r (log s))
      | None => dispatched_of r (log s) = []
      end
}.

(** The notifications delivered to the tree [k]. *)
Definition is_notice (k : nat) (e : event) : bool :=
  match e with
  | TaskStarted k' _ | TaskResult k' _ _ => Nat.eqb k' k
  | Dispatched _ _ _ => false
  end.

Definition notices_of (k : nat) (l : list event) : list event := List.filter (is_notice k) l.

(** Between [s] and [s'] the closed window [k] has stayed closed, its rows
    are what they were and it was notified of nothing. *)
Definition silent (k : nat) (s s' : State) : Prop :=
  (k ∈ closed s -> k ∈ closed s')
  /\ trees s' !! k = trees s !! k
  /\ notices_of k (log s') = notices_of k (log s).

(** *** The manual test *)

(** [s.split(sep)] for a separator of one character. *)
Fixpoint split_on (sep : ascii) (s : string) : list string :=
  match s with
  | EmptyString => [EmptyString]
  | String c s' =>
      if Ascii.eqb c sep then EmptyString :: split_on sep s'
      else match split_on sep s' with
           | [] => [String c EmptyString]
           | piece :: pieces => String c piece :: pieces
           end
  end.

(** [sep in s] *)
Fixpoint has_char (sep : ascii) (s : string) : bool :=
  match s with
  | EmptyString => false
  | String c s' => Ascii.eqb c sep || has_char sep s'
  end.

(** What [_run_manual] does with the entry: it asks for input, reports a
    format error, or starts a thread that probes. *)
Inductive manual_action : Type :=
  | InputRequired
  | FormatError
  | ManualProbe (dest_ip : string) (dest_port : Z) (source_ip : string).

Section Manual.

(** [str.strip] and [int] are the library's. *)
Variable py_strip : string -> string.
Variable py_int : string -> option Z.

Definition _run_manual (entry source_ip : string) : manual_action :=
  let ip_port := py_strip entry in
  if String.eqb ip_port EmptyString then InputRequired
  else
    match split_on ":" ip_port with
    | [dest_ip; dest_port_str] =>
        match py_int dest_port_str with
        | Some dest_port => ManualProbe dest_ip dest_port source_ip
        | None => FormatError
        end
    | _ => FormatError
    end.

End Manual.

(** *** The addresses of the machine *)

Definition is_digit (c : ascii) : bool :=
  (48 <=? nat_of_ascii c)%nat && (nat_of_ascii c <=? 57)%nat.

(** The longest run of digits [s] starts with, and what follows it. *)
Fixpoint span_digits (s : string) : string * string :=
  match s with
  | EmptyString => (EmptyString, EmptyString)
  | String c s' =>
      if is_digit c
      then let '(run, rest) := span_digits s' in (String c run, rest)
      else (EmptyString, s)
  end.

(** A run of at least one digit followed by a dot. *)
Definition digits_dot (s : string) : option (string * string) :=
  match span_digits s with
  | (String c run, String "." rest) => Some (String c run, rest)
  | _ => None
  end.

(** [re.match(r'\d+\.\d+\.\d+\.\d+', s)]: the pattern at the start of [s].
    Each [\d+] takes the whole run of digits: with fewer, the next
    character would be a digit, not the dot the pattern asks for. *)
Definition match_quad (s : string) : option string :=
  match digits_dot s with
  | None => None
  | Some (a, s1) =>
      match digits_dot s1 with
      | None => None
      | Some (b, s2) =>
          match digits_dot s2 with
          | None => None
          | Some (c, s3) =>
              match span_digits s3 with
              | (String x d, _) =>
                  Some (a ++ "." ++ b ++ "." ++ c ++ "." ++ String x d)
              | _ => None
              end
          end
      end
  end.

(** [re.search]: the pattern at the first place of [s] where it matches. *)
Fixpoint search_quad (s : string) : option string :=
  match match_quad s with
  | Some ip => Some ip
  | None =>
      match s with
      | EmptyString => None
      | String _ s' => search_quad s'
      end
  end.

(** [sub in s] *)
Fixpoint contains (sub s : string) : bool :=
  String.prefix sub s ||
  match s with
  | EmptyString => false
  | String _ s' => contains sub s'
  end.

(** [get_machine_ipv4_addresses] on the lines [ipconfig] printed; [None]
    when running it raised. *)
Definition ipv4_of_line (line : string) : list string :=
  if contains "IPv4 Address" line
  then match search_quad line with
       | Some ip => [ip]
       | None => []
       end
  else [].

Definition get_machine_ipv4_addresses (ipconfig : option (list string)) : list string :=
  match ipconfig with
  | None => []
  | Some lines => flat_map ipv4_of_line lines
  end.

(** A combobox: its current text and its list of values. *)
Record Combobox : Type := { cb_get : string; cb_values : list string }.

Definition refresh_combo (ips : list string) (cb : Combobox) : Combobox :=
  {| cb_get := if existsb (String.eqb (cb_get cb)) ips then cb_get cb
               else match ips with
                    | ip :: _ => ip
                    | [] => EmptyString
                    end;
     cb_values := ips |}.

Definition refresh_ip_dropdowns (ipconfig : option (list string)) (combos : list Combobox)
    : list Combobox :=
  let ips := get_machine_ipv4_addresses ipconfig in
  map (refresh_combo ips) combos.

(** The shape of a dotted quad: four runs of digits, each of one digit at
    least, with a dot between them. *)
Definition all_digits (s : string) : bool :=
  match span_digits s with
  | (String _ _, EmptyString) => true
  | _ => false
  end.

Definition dotted_quad (ip : string) : Prop :=
  exists a b c d,
    ip = (a ++ "." ++ b ++ "." ++ c ++ "." ++ d)%string
    /\ all_digits a = true /\ all_digits b = true /\ all_digits c = true
    /\ all_digits d = true.

(** *** The grid of buttons of the main window *)

Definition cols_per_row : Z := 2.

(** [(len(buttons_data) + cols_per_row - 1) // cols_per_row] *)
Definition num_rows (n : Z) : Z := (n + cols_per_row - 1) / cols_per_row.

(** [r, c = divmod(i, cols_per_row)] and [btn.grid(row=r + 1, column=c)] *)
Definition button_cell (i : Z) : Z * Z := (i / cols_per_row + 1, i mod cols_per_row).

(** Some output of [ipconfig], and a dropdown whose text is an address the
    machine no longer has. *)
Definition ipconfig_output : list string :=
  ["Windows IP Configuration";
   "   IPv4 Address. . . . . . . . . . . : 192.168.1.10(Preferred)";
   "   Subnet Mask . . . . . . . . . . . : 255.255.255.0";
   "   Autoconfiguration IPv4 Address. . : 169.254.7.9"].

Definition stale_combo : Combobox :=
  {| cb_get := "10.0.0.5"; cb_values := ["10.0.0.5"; "192.168.1.10"] |}.

(** The run registered for window 7 after [stop_then_test]. *)
Definition replacement_run : ConnectivityRun :=
  {| tree := 7; tasks := two_tasks; source_ip := None; index := 1; stop_flag := false;
     thread := Some 2%nat |}.

(** Window 7 runs "two.csv" and is closed while the first probe is in
    flight; the probe then completes and the worker runs to its end. *)
Definition closed_mid_probe : State :=
  sample_exec init [ClickTest 7 "two.csv" None 100; Work 0 w_up; CloseWindow 7].

Definition after_closing : list label :=
  [Work 0 w_up; Work 0 w_up; Fire; Work 0 w_up; Tick 5].

(** *** What a row can read, and where a result comes from *)

(** The texts and tags a probe gives rise to. *)
Definition result_text (status_text tag : string) : Prop :=
  (exists n, status_text = ("SUCCESSFUL (" ++ str_of_int n ++ " ms)")%string
             /\ tag = "successful")
  \/ (status_text = "UNSUCCESSFUL" /\ tag = "unsuccessful")
  \/ (exists msg, status_text = ("Error: " ++ msg)%string /\ tag = "unsuccessful").

(** A row that shows no result: it awaits its test, is under test, or was
    cancelled. *)
Definition row_waits (row : Row) : Prop :=
  (r_status row = "Testing" /\ (r_tag row = "pending" \/ r_tag row = "testing"))
  \/ (r_status row = "Cancelled" /\ r_tag row = "cancelled").

Definition row_reads_ok (row : Row) : Prop :=
  row_waits row \/ result_text (r_status row) (r_tag row).

(** [status_text] and [tag] are what [scan_worker] computes from a probe of
    the address and port of task [i] of [ts], from [src]. *)
Definition probed (ts : list Task) (i : nat) (src : option string)
    (status_text tag : string) : Prop :=
  exists w desc ip port st,
    ts !! i = Some (desc, ip, port)
    /\ status_of (fst (_connect_to_host w ip port src st)) = (status_text, tag).

(** Some run object made for tree [k] holds the tasks [ts] and the source
    address [src]. *)
Definition has_origin (h : list ConnectivityRun) (k : nat) (ts : list Task)
    (src : option string) : Prop :=
  exists r o, h !! r = Some o /\ tree o = k /\ tasks o = ts /\ source_ip o = src.

Definition run_probed (h : list ConnectivityRun) (k i : nat) (status_text tag : string)
    : Prop :=
  exists ts src, has_origin h k ts src /\ probed ts i src status_text tag.

Definition callback_ok (h : list ConnectivityRun) (c : callback) : Prop :=
  match c with
  | CbUpdateUi k i status_text tag => run_probed h k i status_text tag
  | CbNext ts k _ src _ => has_origin h k ts src
  | _ => True
  end.

Definition worker_ok (h : list ConnectivityRun) (wk : Worker) : Prop :=
  has_origin h (w_tree wk) (w_tasks wk) (w_source wk)
  /\ forall status_text tag,
       w_pc wk = AtUpdate status_text tag ->
       probed (w_tasks wk) (w_index wk) (w_source wk) status_text tag.

(** The statuses on their way to a tree, those it was notified of and those
    it shows come from probes of the tasks of runs made for it. *)
Record results_ok (s : State) : Prop := {
  ro_threads : forall wk, In wk (threads s) -> worker_ok (heap s) wk;
  ro_timers : forall t, In t (timers s) -> callback_ok (heap s) (cb t);
  ro_log :
    forall k i st, In (TaskResult k i st) (log s) -> exists tg, run_probed (heap s) k i st tg;
  ro_rows :
    forall k i row,
      rows_of s k !! i = Some row ->
      row_waits row \/ run_probed (heap s) k i (r_status row) (r_tag row)
}.

(** The run objects of [h] are still there in [h'], for the same tree, with
    the same tasks and source address. *)
Definition heap_keeps (h h' : list ConnectivityRun) : Prop :=
  forall r o,
    h !! r = Some o ->
    exists o', h' !! r = Some o' /\ tree o' = tree o /\ tasks o' = tasks o
               /\ source_ip o' = source_ip o.

(** The last thing tree [k] was told about its row [j]. *)
Definition about_row (k j : nat) (e : event) : bool :=
  match e with
  | TaskStarted k' i | TaskResult k' i _ => Nat.eqb k' k && Nat.eqb i j
  | Dispatched _ _ _ => false
  end.

Definition last_notice (k j : nat) (l : list event) : option event :=
  last (List.filter (about_row k j) l).

(** A row reads what the tree was last told about it. *)
Definition row_follows (row : Row) (e : option event) : Prop :=
  match e with
  | Some (TaskResult _ _ st) => r_status row = st
  | _ => r_status row = "Testing"
  end.

Definition rows_follow_log (k : nat) (s : State) : Prop :=
  forall j row, rows_of s k !! j = Some row -> row_follows row (last_notice k j (log s)).

(** The tree [k] has a row for each task of [ts], and each row reads what
    the tree was last told about it. *)
Definition solo_rows (k : nat) (ts : list Task) (s : State) : Prop :=
  length (rows_of s k) = length ts /\ rows_follow_log k s.

(** *** The height of the main window *)

(** [_calc_min_height] *)
Definition _calc_min_height (title_h logo_height btn_rows BTN_HEIGHT row_sp manual_row_h
    pad_y pad : Z) : Z :=
  let buttons_grid_h := btn_rows * BTN_HEIGHT + (btn_rows - 1) * row_sp in
  title_h + title_h + title_h * 3 + logo_height + buttons_grid_h + manual_row_h
  + pad_y * 2 + pad * 2.

(** [min_win_h] of [create_main_window] and [new_min_win_h] of
    [refresh_folders], for [n] folders with a task list. *)
Definition min_win_h (logo_height n : Z) : Z :=
  let pad := 25 in
  let row_sp := 10 in
  let BTN_HEIGHT := 30 in
  let manual_row_h := 30 in
  let pad_y := 15 in
  let title_h := 28 in
  let manual_h := manual_row_h + pad_y in
  _calc_min_height title_h logo_height (num_rows n) BTN_HEIGHT row_sp manual_h pad_y pad.

(** * Theorems *)

(** ** The probe *)

Section ProbeFacts.

Variable w : World.
Variables (dest_ip : string) (dest_port : Z) (source_ip : option string).
Variable st : os_state.

(** The probe when [connect_ex] returns: the socket was opened, bound if
    asked to, and closed; the tuple carries the elapsed time whatever the
    code returned. *)
Lemma connect_returns (code : Z) :
  sys_socket w = None ->
  (truthy source_ip = true -> sys_bind w (default "" source_ip) = None) ->
  connect_ex w {| fd := next_fd st; timeout := Some 2 |} dest_ip dest_port
    = ret code ->
  _connect_to_host w dest_ip dest_port source_ip st
    = ((code =? 0, Some (elapsed_millis w),
        if code =? 0 then "" else "UNSUCCESSFUL"),
       {| next_fd := S (next_fd st);
          open_fds := filter (fun d => negb (Nat.eqb d (next_fd st)))
                        (next_fd st :: open_fds st) |}).
Proof.
  intros Hsock Hbind Hconn.
  unfold _connect_to_host, try_except, connect_body, PySocket.bind, socket, settimeout, ret.
  rewrite Hsock. cbn.
  destruct (truthy source_ip) eqn:Ht.
  - unfold sock_bind. rewrite (Hbind eq_refl). cbn.
    rewrite Hconn. reflexivity.
  - cbn. rewrite Hconn. reflexivity.
Qed.

(** What [connect_ex] returns for a port in range and a host that
    resolves. *)
Lemma connect_ex_code (s : sock) :
  0 <= dest_port <= 65535 ->
  (forall msg, sys_connect w dest_ip dest_port <> ResolveFailed msg) ->
  connect_ex w s dest_ip dest_port
    = ret match sys_connect w dest_ip dest_port with
          | Established => 0
          | Refused => ECONNREFUSED
          | DeadlineExceeded => EWOULDBLOCK
          | CError e => Z.pos e
          | ResolveFailed _ => 0
          end.
Proof.
  intros Hport Hres. unfold connect_ex.
  assert ((dest_port <? 0) || (65535 <? dest_port) = false) as ->.
  { apply orb_false_iff. split; apply Z.ltb_ge; lia. }
  destruct (sys_connect w dest_ip dest_port); try reflexivity.
  exfalso. eapply Hres. reflexivity.
Qed.

(** A port outside 0-65535 never reaches the operating system: whatever
    the world, the probe ends in its last [except] clause. *)
Lemma bad_port_ends_in_handler :
  dest_port < 0 \/ 65535 < dest_port ->
  exists msg,
    fst (_connect_to_host w dest_ip dest_port source_ip st)
      = (false, None, "Error: " ++ msg).
Proof.
  intros Hport.
  assert ((dest_port <? 0) || (65535 <? dest_port) = true) as Hb.
  { apply orb_true_iff. destruct Hport; [left; apply Z.ltb_lt | right; apply Z.ltb_lt]; lia. }
  unfold _connect_to_host, try_except, connect_body, PySocket.bind, socket, settimeout, ret.
  destruct (sys_socket w) as [m|]; cbn; [eexists; reflexivity|].
  assert (forall s st',
    exists msg, connect_ex w s dest_ip dest_port st' = (inl (OtherException msg), st'))
    as Hc.
  { intros s st'. unfold connect_ex. rewrite Hb.
    destruct (sys_connect w dest_ip dest_port); eexists; reflexivity. }
  destruct (truthy source_ip).
  - unfold sock_bind. destruct (sys_bind w _) as [m|]; cbn; [eexists; reflexivity|].
    match goal with |- context [connect_ex w ?s _ _ ?st'] =>
      destruct (Hc s st') as [msg ->] end.
    eexists; reflexivity.
  - cbn.
    match goal with |- context [connect_ex w ?s _ _ ?st'] =>
      destruct (Hc s st') as [msg ->] end.
    eexists; reflexivity.
Qed.

End ProbeFacts.

(** C1 (the code departs from the claim).  When the remote end refuses the
    connection, [connect_ex] returns [ECONNREFUSED] instead of raising, so
    the probe never reaches its [except ConnectionRefusedError] clause: it
    returns success=false together with the elapsed time and the text
    "UNSUCCESSFUL", not "Connection refused by remote host". *)
Theorem refused_probe_reports_unsuccessful :
  forall (w : World) (dest_ip : string) (dest_port : Z) (source_ip : option string)
         (st : os_state),
    sys_socket w = None ->
    (truthy source_ip = true -> sys_bind w (default "" source_ip) = None) ->
    0 <= dest_port <= 65535 ->
    sys_connect w dest_ip dest_port = Refused ->
    fst (_connect_to_host w dest_ip dest_port source_ip st)
      = (false, Some (elapsed_millis w), "UNSUCCESSFUL")
    /\ error_kind (fst (_connect_to_host w dest_ip dest_port source_ip st)) = KOther.
Proof.
  intros w ip port src st Hsock Hbind Hport Hconn.
  assert (fst (_connect_to_host w ip port src st)
          = (false, Some (elapsed_millis w), "UNSUCCESSFUL")) as E.
  { rewrite (connect_returns w ip port src st ECONNREFUSED Hsock Hbind).
    - reflexivity.
    - rewrite connect_ex_code by (auto; intros m; rewrite Hconn; discriminate).
      rewrite Hconn. reflexivity. }
  split; [exact E | rewrite E; reflexivity].
Qed.

Lemma refused_probe_reports_unsuccessful_witness :
  fst (_connect_to_host (world_of Refused None) "127.0.0.1" 9 None os_init)
    = (false, Some 3, "UNSUCCESSFUL")
  /\ error_kind (fst (_connect_to_host (world_of Refused None) "127.0.0.1" 9 None os_init))
     = KOther.
Proof.
  apply (refused_probe_reports_unsuccessful (world_of Refused None) "127.0.0.1" 9 None os_init).
  - reflexivity.
  - intros _. reflexivity.
  - lia.
  - reflexivity.
Defined.

(** C2 (the code departs from the claim).  Whenever [connect_ex] returns a
    non-zero code (refusal, expired timeout, any other errno) the probe
    returns success=false with the elapsed time present, although its
    docstring promises [None] on failure: the outcome has neither of the
    two shapes. *)
Theorem failed_probe_carries_elapsed :
  forall (w : World) (dest_ip : string) (dest_port : Z) (source_ip : option string)
         (st : os_state),
    sys_socket w = None ->
    (truthy source_ip = true -> sys_bind w (default "" source_ip) = None) ->
    0 <= dest_port <= 65535 ->
    sys_connect w dest_ip dest_port <> Established ->
    (forall msg, sys_connect w dest_ip dest_port <> ResolveFailed msg) ->
    fst (_connect_to_host w dest_ip dest_port source_ip st)
      = (false, Some (elapsed_millis w), "UNSUCCESSFUL")
    /\ outcome_shape_ok (fst (_connect_to_host w dest_ip dest_port source_ip st)) = false.
Proof.
  intros w ip port src st Hsock Hbind Hport Hne Hres.
  assert (fst (_connect_to_host w ip port src st)
          = (false, Some (elapsed_millis w), "UNSUCCESSFUL")) as E.
  { erewrite (connect_returns w ip port src st _ Hsock Hbind).
    2:{ apply connect_ex_code; assumption. }
    destruct (sys_connect w ip port); try reflexivity.
    - congruence.
    - exfalso. eapply Hres. reflexivity. }
  split; [exact E | rewrite E; reflexivity].
Qed.

Lemma failed_probe_carries_elapsed_witness :
  fst (_connect_to_host (world_of DeadlineExceeded None) "10.255.255.1" 80 (Some "") os_init)
    = (false, Some 3, "UNSUCCESSFUL")
  /\ outcome_shape_ok
       (fst (_connect_to_host (world_of DeadlineExceeded None) "10.255.255.1" 80 (Some "")
               os_init)) = false.
Proof.
  apply (failed_probe_carries_elapsed (world_of DeadlineExceeded None) "10.255.255.1" 80
           (Some "") os_init).
  - reflexivity.
  - intros H. discriminate H.
  - lia.
  - discriminate.
  - intros msg. discriminate.
Defined.



(** The same on the other path that raises after the socket exists: a host
    name that does not resolve. *)
Lemma socket_left_open_when_connect_raises :
  forall (w : World) (dest_ip : string) (dest_port : Z) (st : os_state) (msg : string),
    sys_socket w = None ->
    sys_connect w dest_ip dest_port = ResolveFailed msg ->
    _connect_to_host w dest_ip dest_port None st
      = ((false, None, "Error: " ++ msg),
         {| next_fd := S (next_fd st); open_fds := next_fd st :: open_fds st |}).
Proof.
  intros w ip port st msg Hsock Hconn.
  unfold _connect_to_host, try_except, connect_body, PySocket.bind, socket, settimeout, ret.
  rewrite Hsock. cbn. unfold connect_ex. rewrite Hconn. reflexivity.
Qed.

(** On the path where [connect_ex] returns, the descriptor is closed. *)
Lemma socket_closed_when_connect_returns :
  forall (w : World) (dest_ip : string) (dest_port : Z) (source_ip : option string)
         (st : os_state),
    sys_socket w = None ->
    (truthy source_ip = true -> sys_bind w (default "" source_ip) = None) ->
    0 <= dest_port <= 65535 ->
    (forall msg, sys_connect w dest_ip dest_port <> ResolveFailed msg) ->
    ~ In (next_fd st) (open_fds (snd (_connect_to_host w dest_ip dest_port source_ip st))).
Proof.
  intros w ip port src st Hsock Hbind Hport Hres.
  erewrite (connect_returns w ip port src st _ Hsock Hbind).
  2:{ apply connect_ex_code; assumption. }
  cbn [snd open_fds]. intros Hin.
  apply list_elem_of_In, list_elem_of_filter in Hin. destruct Hin as [Hneq _].
  rewrite Nat.eqb_refl in Hneq. exact Hneq.
Qed.

(** C10.  With [source_ip] the empty string the probe does what it does
    with [source_ip] absent, and it does not call [bind]: its result does
    not depend on what [bind] would answer. *)
Theorem empty_source_ip_is_absent :
  forall (w : World) (dest_ip : string) (dest_port : Z) (st : os_state),
    _connect_to_host w dest_ip dest_port (Some "") st
      = _connect_to_host w dest_ip dest_port None st
    /\ forall b : string -> option string,
         _connect_to_host (with_bind b w) dest_ip dest_port (Some "") st
           = _connect_to_host w dest_ip dest_port (Some "") st.
Proof.
  intros w ip port st. split.
  - reflexivity.
  - intros b. reflexivity.
Qed.

(** ** The registry *)

Section EngineFacts.

Variable read_csv : string -> fault + list csv_row.
Variable py_int : string -> option Z.

Lemma registered_Some (s : State) (k : key) (r : rid) (o : ConnectivityRun) :
  registered s k = Some (r, o) -> runs s !! k = Some r /\ heap s !! r = Some o.
Proof.
  unfold registered. destruct (runs s !! k) as [r'|] eqn:Hr; [|discriminate].
  destruct (heap s !! r') as [o'|] eqn:Ho; [|discriminate].
  intros [= <- <-]. split; [reflexivity | exact Ho].
Qed.

Lemma active_run_Some (s : State) (k : key) (r : rid) (o : ConnectivityRun) :
  active_run s k = Some (r, o) -> registered s k = Some (r, o) /\ stop_flag o = false.
Proof.
  unfold active_run. destruct (registered s k) as [[r' o']|]; [|discriminate].
  destruct (stop_flag o') eqn:E; [discriminate|]. intros [= <- <-]. split; [reflexivity | exact E].
Qed.

(** [start_connectivity_check] when the file loads and no run with a clear
    stop flag is registered. *)
Lemma start_creates (csv_path : string) (k : key) (src : option string) (delay_ms : Z)
    (ts : list Task) (s : State) :
  k ∉ closed s ->
  load_tasks read_csv py_int csv_path = inr ts ->
  active_run s k = None ->
  start_connectivity_check read_csv py_int csv_path k src delay_ms s
    = (run_task_async ts k 0 src delay_ms
         (set_trees (<[k := map placeholder ts]> (trees s))
            (set_runs (<[k := length (heap s)]> (runs s))
               (set_heap (heap s ++ [new_run k ts src]) s))), None).
Proof.
  intros Hk Hload Hact. unfold start_connectivity_check.
  rewrite Hact, Hload. rewrite bool_decide_eq_false_2 by exact Hk. reflexivity.
Qed.

(** The state [run_task_async] is called on by [start_connectivity_check]
    has the new object registered. *)
Lemma registered_new (k : key) (ts : list Task) (src : option string) (s : State)
    (tr : gmap key (list Row)) :
  registered (set_trees tr
                (set_runs (<[k := length (heap s)]> (runs s))
                   (set_heap (heap s ++ [new_run k ts src]) s))) k
    = Some (length (heap s), new_run k ts src).
Proof.
  unfold registered. cbn. rewrite lookup_insert_eq.
  rewrite lookup_app_r by lia. rewrite Nat.sub_diag. reflexivity.
Qed.

Lemma start_registers_fresh (csv_path : string) (k : key) (src : option string)
    (delay_ms : Z) (ts : list Task) (s : State) :
  k ∉ closed s ->
  load_tasks read_csv py_int csv_path = inr ts ->
  active_run s k = None ->
  let res := start_connectivity_check read_csv py_int csv_path k src delay_ms s in
  snd res = None
  /\ fresh_run_at (length (heap s)) k ts src (fst res)
  /\ timers (fst res) = timers s
  /\ (forall r, (r < length (heap s))%nat -> heap (fst res) !! r = heap s !! r).
Proof.
  intros Hk Hload Hact. cbv zeta.
  rewrite (start_creates csv_path k src delay_ms ts s Hk Hload Hact). cbn [fst snd].
  unfold run_task_async. rewrite registered_new. cbn [stop_flag new_run orb].
  destruct (length (tasks (new_run k ts src)) <=? 0)%nat eqn:E.
  - split; [reflexivity|]. split; [|split].
    + exists (new_run k ts src). rewrite registered_new. auto.
    + reflexivity.
    + intros r Hr. cbn. apply lookup_app_l. exact Hr.
  - split; [reflexivity|]. split; [|split].
    + eexists. unfold registered. cbn. rewrite lookup_insert_eq.
      rewrite list_lookup_insert_eq by (rewrite length_app; cbn; lia).
      split; [reflexivity|]. cbn. auto.
    + reflexivity.
    + intros r Hr. cbn. rewrite list_lookup_insert_ne by lia.
      apply lookup_app_l. exact Hr.
Qed.

(** C5 (amended).  A request for a key that has no registered run, or whose
    registered run has its stop flag set (whether or not a probe of it is
    still in flight), creates and registers the new run at once, with no
    timer.  A request for a key whose registered run has its stop flag clear
    stops that run, creates nothing, and schedules the same request again
    100 ms later; the run is then stopped, so the request that fires creates
    the replacement and replaces the map entry. *)
Theorem request_run_follows_stop_flag :
  forall (csv_path : string) (k : key) (src : option string) (delay_ms : Z)
         (ts : list Task) (s : State),
    k ∉ closed s ->
    load_tasks read_csv py_int csv_path = inr ts ->
    let res := start_connectivity_check read_csv py_int csv_path k src delay_ms s in
    (active_run s k = None ->
       snd res = None
       /\ fresh_run_at (length (heap s)) k ts src (fst res)
       /\ timers (fst res) = timers s)
    /\ (forall r o, active_run s k = Some (r, o) ->
          snd res = None
          /\ registered (fst res) k = Some (r, stop o)
          /\ length (heap (fst res)) = length (heap s)
          /\ log (fst res) = log s
          /\ timers (fst res)
               = enqueue {| due := now s + 100; cb := CbRestart csv_path k src delay_ms |}
                   (timers s)
          /\ fresh_run_at (length (heap s)) k ts src
               (run_callback read_csv py_int (CbRestart csv_path k src delay_ms)
                  (set_timers (timers s) (fst res)))).
Proof.
  intros csv_path k src delay_ms ts s Hk Hload. cbv zeta. split.
  - intros Hact.
    destruct (start_registers_fresh csv_path k src delay_ms ts s Hk Hload Hact)
      as (H1 & H2 & H3 & _). auto.
  - intros r o Hact.
    destruct (active_run_Some s k r o Hact) as [Hreg Hflag].
    destruct (registered_Some s k r o Hreg) as [Hruns Hheap].
    unfold start_connectivity_check at 1 2 3 4 5. rewrite Hact. cbn [fst snd].
    assert (registered (stop_run r o s) k = Some (r, stop o)) as Hreg'.
    { unfold registered. cbn. rewrite Hruns.
      rewrite list_lookup_insert_eq by (eapply lookup_lt_Some; eassumption).
      reflexivity. }
    split; [reflexivity|]. split; [exact Hreg'|].
    split; [cbn; apply length_insert|]. split; [reflexivity|]. split; [reflexivity|].
    set (s1 := set_timers (timers s) (fst _)).
    assert (active_run s1 k = None) as Hact1.
    { unfold active_run. subst s1. unfold start_connectivity_check. rewrite Hact.
      cbn [fst]. change (registered _ k) with (registered (stop_run r o s) k).
      rewrite Hreg'. reflexivity. }
    assert (k ∉ closed s1) as Hk1.
    { subst s1. unfold start_connectivity_check. rewrite Hact. exact Hk. }
    destruct (start_registers_fresh csv_path k src delay_ms ts s1 Hk1 Hload Hact1)
      as (_ & H2 & _).
    assert (length (heap s1) = length (heap s)) as Hlen.
    { subst s1. unfold start_connectivity_check. rewrite Hact. cbn. apply length_insert. }
    rewrite Hlen in H2. exact H2.
Qed.

(** ** A stopped run is frozen *)

Lemma dispatched_of_app (r : rid) (l1 l2 : list event) :
  dispatched_of r (l1 ++ l2) = (dispatched_of r l1 ++ dispatched_of r l2)%list.
Proof. unfold dispatched_of. apply flat_map_app. Qed.

Lemma dispatched_of_other (r r' : rid) (k : key) (i : nat) (l : list event) :
  r' <> r -> dispatched_of r (l ++ [Dispatched r' k i]) = dispatched_of r l.
Proof.
  intros Hne. rewrite dispatched_of_app. cbn.
  destruct (Nat.eqb_spec r' r); [contradiction|]. cbn. apply app_nil_r.
Qed.

Lemma dispatched_of_same (r : rid) (k : key) (i : nat) (l : list event) :
  dispatched_of r (l ++ [Dispatched r k i]) = (dispatched_of r l ++ [i])%list.
Proof. rewrite dispatched_of_app. cbn. rewrite Nat.eqb_refl. reflexivity. Qed.

Lemma keeps_stopped_refl (s : State) : keeps_stopped s s.
Proof. intros r o Ho Hf. split; [exists o; auto | reflexivity]. Qed.

Lemma keeps_stopped_trans (s1 s2 s3 : State) :
  keeps_stopped s1 s2 -> keeps_stopped s2 s3 -> keeps_stopped s1 s3.
Proof.
  intros H12 H23 r o Ho Hf.
  destruct (H12 r o Ho Hf) as [(o2 & Ho2 & Hf2 & Hi2) Hd2].
  destruct (H23 r o2 Ho2 Hf2) as [(o3 & Ho3 & Hf3 & Hi3) Hd3].
  split; [exists o3; repeat split; congruence | congruence].
Qed.

Lemma keeps_stopped_same (s s' : State) :
  heap s' = heap s -> (forall r, dispatched_of r (log s') = dispatched_of r (log s)) ->
  keeps_stopped s s'.
Proof.
  intros Hh Hl r o Ho Hf. split; [|apply Hl].
  exists o. rewrite Hh. auto.
Qed.

Lemma run_task_async_keeps (ts : list Task) (k : key) (i : nat) (src : option string)
    (delay_ms : Z) (s : State) :
  keeps_stopped s (run_task_async ts k i src delay_ms s).
Proof.
  unfold run_task_async.
  destruct (registered s k) as [[r' o']|] eqn:Hreg; [|apply keeps_stopped_refl].
  destruct (registered_Some s k r' o' Hreg) as [_ Ho'].
  destruct (stop_flag o') eqn:Hf'; cbn [orb]; [apply keeps_stopped_refl|].
  destruct (length (tasks o') <=? i)%nat; [apply keeps_stopped_refl|].
  intros r o Ho Hf.
  assert (r' <> r) as Hne by (intros ->; congruence).
  unfold emit. cbn [heap log set_log set_threads set_heap]. split.
  - exists o. rewrite list_lookup_insert_ne by exact Hne. auto.
  - apply dispatched_of_other. exact Hne.
Qed.

Lemma stop_run_keeps (r' : rid) (o' : ConnectivityRun) (s : State) :
  heap s !! r' = Some o' -> keeps_stopped s (stop_run r' o' s).
Proof.
  intros Ho' r o Ho Hf. cbn. split; [|reflexivity].
  destruct (Nat.eq_dec r' r) as [Heq | Hne]; [subst r' |].
  - exists (stop o'). rewrite list_lookup_insert_eq by (eapply lookup_lt_Some; eassumption).
    split; [reflexivity|]. split; [reflexivity|]. cbn. congruence.
  - exists o. rewrite list_lookup_insert_ne by exact Hne. auto.
Qed.

Lemma stop_running_tests_keeps (k : key) (s : State) :
  keeps_stopped s (stop_running_tests k s).
Proof.
  unfold stop_running_tests.
  destruct (registered s k) as [[r' o']|] eqn:Hreg; [|apply keeps_stopped_refl].
  destruct (registered_Some s k r' o' Hreg) as [_ Ho'].
  eapply keeps_stopped_trans; [|apply stop_run_keeps; exact Ho'].
  apply keeps_stopped_same; [reflexivity | intros; reflexivity].
Qed.

Lemma close_keeps (k : key) (s : State) :
  keeps_stopped s (_on_result_window_close k s).
Proof.
  unfold _on_result_window_close.
  eapply keeps_stopped_trans; [apply stop_running_tests_keeps|].
  apply keeps_stopped_same; [reflexivity | intros; reflexivity].
Qed.

Lemma set_testing_keeps (r : rid) (k : key) (i : nat) (s : State) :
  keeps_stopped s (set_testing r k i s).
Proof.
  unfold set_testing.
  destruct (heap s !! r) as [o|]; [|apply keeps_stopped_refl].
  destruct (stop_flag o); [apply keeps_stopped_refl|].
  destruct (bool_decide (k ∈ closed s)); [apply keeps_stopped_refl|].
  destruct (rows_of s k !! i); [|apply keeps_stopped_refl].
  apply keeps_stopped_same; [reflexivity|].
  intros r'. unfold emit. cbn [log set_log set_trees]. rewrite dispatched_of_app.
  apply app_nil_r.
Qed.

Lemma update_ui_keeps (k : key) (i : nat) (status_text tag : string) (s : State) :
  keeps_stopped s (update_ui k i status_text tag s).
Proof.
  unfold update_ui.
  destruct (bool_decide (k ∈ closed s)); [apply keeps_stopped_refl|].
  destruct (rows_of s k !! i); [|apply keeps_stopped_refl].
  apply keeps_stopped_same; [reflexivity|].
  intros r'. unfold emit. cbn [log set_log set_trees]. rewrite dispatched_of_app.
  apply app_nil_r.
Qed.

Lemma start_keeps (csv_path : string) (k : key) (src : option string) (delay_ms : Z)
    (s : State) :
  keeps_stopped s (fst (start_connectivity_check read_csv py_int csv_path k src delay_ms s)).
Proof.
  unfold start_connectivity_check.
  destruct (active_run s k) as [[r' o']|] eqn:Hact.
  - destruct (active_run_Some s k r' o' Hact) as [Hreg _].
    destruct (registered_Some s k r' o' Hreg) as [_ Ho'].
    cbn [fst]. eapply keeps_stopped_trans; [apply stop_run_keeps; exact Ho'|].
    apply keeps_stopped_same; [reflexivity | intros; reflexivity].
  - destruct (load_tasks read_csv py_int csv_path) as [f|ts]; [apply keeps_stopped_refl|].
    assert (keeps_stopped s (set_runs (<[k := length (heap s)]> (runs s))
                               (set_heap (heap s ++ [new_run k ts src]) s))) as Hnew.
    { intros r o Ho Hf. cbn. split; [|reflexivity].
      exists o. rewrite lookup_app_l by (eapply lookup_lt_Some; eassumption). auto. }
    destruct (bool_decide (k ∈ closed s)); cbn [fst]; [exact Hnew|].
    eapply keeps_stopped_trans; [|apply run_task_async_keeps].
    eapply keeps_stopped_trans; [exact Hnew|].
    apply keeps_stopped_same; [reflexivity | intros; reflexivity].
Qed.

Lemma run_callback_keeps (c : callback) (s : State) :
  keeps_stopped s (run_callback read_csv py_int c s).
Proof.
  destruct c; cbn [run_callback].
  - apply set_testing_keeps.
  - apply update_ui_keeps.
  - apply run_task_async_keeps.
  - apply start_keeps.
Qed.

(** A worker thread writes neither the heap nor the log. *)
Lemma work_heap_log (t : nat) (w : World) (s s' : State) :
  scan_worker t w s = Some s' -> heap s' = heap s /\ log s' = log s.
Proof.
  unfold scan_worker. destruct (threads s !! t) as [wk|]; [|discriminate].
  destruct (w_pc wk).
  - intros [= <-]. split; reflexivity.
  - destruct (w_tasks wk !! w_index wk) as [[[d ip] port]|].
    + destruct (_connect_to_host w ip port (w_source wk) (os s)) as [res os'].
      destruct (status_of res) as [st tg]. intros [= <-]. split; reflexivity.
    + intros [= <-]. split; reflexivity.
  - intros [= <-]. split; reflexivity.
  - destruct (heap s !! w_run wk) as [o|]; [|discriminate].
    destruct (stop_flag o); intros [= <-]; split; reflexivity.
  - discriminate.
Qed.

Lemma step_keeps (l : label) (s s' : State) :
  step read_csv py_int s l = Some s' -> keeps_stopped s s'.
Proof.
  destruct l as [ms| |t w|k csv_path src delay_ms|k|k]; cbn [step].
  - intros [= <-]. apply keeps_stopped_same; [reflexivity | intros; reflexivity].
  - destruct (timers s) as [|tm q]; [discriminate|].
    destruct (due tm <=? now s); [|discriminate]. intros [= <-].
    eapply keeps_stopped_trans; [|apply run_callback_keeps].
    apply keeps_stopped_same; [reflexivity | intros; reflexivity].
  - intros Hw. destruct (work_heap_log t w s s' Hw) as [Hh Hl].
    apply keeps_stopped_same; [exact Hh | intros; rewrite Hl; reflexivity].
  - destruct (bool_decide (k ∈ closed s)); [discriminate|]. intros [= <-].
    apply start_keeps.
  - destruct (bool_decide (k ∈ closed s)); [discriminate|]. intros [= <-].
    apply stop_running_tests_keeps.
  - destruct (bool_decide (k ∈ closed s)); [discriminate|]. intros [= <-].
    apply close_keeps.
Qed.

Lemma exec_keeps (ls : list label) (s s' : State) :
  exec read_csv py_int s ls = Some s' -> keeps_stopped s s'.
Proof.
  revert s. induction ls as [|l ls IH]; intros s; cbn [exec].
  - intros [= <-]. apply keeps_stopped_refl.
  - destruct (step read_csv py_int s l) as [s1|] eqn:Hstep; [|discriminate].
    intros Hex. eapply keeps_stopped_trans; [eapply step_keeps; eassumption|].
    apply IH. exact Hex.
Qed.

(** ** The index of a run is the last index dispatched for it *)

Lemma index_tracks_init : index_tracks init.
Proof. intros r. reflexivity. Qed.

Lemma index_tracks_same (s s' : State) :
  heap s' = heap s -> (forall r, dispatched_of r (log s') = dispatched_of r (log s)) ->
  index_tracks s -> index_tracks s'.
Proof. intros Hh Hl H r. rewrite Hh, Hl. apply H. Qed.

Lemma index_tracks_stop_run (r' : rid) (o' : ConnectivityRun) (s : State) :
  heap s !! r' = Some o' -> index_tracks s -> index_tracks (stop_run r' o' s).
Proof.
  intros Ho' H r. cbn [stop_run heap log set_heap].
  destruct (Nat.eq_dec r' r) as [Heq | Hne]; [subst r' |].
  - rewrite list_lookup_insert_eq by (eapply lookup_lt_Some; eassumption).
    specialize (H r). rewrite Ho' in H. exact H.
  - rewrite list_lookup_insert_ne by exact Hne. apply H.
Qed.

Lemma index_tracks_run_task_async (ts : list Task) (k : key) (i : nat)
    (src : option string) (delay_ms : Z) (s : State) :
  index_tracks s -> index_tracks (run_task_async ts k i src delay_ms s).
Proof.
  intros H. unfold run_task_async.
  destruct (registered s k) as [[r' o']|] eqn:Hreg; [|exact H].
  destruct (registered_Some s k r' o' Hreg) as [_ Ho'].
  destruct (stop_flag o' || (length (tasks o') <=? i)%nat); [exact H|].
  intros r. unfold emit. cbn [heap log set_log set_threads set_heap].
  destruct (Nat.eq_dec r' r) as [Heq | Hne]; [subst r' |].
  - rewrite list_lookup_insert_eq by (eapply lookup_lt_Some; eassumption).
    rewrite dispatched_of_same, last_snoc. reflexivity.
  - rewrite list_lookup_insert_ne by exact Hne.
    rewrite dispatched_of_other by exact Hne. apply H.
Qed.

Lemma index_tracks_new (k : key) (ts : list Task) (src : option string) (s : State) :
  index_tracks s ->
  index_tracks (set_runs (<[k := length (heap s)]> (runs s))
                  (set_heap (heap s ++ [new_run k ts src]) s)).
Proof.
  intros H r. cbn [heap log set_runs set_heap].
  destruct (lt_eq_lt_dec r (length (heap s))) as [[Hlt | Heq] | Hgt]; [| subst r |].
  - rewrite lookup_app_l by exact Hlt. apply H.
  - rewrite lookup_app_r by lia. rewrite Nat.sub_diag. cbn.
    specialize (H (length (heap s))).
    rewrite (lookup_ge_None_2 (heap s) (length (heap s))) in H by lia.
    rewrite H. reflexivity.
  - rewrite lookup_ge_None_2 by (rewrite length_app; cbn; lia).
    specialize (H r). rewrite lookup_ge_None_2 in H by lia. exact H.
Qed.

Lemma index_tracks_emit_other (e : event) (s : State) :
  (forall r, dispatch_index r e = []) ->
  index_tracks s -> index_tracks (emit e s).
Proof.
  intros He. apply index_tracks_same; [reflexivity|].
  intros r. unfold emit. cbn [log set_log]. rewrite dispatched_of_app.
  cbn. rewrite He. rewrite !app_nil_r. reflexivity.
Qed.

Lemma index_tracks_stop_running_tests (k : key) (s : State) :
  index_tracks s -> index_tracks (stop_running_tests k s).
Proof.
  intros H. unfold stop_running_tests.
  destruct (registered s k) as [[r' o']|] eqn:Hreg; [|exact H].
  destruct (registered_Some s k r' o' Hreg) as [_ Ho'].
  apply index_tracks_stop_run; [exact Ho'|].
  revert H. apply index_tracks_same; [reflexivity | intros; reflexivity].
Qed.

Lemma index_tracks_start (csv_path : string) (k : key) (src : option string)
    (delay_ms : Z) (s : State) :
  index_tracks s ->
  index_tracks (fst (start_connectivity_check read_csv py_int csv_path k src delay_ms s)).
Proof.
  intros H. unfold start_connectivity_check.
  destruct (active_run s k) as [[r' o']|] eqn:Hact.
  - destruct (active_run_Some s k r' o' Hact) as [Hreg _].
    destruct (registered_Some s k r' o' Hreg) as [_ Ho'].
    cbn [fst]. generalize (index_tracks_stop_run r' o' s Ho' H).
    apply index_tracks_same; [reflexivity | intros; reflexivity].
  - destruct (load_tasks read_csv py_int csv_path) as [f|ts]; [exact H|].
    pose proof (index_tracks_new k ts src s H) as Hnew.
    destruct (bool_decide (k ∈ closed s)); cbn [fst]; [exact Hnew|].
    apply index_tracks_run_task_async.
    revert Hnew. apply index_tracks_same; [reflexivity | intros; reflexivity].
Qed.

Lemma index_tracks_run_callback (c : callback) (s : State) :
  index_tracks s -> index_tracks (run_callback read_csv py_int c s).
Proof.
  intros H. destruct c; cbn [run_callback].
  - unfold set_testing.
    destruct (heap s !! r) as [o|]; [|exact H].
    destruct (stop_flag o); [exact H|].
    destruct (bool_decide (k ∈ closed s)); [exact H|].
    destruct (rows_of s k !! i); [|exact H].
    apply index_tracks_emit_other; [intros; reflexivity|].
    revert H. apply index_tracks_same; [reflexivity | intros; reflexivity].
  - unfold update_ui.
    destruct (bool_decide (k ∈ closed s)); [exact H|].
    destruct (rows_of s k !! i); [|exact H].
    apply index_tracks_emit_other; [intros; reflexivity|].
    revert H. apply index_tracks_same; [reflexivity | intros; reflexivity].
  - apply index_tracks_run_task_async. exact H.
  - apply index_tracks_start. exact H.
Qed.

Lemma index_tracks_step (l : label) (s s' : State) :
  step read_csv py_int s l = Some s' -> index_tracks s -> index_tracks s'.
Proof.
  destruct l as [ms| |t w|k csv_path src delay_ms|k|k]; cbn [step].
  - intros [= <-]. apply index_tracks_same; [reflexivity | intros; reflexivity].
  - destruct (timers s) as [|tm q]; [discriminate|].
    destruct (due tm <=? now s); [|discriminate]. intros [= <-] H.
    apply index_tracks_run_callback.
    revert H. apply index_tracks_same; [reflexivity | intros; reflexivity].
  - intros Hw. destruct (work_heap_log t w s s' Hw) as [Hh Hl].
    apply index_tracks_same; [exact Hh | intros; rewrite Hl; reflexivity].
  - destruct (bool_decide (k ∈ closed s)); [discriminate|]. intros [= <-].
    apply index_tracks_start.
  - destruct (bool_decide (k ∈ closed s)); [discriminate|]. intros [= <-].
    apply index_tracks_stop_running_tests.
  - destruct (bool_decide (k ∈ closed s)); [discriminate|]. intros [= <-] H.
    unfold _on_result_window_close.
    generalize (index_tracks_stop_running_tests k s H).
    apply index_tracks_same; [reflexivity | intros; reflexivity].
Qed.

Lemma index_tracks_exec (ls : list label) (s s' : State) :
  exec read_csv py_int s ls = Some s' -> index_tracks s -> index_tracks s'.
Proof.
  revert s. induction ls as [|l ls IH]; intros s; cbn [exec].
  - intros [= <-]. auto.
  - destruct (step read_csv py_int s l) as [s1|] eqn:Hstep; [|discriminate].
    intros Hex H. eapply IH; [exact Hex|]. eapply index_tracks_step; eassumption.
Qed.


(** ** A stop while the probe is in flight *)

Lemma set_worker_lookup (t : nat) (wk wk' : Worker) (s : State) :
  threads s !! t = Some wk -> threads (set_worker t wk' s) !! t = Some wk'.
Proof.
  intros H. cbn. apply list_lookup_insert_eq. eapply lookup_lt_Some. exact H.
Qed.

(** [update_ui] on a tree that exists and has the row. *)
Lemma update_ui_reports (k : key) (i : nat) (status_text tag : string) (row : Row)
    (s : State) :
  k ∉ closed s ->
  rows_of s k !! i = Some row ->
  update_ui k i status_text tag s
    = emit (TaskResult k i status_text)
        (set_trees (<[k := <[i := with_status status_text tag row]> (rows_of s k)]>
                      (trees s)) s).
Proof.
  intros Hk Hrow. unfold update_ui.
  rewrite bool_decide_eq_false_2 by exact Hk. rewrite Hrow. reflexivity.
Qed.

Lemma rows_of_set_trees (k : key) (rs : list Row) (s : State) :
  rows_of (set_trees (<[k := rs]> (trees s)) s) k = rs.
Proof. unfold rows_of. cbn. rewrite lookup_insert_eq. reflexivity. Qed.

(** C3 (amended).  When the stop flag of a run is set while a probe of it
    is in flight, the result is not discarded: [scan_worker] computes the
    status, schedules [update_ui] with it and only then looks at the flag,
    which keeps it from scheduling the next task.  [update_ui] does not look
    at the flag either: run on a tree that still exists, it writes the row
    and the result surface is notified. *)
Theorem stop_in_flight_still_reports :
  forall (t : nat) (wk : Worker) (o : ConnectivityRun) (desc ip : string) (port : Z)
         (w : World) (s : State),
    threads s !! t = Some wk ->
    w_pc wk = AtProbe ->
    w_tasks wk !! w_index wk = Some (desc, ip, port) ->
    heap s !! w_run wk = Some o ->
    stop_flag o = true ->
    exists (status_text tag : string) (s1 s2 s3 : State),
      status_of (fst (_connect_to_host w ip port (w_source wk) (os s))) = (status_text, tag)
      /\ scan_worker t w s = Some s1
      /\ scan_worker t w s1 = Some s2
      /\ scan_worker t w s2 = Some s3
      /\ timers s2
           = enqueue {| due := now s + 0;
                        cb := CbUpdateUi (w_tree wk) (w_index wk) status_text tag |}
               (timers s)
      /\ timers s3 = timers s2
      /\ threads s3 !! t = Some (at_pc Finished wk)
      /\ forall (s' : State) (row : Row),
           w_tree wk ∉ closed s' ->
           rows_of s' (w_tree wk) !! w_index wk = Some row ->
           log (update_ui (w_tree wk) (w_index wk) status_text tag s')
             = (log s' ++ [TaskResult (w_tree wk) (w_index wk) status_text])%list
           /\ rows_of (update_ui (w_tree wk) (w_index wk) status_text tag s') (w_tree wk)
                !! w_index wk
              = Some (with_status status_text tag row).
Proof.
  intros t wk o desc ip port w s Ht Hpc Htask Ho Hf.
  destruct (_connect_to_host w ip port (w_source wk) (os s)) as [res os'] eqn:Hprobe.
  destruct (status_of res) as [status_text tag] eqn:Hst.
  set (wk1 := at_pc (AtUpdate status_text tag) wk).
  set (s1 := set_worker t wk1 (set_os os' s)).
  set (s2 := set_worker t (at_pc AtNext wk1)
               (after 0 (CbUpdateUi (w_tree wk1) (w_index wk1) status_text tag) s1)).
  set (s3 := set_worker t (at_pc Finished (at_pc AtNext wk1)) s2).
  assert (threads s1 !! t = Some wk1) as Ht1.
  { subst s1. apply (set_worker_lookup t wk). exact Ht. }
  assert (threads s2 !! t = Some (at_pc AtNext wk1)) as Ht2.
  { subst s2. apply (set_worker_lookup t wk1). exact Ht1. }
  exists status_text, tag, s1, s2, s3.
  split; [cbn [fst]; exact Hst|].
  split. { unfold scan_worker. rewrite Ht, Hpc, Htask, Hprobe, Hst. reflexivity. }
  split. { unfold scan_worker. rewrite Ht1. reflexivity. }
  split. { unfold scan_worker. rewrite Ht2. cbn [w_pc at_pc w_run].
           change (heap s2) with (heap s). subst wk1. cbn [w_run at_pc].
           rewrite Ho, Hf. reflexivity. }
  split; [reflexivity|]. split; [reflexivity|].
  split. { subst s3. apply (set_worker_lookup t (at_pc AtNext wk1)). exact Ht2. }
  intros s' row Hk Hrow.
  rewrite (update_ui_reports _ _ status_text tag row s' Hk Hrow).
  split; [reflexivity|].
  unfold emit. change (rows_of (set_log ?l ?x) ?k) with (rows_of x k).
  rewrite rows_of_set_trees. apply list_lookup_insert_eq.
  eapply lookup_lt_Some. exact Hrow.
Qed.

End EngineFacts.

(** ** A run on its own *)

Lemma enqueue_last (t : timer) (q : list timer) :
  Forall (fun u => due u <= due t) q -> enqueue t q = (q ++ [t])%list.
Proof.
  induction q as [|u q IH]; intros H; [reflexivity|].
  inversion H as [|? ? Hu Hq]; subst. cbn [enqueue].
  destruct (Z.ltb_spec (due t) (due u)); [lia|].
  rewrite IH by exact Hq. reflexivity.
Qed.

Lemma schedule_S (k : key) (n : nat) :
  schedule k (S n) = (schedule k n ++ events_of_task k n)%list.
Proof.
  unfold schedule. rewrite seq_S, flat_map_app. cbn [flat_map Nat.add].
  rewrite app_nil_r. reflexivity.
Qed.

Lemma schedule_prefix (k : key) (i n : nat) :
  (i <= n)%nat -> exists rest, schedule k n = (schedule k i ++ rest)%list.
Proof.
  intros Hle. induction Hle as [|n Hle [rest IH]].
  - exists []. rewrite app_nil_r. reflexivity.
  - exists (rest ++ events_of_task k n)%list. rewrite schedule_S, IH, app_assoc.
    reflexivity.
Qed.

Lemma erase_app (l : list event) (e : event) :
  map erase (l ++ [e]) = (map erase l ++ [erase e])%list.
Proof. apply map_app. Qed.

Section Solo.

Variable read_csv : string -> fault + list csv_row.
Variable py_int : string -> option Z.
Variables (k : key) (ts : list Task) (src : option string) (delay_ms : Z).

Local Abbreviation busy := (busy_inv k ts src delay_ms).

(** Time passing changes nothing else. *)
Lemma busy_tick (i : nat) (p : pc) (f : nat) (ms : nat) (s : State) :
  busy i p f s -> busy i p f (set_now (now s + Z.of_nat ms) s).
Proof.
  intros [Hb Hf Hh Hr Ho Hrows Hth Htm Hdue Hlog].
  constructor; try assumption.
  intros Hlt. specialize (Hdue Hlt). cbn [timers now set_now].
  eapply Forall_impl; [exact Hdue|]. cbn beta. intros t Ht. lia.
Qed.

(** Only the thread of the task under way can run. *)
Lemma busy_thread (i : nat) (p : pc) (f : nat) (t : nat) (s : State) (wk : Worker) :
  busy i p f s -> threads s !! t = Some wk -> w_pc wk <> Finished ->
  t = i /\ exists dl, wk = the_worker k ts src i dl p /\ Z.max 0 dl = Z.max 0 delay_ms.
Proof.
  intros H Ht Hpc. destruct (bi_threads _ _ _ _ _ _ _ _ H) as (olds & dl & Hth & Hlen & Hfin & Hdl).
  rewrite Hth in Ht. apply lookup_app_Some in Ht. destruct Ht as [Ht | [Hge Ht]].
  - exfalso. apply Hpc. eapply Forall_lookup_1 in Hfin; [exact Hfin | exact Ht].
  - destruct (t - length olds)%nat as [|n] eqn:E; [|discriminate].
    cbn in Ht. injection Ht as <-. split; [lia|]. exists dl. auto.
Qed.

Lemma busy_set_worker (i : nat) (p p' : pc) (f : nat) (s : State) (olds : list Worker)
    (dl : Z) :
  threads s = (olds ++ [the_worker k ts src i dl p])%list -> length olds = i ->
  threads (set_worker i (at_pc p' (the_worker k ts src i dl p)) s)
    = (olds ++ [the_worker k ts src i dl p'])%list.
Proof.
  intros Hth Hlen. cbn [threads set_worker set_threads]. rewrite Hth.
  rewrite <- Hlen at 1. replace (length olds) with (length olds + 0)%nat by lia.
  rewrite insert_app_r. reflexivity.
Qed.


Lemma work_solo (t : nat) (w : World) (s s' : State) (olds : list Worker) (cur : Worker) :
  threads s = (olds ++ [cur])%list ->
  Forall (fun w => w_pc w = Finished) olds ->
  scan_worker t w s = Some s' ->
  t = length olds /\ threads s !! t = Some cur.
Proof.
  intros Hth Hfin Hw. unfold scan_worker in Hw.
  destruct (threads s !! t) as [wk|] eqn:Ht; [|discriminate].
  pose proof Ht as Ht'. rewrite Hth in Ht'. apply lookup_app_Some in Ht'.
  destruct Ht' as [Hold | [Hge Hcur]].
  - eapply Forall_lookup_1 in Hfin; [|exact Hold]. cbn beta in Hfin.
    rewrite Hfin in Hw. discriminate.
  - destruct (t - length olds)%nat as [|n] eqn:E; [|discriminate].
    cbn in Hcur. injection Hcur as <-. split; [lia | reflexivity].
Qed.

Lemma busy_work (i : nat) (p : pc) (f : nat) (t : nat) (w : World) (s s' : State) :
  busy i p f s -> scan_worker t w s = Some s' ->
  exists p', busy i p' f s' /\ (pc_rank p' < pc_rank p)%nat.
Proof.
  intros [Hb [Hf Hf2] Hh Hr Ho Hrows (olds & dl & Hth & Hlen & Hfin & Hdl)
          (d1 & d2 & d3 & st & tg & Htm) Hdue Hlog] Hw.
  destruct (work_solo t w s s' olds _ Hth Hfin Hw) as [-> Ht].
  rewrite Hlen in Ht.
  unfold scan_worker in Hw. rewrite Hlen, Ht in Hw. cbn [w_pc the_worker] in Hw.
  pose proof (fun p' => busy_set_worker i p p' f s olds dl Hth Hlen) as Hset.
  destruct p as [| |st0 tg0| |]; cbn [enqueued] in *.
  - (* [tree.after(0, set_testing)] *)
    injection Hw as <-. exists AtProbe. split; [|cbn; lia].
    assert (f = 0%nat) as -> by lia.
    constructor; try assumption; cbn [enqueued].
    + lia.
    + exists olds, dl. rewrite <- (Hset AtProbe). auto.
    + exists (now s + 0), d2, d3, st, tg. cbn [timers set_worker set_threads after set_timers].
      rewrite Htm. reflexivity.
    + intros _. cbn [timers set_worker set_threads after set_timers now].
      rewrite Htm. cbn. repeat constructor. cbn. lia.
  - (* the probe *)
    destruct (w_tasks (the_worker k ts src i dl AtProbe) !! w_index (the_worker k ts src i dl AtProbe))
      as [[[desc ip] port]|] eqn:Htask.
    2:{ cbn [w_tasks w_index the_worker] in Htask. apply lookup_ge_None_1 in Htask.
        unfold Task in *. lia. }
    destruct (_connect_to_host w ip port _ (os s)) as [res os'].
    destruct (status_of res) as [st1 tg1]. injection Hw as <-.
    exists (AtUpdate st1 tg1). split; [|cbn; lia].
    constructor; try assumption; cbn [enqueued].
    + auto.
    + exists olds, dl. split; [|auto].
      apply (busy_set_worker i AtProbe (AtUpdate st1 tg1) f (set_os os' s) olds dl Hth Hlen).
    + exists d1, d2, d3, st, tg. exact Htm.
  - (* [tree.after(0, update_ui)] *)
    injection Hw as <-. exists AtNext. split; [|cbn; lia].
    constructor; try assumption; cbn [enqueued].
    + lia.
    + exists olds, dl. rewrite <- (Hset AtNext). auto.
    + exists d1, (now s + 0), d3, st0, tg0.
      cbn [timers set_worker set_threads after set_timers w_tree w_index the_worker].
      rewrite enqueue_last.
      2:{ eapply Forall_impl; [apply Hdue; lia|]. cbn. intros; lia. }
      rewrite Htm. destruct f as [|[|f]]; [reflexivity | reflexivity | lia].
    + intros _. cbn [timers set_worker set_threads after set_timers now].
      rewrite enqueue_last.
      2:{ eapply Forall_impl; [apply Hdue; lia|]. cbn. intros; lia. }
      apply Forall_app. split; [apply Hdue; lia|]. repeat constructor. cbn. lia.
  - (* [if not run.stop_flag: tree.after(next_delay, ...)] *)
    cbn [w_run the_worker] in Hw. rewrite Hh in Hw. cbn in Hw.
    injection Hw as <-. exists Finished. split; [|cbn; lia].
    constructor; try assumption; cbn [enqueued].
    + lia.
    + exists olds, dl. rewrite <- (Hset Finished). auto.
    + exists d1, d2, (now s + Z.max 0 dl), st, tg.
      cbn [timers set_worker set_threads after set_timers].
      rewrite enqueue_last.
      2:{ eapply Forall_impl; [apply Hdue; lia|]. cbn. intros; lia. }
      rewrite Htm, Hdl.
      destruct f as [|[|[|f]]]; [reflexivity | reflexivity | reflexivity | lia].
    + intros Hlt. lia.
  - discriminate.
Qed.


(** The timer the event loop runs next is the first callback of the task
    that has not run yet. *)
Lemma next_timer {A} (f m : nat) (cbs q : list A) (t : A) :
  drop f (take m cbs) = t :: q ->
  cbs !! f = Some t /\ q = drop (S f) (take m cbs) /\ (f < m)%nat.
Proof.
  intros H.
  assert (drop f (take m cbs) !! 0%nat = Some t) as H0 by (rewrite H; reflexivity).
  rewrite lookup_drop, Nat.add_0_r in H0.
  apply lookup_take_Some in H0. destruct H0 as [H0 Hlt].
  split; [exact H0|]. split; [|exact Hlt].
  replace (S f) with (f + 1)%nat by lia. rewrite <- drop_drop, H. reflexivity.
Qed.

Lemma busy_fire (i : nat) (p : pc) (f : nat) (s s' : State) :
  busy i p f s -> step read_csv py_int s Fire = Some s' ->
  exists ph', solo_inv k ts src delay_ms ph' s'
              /\ (work_left (length ts) ph' < work_left (length ts) (Busy i p f))%nat.
Proof.
  intros [Hb [Hf Hf2] Hh Hr Ho Hrows (olds & dl & Hth & Hlen & Hfin & Hdl)
          (d1 & d2 & d3 & st & tg & Htm) Hdue Hlog] Hstep.
  cbn [step] in Hstep.
  destruct (timers s) as [|t q] eqn:Hq; [discriminate|].
  destruct (due t <=? now s); [|discriminate]. injection Hstep as <-.
  symmetry in Htm. destruct (next_timer _ _ _ _ _ Htm) as (Ht & Hq' & Hlt).
  assert ((enqueued p < 3)%nat -> Forall (fun u => due u <= now s) q) as Hdue'.
  { intros H3. specialize (Hdue H3). inversion Hdue; assumption. }
  destruct f as [|[|[|f]]]; [| | |lia]; cbn in Ht; injection Ht as <-; cbn [cb run_callback].
  - (* [set_testing] *)
    unfold set_testing. cbn [heap set_timers]. rewrite Hh. cbn [lookup list_lookup the_run stop_flag].
    rewrite bool_decide_eq_false_2 by exact Ho.
    change (rows_of (set_timers q s) k) with (rows_of s k).
    destruct (rows_of s k !! i) as [row|] eqn:Hrow.
    2:{ apply lookup_ge_None_1 in Hrow. lia. }
    exists (Busy i p 1). split; [|cbn; lia]. cbn [solo_inv].
    constructor; try assumption.
    + lia.
    + unfold emit. change (rows_of (set_log ?l ?x) k) with (rows_of x k).
      rewrite rows_of_set_trees, length_insert. exact Hrows.
    + exists olds, dl. auto.
    + exists d1, d2, d3, st, tg. exact Hq'.
    + unfold emit. cbn [log set_log set_trees set_timers].
      rewrite erase_app, Hlog. cbn. rewrite <- app_assoc. reflexivity.
  - (* [update_ui] *)
    unfold update_ui. cbn [closed set_timers].
    rewrite bool_decide_eq_false_2 by exact Ho.
    change (rows_of (set_timers q s) k) with (rows_of s k).
    destruct (rows_of s k !! i) as [row|] eqn:Hrow.
    2:{ apply lookup_ge_None_1 in Hrow. lia. }
    exists (Busy i p 2). split; [|cbn; lia]. cbn [solo_inv].
    constructor; try assumption.
    + lia.
    + unfold emit. change (rows_of (set_log ?l ?x) k) with (rows_of x k).
      rewrite rows_of_set_trees, length_insert. exact Hrows.
    + exists olds, dl. auto.
    + exists d1, d2, d3, st, tg. exact Hq'.
    + unfold emit. cbn [log set_log set_trees set_timers].
      rewrite erase_app, Hlog. cbn. rewrite <- app_assoc. reflexivity.
  - (* [run_task_async] for the next task *)
    assert (p = Finished) as -> by (destruct p; cbn in Hlt; first [reflexivity | lia]).
    cbn in Hq'. subst q.
    unfold run_task_async, registered. cbn [runs heap set_timers].
    rewrite Hr, Hh. cbn [lookup list_lookup the_run stop_flag tasks orb].
    destruct (Nat.leb_spec (length ts) (S i)) as [Hlast | Hmore].
    + exists Idle. split; [|cbn; lia]. cbn [solo_inv].
      constructor; try assumption.
      * exists (the_run k ts src i). cbn. repeat split; [exact Hh | lia].
      * cbn [threads set_timers]. rewrite Hth. apply Forall_app. split; [exact Hfin|].
        repeat constructor.
      * reflexivity.
      * cbn [log set_timers]. rewrite Hlog. cbn [take].
        replace (length ts) with (S i) by lia. rewrite schedule_S. reflexivity.
    + exists (Busy (S i) AtMark 0). split; [|cbn; lia]. cbn [solo_inv].
      constructor; try assumption.
      * cbn [enqueued]. lia.
      * unfold emit. cbn [heap set_log set_threads set_heap threads set_timers].
        rewrite Hth, length_app, Hlen. cbn. replace (i + 1)%nat with (S i) by lia.
        reflexivity.
      * exists (olds ++ [the_worker k ts src i dl Finished])%list, (Z.max 0 delay_ms).
        unfold emit. cbn [threads set_log set_threads set_heap set_timers]. rewrite Hth.
        split; [reflexivity|]. split; [rewrite length_app; cbn; lia|].
        split; [|lia]. apply Forall_app. split; [exact Hfin|]. repeat constructor.
      * exists 0, 0, 0, "", "". reflexivity.
      * intros _. constructor.
      * unfold emit. cbn [log set_log set_threads set_heap set_timers].
        rewrite erase_app, Hlog. cbn [take erase]. rewrite schedule_S. reflexivity.
Qed.


Local Abbreviation solo := (solo_inv k ts src delay_ms).

Lemma idle_step (l : label) (s s' : State) :
  idle_inv k ts s -> quiet l -> step read_csv py_int s l = Some s' -> idle_inv k ts s'.
Proof.
  intros [Hh Hr Hth Htm Hlog] Hq Hstep.
  destruct l as [ms| |t w|? ? ? ?|?|?]; try contradiction; cbn [step] in Hstep.
  - injection Hstep as <-. constructor; assumption.
  - rewrite Htm in Hstep. discriminate.
  - unfold scan_worker in Hstep. destruct (threads s !! t) as [wk|] eqn:Ht; [|discriminate].
    eapply Forall_lookup_1 in Hth; [|exact Ht]. cbn beta in Hth.
    rewrite Hth in Hstep. discriminate.
Qed.

(** One step of a run on its own keeps it on its course. *)
Lemma solo_step (ph : phase) (l : label) (s s' : State) :
  solo ph s -> quiet l -> step read_csv py_int s l = Some s' ->
  exists ph', solo ph' s' /\ (work_left (length ts) ph' <= work_left (length ts) ph)%nat.
Proof.
  intros H Hq Hstep. destruct ph as [i p f|].
  - destruct l as [ms| |t w|? ? ? ?|?|?]; try contradiction.
    + cbn [step] in Hstep. injection Hstep as <-.
      exists (Busy i p f). split; [apply busy_tick; exact H | lia].
    + destruct (busy_fire i p f s s' H Hstep) as (ph' & H' & Hlt).
      exists ph'. split; [exact H' | lia].
    + cbn [step] in Hstep. destruct (busy_work i p f t w s s' H Hstep) as (p' & H' & Hlt).
      exists (Busy i p' f). split; [exact H' | cbn; lia].
  - exists Idle. split; [|lia]. eapply idle_step; eassumption.
Qed.

Lemma solo_exec (ls : list label) (ph : phase) (s s' : State) :
  solo ph s -> Forall quiet ls -> exec read_csv py_int s ls = Some s' ->
  exists ph', solo ph' s'.
Proof.
  revert ph s. induction ls as [|l ls IH]; intros ph s H Hq Hex; cbn [exec] in Hex.
  - injection Hex as <-. exists ph. exact H.
  - destruct (step read_csv py_int s l) as [s1|] eqn:Hstep; [|discriminate].
    inversion Hq as [|? ? Hl Hls]; subst.
    destruct (solo_step ph l s s1 H Hl Hstep) as (ph1 & H1 & _).
    eapply IH; eassumption.
Qed.

(** The state a request leaves on a fresh program. *)
Lemma solo_start (csv_path : string) :
  load_tasks read_csv py_int csv_path = inr ts ->
  exists ph,
    solo ph (fst (start_connectivity_check read_csv py_int csv_path k src delay_ms init)).
Proof.
  intros Hload.
  rewrite (start_creates read_csv py_int csv_path k src delay_ms ts init)
    by (try exact Hload; try reflexivity; apply not_elem_of_empty).
  cbn [fst]. unfold run_task_async. rewrite registered_new.
  cbn [stop_flag new_run orb tasks].
  destruct (Nat.leb_spec (length ts) 0) as [Hzero | Hpos].
  - exists Idle. cbn [solo_inv]. constructor.
    + exists (new_run k ts src). cbn. repeat split. lia.
    + cbn. apply lookup_insert_eq.
    + constructor.
    + reflexivity.
    + cbn. replace (length ts) with 0%nat by lia. reflexivity.
  - exists (Busy 0 AtMark 0). cbn [solo_inv]. constructor.
    + exact Hpos.
    + cbn. lia.
    + reflexivity.
    + cbn. apply lookup_insert_eq.
    + cbn. apply not_elem_of_empty.
    + unfold emit. change (rows_of (set_log ?l ?x) k) with (rows_of x k).
      unfold rows_of. cbn. rewrite lookup_insert_eq. cbn. apply length_map.
    + exists [], delay_ms. cbn. repeat split. constructor.
    + exists 0, 0, 0, "", "". reflexivity.
    + intros _. constructor.
    + reflexivity.
Qed.

(** What is seen of a run on its own is a prefix of the schedule. *)
Lemma solo_log_prefix (ph : phase) (s : State) :
  solo ph s -> exists rest, schedule k (length ts) = (map erase (log s) ++ rest)%list.
Proof.
  destruct ph as [i p f|]; cbn [solo_inv]; intros H.
  - destruct (schedule_prefix k (S i) (length ts) (bi_bound _ _ _ _ _ _ _ _ H)) as [rest Hrest].
    exists (drop (S f) (events_of_task k i) ++ rest)%list.
    rewrite (bi_log _ _ _ _ _ _ _ _ H), Hrest, schedule_S.
    rewrite <- (take_drop (S f) (events_of_task k i)) at 1.
    rewrite <- !app_assoc. reflexivity.
  - exists []. rewrite (ii_log _ _ _ H), app_nil_r. reflexivity.
Qed.

Lemma idle_quiescent (s : State) : idle_inv k ts s -> quiescent s = true.
Proof.
  intros [Hh Hr Hth Htm Hlog]. unfold quiescent. rewrite Htm.
  apply forallb_forall. intros w Hin.
  apply list_elem_of_In in Hin. eapply Forall_forall in Hth; [|exact Hin].
  cbn beta in Hth. rewrite Hth. reflexivity.
Qed.

Lemma quiescent_idle (ph : phase) (s : State) :
  solo ph s -> quiescent s = true -> idle_inv k ts s.
Proof.
  destruct ph as [i p f|]; cbn [solo_inv]; [|auto].
  intros [Hb [Hf Hf2] Hh Hr Ho Hrows (olds & dl & Hth & Hlen & Hfin & Hdl)
          (d1 & d2 & d3 & st & tg & Htm) Hdue Hlog] Hq.
  exfalso. unfold quiescent in Hq.
  destruct (timers s) as [|t q] eqn:Hts; [|discriminate].
  rewrite Hth, forallb_app in Hq. apply andb_true_iff in Hq. destruct Hq as [_ Hq].
  cbn in Hq. destruct p; try discriminate.
  destruct f as [|[|[|f]]]; cbn in Htm; try discriminate. lia.
Qed.


Lemma exec_app (l1 l2 : list label) (s s1 s2 : State) :
  exec read_csv py_int s l1 = Some s1 ->
  exec read_csv py_int s1 l2 = Some s2 ->
  exec read_csv py_int s (l1 ++ l2) = Some s2.
Proof.
  revert s. induction l1 as [|l l1 IH]; intros s H1 H2; cbn [exec app] in *.
  - injection H1 as ->. exact H2.
  - destruct (step read_csv py_int s l) as [s'|]; [|discriminate]. eapply IH; eassumption.
Qed.

(** While a task is under way, something can happen, and it brings the run
    nearer to its end: the worker thread runs its next statement, or, once
    it has ended, time passes until the next callback is due and the event
    loop runs it. *)
Lemma busy_advance (i : nat) (p : pc) (f : nat) (s : State) :
  busy i p f s ->
  exists ls s' ph',
    Forall quiet ls /\ exec read_csv py_int s ls = Some s' /\ solo ph' s'
    /\ (work_left (length ts) ph' < work_left (length ts) (Busy i p f))%nat.
Proof.
  intros H.
  destruct (bi_threads _ _ _ _ _ _ _ _ H) as (olds & dl & Hth & Hlen & Hfin & Hdl).
  assert (threads s !! i = Some (the_worker k ts src i dl p)) as Ht.
  { rewrite Hth, lookup_app_r by lia. rewrite Hlen, Nat.sub_diag. reflexivity. }
  destruct (pc_finished p) eqn:Hp.
  - (* the thread has ended: a timer is pending *)
    assert (p = Finished) as -> by (destruct p; first [reflexivity | discriminate]).
    destruct (bi_timers _ _ _ _ _ _ _ _ H) as (d1 & d2 & d3 & st & tg & Htm).
    destruct (bi_fired _ _ _ _ _ _ _ _ H) as [_ Hf2].
    assert (exists t q, timers s = t :: q) as (t & q & Hq).
    { rewrite Htm. destruct f as [|[|[|f]]]; [| | |lia]; cbn; eauto. }
    set (ms := Z.to_nat (due t - now s)).
    set (s1 := set_now (now s + Z.of_nat ms) s).
    pose proof (busy_tick i Finished f ms s H) as H1. fold s1 in H1.
    destruct (step read_csv py_int s1 Fire) as [s2|] eqn:Hfire.
    + destruct (busy_fire i Finished f s1 s2 H1 Hfire) as (ph' & H' & Hlt).
      exists [Tick ms; Fire], s2, ph'. split; [repeat constructor|].
      split; [|auto]. cbn [exec step]. fold s1. cbn [exec step] in Hfire |- *.
      rewrite Hfire. reflexivity.
    + exfalso. cbn [step] in Hfire. change (timers s1) with (timers s) in Hfire.
      rewrite Hq in Hfire. change (now s1) with (now s + Z.of_nat ms) in Hfire.
      destruct (Z.leb_spec (due t) (now s + Z.of_nat ms)); [discriminate|].
      subst ms. lia.
  - (* the thread runs its next statement *)
    destruct (scan_worker i (world_of Established None) s) as [s'|] eqn:Hw.
    + destruct (busy_work i p f i _ s s' H Hw) as (p' & H' & Hlt).
      exists [Work i (world_of Established None)], s', (Busy i p' f).
      split; [repeat constructor|]. split; [cbn [exec step]; rewrite Hw; reflexivity|].
      split; [exact H' | cbn; lia].
    + exfalso. unfold scan_worker in Hw. rewrite Ht in Hw. cbn [w_pc the_worker] in Hw.
      destruct p; try discriminate.
      * destruct (w_tasks _ !! w_index _) as [[[desc ip] port]|]; [|discriminate].
        destruct (_connect_to_host _ ip port _ (os s)) as [res os'].
        destruct (status_of res). discriminate.
      * cbn [w_run the_worker] in Hw. rewrite (bi_heap _ _ _ _ _ _ _ _ H) in Hw.
        cbn in Hw. discriminate.
Qed.

(** A run on its own can always be brought to its end. *)
Lemma solo_completes (n : nat) (ph : phase) (s : State) :
  (work_left (length ts) ph <= n)%nat -> solo ph s ->
  exists ls s', Forall quiet ls /\ exec read_csv py_int s ls = Some s' /\ idle_inv k ts s'.
Proof.
  revert ph s. induction n as [|n IH]; intros ph s Hn H.
  - destruct ph as [i p f|].
    + exfalso. pose proof (bi_bound _ _ _ _ _ _ _ _ H) as Hb.
      pose proof (bi_fired _ _ _ _ _ _ _ _ H) as [_ Hf2]. cbn in Hn. lia.
    + exists [], s. split; [constructor|]. split; [reflexivity | exact H].
  - destruct ph as [i p f|].
    + destruct (busy_advance i p f s H) as (l1 & s1 & ph1 & Hq1 & Hex1 & H1 & Hlt).
      destruct (IH ph1 s1 ltac:(lia) H1) as (l2 & s2 & Hq2 & Hex2 & H2).
      exists (l1 ++ l2)%list, s2. split; [apply Forall_app; auto|].
      split; [eapply exec_app; eassumption | exact H2].
    + exists [], s. split; [constructor|]. split; [reflexivity | exact H].
Qed.

End Solo.



(** ** The claims on concrete runs *)

(** C3, as stated, fails.  Stop is clicked while the probe of task 0 is in
    flight; the stop flag is set when the probe completes, and the result of
    the probe is still written to row 0 and notified. *)
Lemma result_reported_after_stop :
  (stop_flag <$> heap stopped_mid_probe !! 0%nat) = Some true
  /\ (w_pc <$> threads stopped_mid_probe !! 0%nat) = Some AtProbe
  /\ exec sample_files int_of_decimal stopped_mid_probe probe_completes
     = Some (sample_exec stopped_mid_probe probe_completes)
  /\ log (sample_exec stopped_mid_probe probe_completes)
     = [Dispatched 0 7 0; TaskStarted 7 0; TaskResult 7 0 "UNSUCCESSFUL"]
  /\ (r_status <$> rows_of (sample_exec stopped_mid_probe probe_completes) 7 !! 0%nat)
     = Some "UNSUCCESSFUL".
Proof. vm_compute. repeat split. Qed.


(** C5, as stated, fails.  The registered run is stopping (its flag is set,
    its probe in flight); the request creates and registers the new run at
    once, dispatches its first task and leaves no timer for a later
    restart. *)
Lemma stopping_run_replaced_at_once :
  (run_state stopped_mid_probe 0 <$> heap stopped_mid_probe !! 0%nat) = Some Stopping
  /\ runs stopped_mid_probe !! 7%nat = Some 0%nat
  /\ runs requested_again !! 7%nat = Some 1%nat
  /\ timers requested_again = timers stopped_mid_probe
  /\ timers requested_again = []
  /\ log requested_again = [Dispatched 0 7 0; TaskStarted 7 0; Dispatched 1 7 0]
  /\ (w_pc <$> threads requested_again !! 0%nat) = Some AtProbe.
Proof. vm_compute. repeat split. Qed.

(** C9, as stated, fails.  A task file with port 70000 loads, the request
    raises no fault and dispatches the task; the probe turns the port into a
    failure outcome. *)
Lemma out_of_range_port_is_no_fault :
  load_tasks sample_files int_of_decimal "bad-port.csv" = inr [("web", "10.0.0.1", 70000)]
  /\ snd (start_connectivity_check sample_files int_of_decimal "bad-port.csv" 7 None 100 init)
     = None
  /\ log (fst (start_connectivity_check sample_files int_of_decimal "bad-port.csv" 7 None
                 100 init))
     = [Dispatched 0 7 0]
  /\ probe w_up "10.0.0.1" 70000 None
     = (false, None, "Error: connect_ex(): port must be 0-65535.").
Proof. vm_compute. repeat split. Qed.

(** C9 (amended).  When the task file loads (every port cell is an
    integer), a request raises no fault whatever the ports are, and
    registers the run if none is active; a probe of a port outside 0-65535
    is recovered into a failure outcome: success false, no elapsed time, and
    an error text that starts with "Error: ". *)
Theorem out_of_range_port_is_recovered :
  forall (read_csv : string -> fault + list csv_row) (py_int : string -> option Z)
         (csv_path : string) (k : key) (src : option string) (delay_ms : Z)
         (ts : list Task) (s : State),
    k ∉ closed s ->
    load_tasks read_csv py_int csv_path = inr ts ->
    snd (start_connectivity_check read_csv py_int csv_path k src delay_ms s) = None
    /\ (active_run s k = None ->
          fresh_run_at (length (heap s)) k ts src
            (fst (start_connectivity_check read_csv py_int csv_path k src delay_ms s)))
    /\ forall desc ip port,
         In (desc, ip, port) ts ->
         port < 0 \/ 65535 < port ->
         forall (w : World) (source_ip : option string) (st : os_state),
         exists msg,
           fst (_connect_to_host w ip port source_ip st)
             = (false, None, ("Error: " ++ msg)%string).
Proof.
  intros read_csv py_int csv_path k src delay_ms ts s Hk Hload.
  split; [|split].
  - destruct (active_run s k) as [[r o]|] eqn:Hact.
    + unfold start_connectivity_check. rewrite Hact. reflexivity.
    + apply (start_registers_fresh read_csv py_int csv_path k src delay_ms ts s Hk Hload Hact).
  - intros Hact.
    apply (start_registers_fresh read_csv py_int csv_path k src delay_ms ts s Hk Hload Hact).
  - intros desc ip port _ Hport w source_ip st.
    apply bad_port_ends_in_handler. exact Hport.
Qed.

(** ** The theorems at concrete inputs *)

Lemma stop_in_flight_still_reports_witness :
  exists (status_text tag : string) (s1 s2 s3 : State),
    status_of (fst (_connect_to_host w_refusing "10.0.0.1" 80 (w_source probing_worker)
                      (os stopped_mid_probe)))
      = (status_text, tag)
    /\ scan_worker 0 w_refusing stopped_mid_probe = Some s1
    /\ scan_worker 0 w_refusing s1 = Some s2
    /\ scan_worker 0 w_refusing s2 = Some s3
    /\ timers s2
         = enqueue {| due := now stopped_mid_probe + 0;
                      cb := CbUpdateUi (w_tree probing_worker) (w_index probing_worker)
                              status_text tag |}
             (timers stopped_mid_probe)
    /\ timers s3 = timers s2
    /\ threads s3 !! 0%nat = Some (at_pc Finished probing_worker)
    /\ forall (s' : State) (row : Row),
         w_tree probing_worker ∉ closed s' ->
         rows_of s' (w_tree probing_worker) !! w_index probing_worker = Some row ->
         log (update_ui (w_tree probing_worker) (w_index probing_worker) status_text tag s')
           = (log s' ++ [TaskResult (w_tree probing_worker) (w_index probing_worker)
                           status_text])%list
         /\ rows_of (update_ui (w_tree probing_worker) (w_index probing_worker)
                       status_text tag s') (w_tree probing_worker)
              !! w_index probing_worker
            = Some (with_status status_text tag row).
Proof.
  apply (stop_in_flight_still_reports 0 probing_worker stopped_run "web" "10.0.0.1" 80
           w_refusing stopped_mid_probe).
  - vm_compute. reflexivity.
  - reflexivity.
  - reflexivity.
  - vm_compute. reflexivity.
  - reflexivity.
Defined.


Lemma request_run_follows_stop_flag_witness :
  (snd (start_connectivity_check sample_files int_of_decimal "two.csv" 7 None 100 init) = None
   /\ fresh_run_at (length (heap init)) 7 two_tasks None just_started
   /\ timers just_started = timers init)
  /\ (snd (start_connectivity_check sample_files int_of_decimal "two.csv" 7 None 100
             just_started) = None
      /\ registered
           (fst (start_connectivity_check sample_files int_of_decimal "two.csv" 7 None 100
                   just_started)) 7
         = Some (0%nat, stop (the_run 7 two_tasks None 0))
      /\ length (heap (fst (start_connectivity_check sample_files int_of_decimal "two.csv"
                               7 None 100 just_started)))
         = length (heap just_started)).
Proof.
  split.
  - apply (request_run_follows_stop_flag sample_files int_of_decimal "two.csv" 7 None 100
             two_tasks init).
    + apply not_elem_of_empty.
    + vm_compute. reflexivity.
    + vm_compute. reflexivity.
  - destruct (request_run_follows_stop_flag sample_files int_of_decimal "two.csv" 7 None 100
                two_tasks just_started) as [_ H].
    + vm_compute. discriminate.
    + vm_compute. reflexivity.
    + destruct (H 0%nat (the_run 7 two_tasks None 0)) as (H1 & H2 & H3 & _).
      * vm_compute. reflexivity.
      * auto.
Defined.



Lemma out_of_range_port_is_recovered_witness :
  snd (start_connectivity_check sample_files int_of_decimal "bad-port.csv" 7 None 100 init)
    = None
  /\ (active_run init 7 = None ->
        fresh_run_at (length (heap init)) 7 [("web", "10.0.0.1", 70000)] None
          (fst (start_connectivity_check sample_files int_of_decimal "bad-port.csv" 7 None
                  100 init)))
  /\ forall desc ip port,
       In (desc, ip, port) [("web", "10.0.0.1", 70000)] ->
       port < 0 \/ 65535 < port ->
       forall (w : World) (source_ip : option string) (st : os_state),
       exists msg,
         fst (_connect_to_host w ip port source_ip st)
           = (false, None, ("Error: " ++ msg)%string).
Proof.
  apply (out_of_range_port_is_recovered sample_files int_of_decimal "bad-port.csv" 7 None
           100 [("web", "10.0.0.1", 70000)] init).
  - apply not_elem_of_empty.
  - vm_compute. reflexivity.
Defined.

(** A remark on the scope of C6 and C7.  The callback [run_task_async] for
    the next task looks the run up again when it fires.  Left pending by a
    run that is then stopped and replaced, it finds the replacement: the
    stopped run 0 stays frozen, and the replacement run 1 has its task 1
    dispatched while the worker of its task 0 has not begun. *)
Example pending_callback_meets_replacement :
  log (sample_exec init stop_then_test)
    = [Dispatched 0 7 0; TaskStarted 7 0; TaskResult 7 0 "SUCCESSFUL (3 ms)";
       Dispatched 1 7 0; Dispatched 1 7 1]
  /\ dispatched_of 0 (log (sample_exec init stop_then_test)) = [0%nat]
  /\ (index <$> heap (sample_exec init stop_then_test) !! 0%nat) = Some 0%nat
  /\ (w_pc <$> threads (sample_exec init stop_then_test) !! 1%nat) = Some AtMark
  /\ exec sample_files int_of_decimal init stop_then_test
     = Some (sample_exec init stop_then_test).
Proof. vm_compute. repeat split. Qed.

(** * Further properties of the program *)

(** ** The probe: what it returns and what it leaves *)

(** X1.  The probe reports success exactly when the socket could be
    created, the local address (if one is asked for) could be bound, the
    port is in 0-65535 and the connection was established; it then returns
    the elapsed time and an empty error text. *)
Theorem probe_succeeds_iff_established :
  forall (w : World) (dest_ip : string) (dest_port : Z) (source_ip : option string)
         (st : os_state),
    (fst (fst (fst (_connect_to_host w dest_ip dest_port source_ip st))) = true
     <-> (sys_socket w = None
          /\ (truthy source_ip = true -> sys_bind w (default EmptyString source_ip) = None)
          /\ 0 <= dest_port <= 65535
          /\ sys_connect w dest_ip dest_port = Established))
    /\ (fst (fst (fst (_connect_to_host w dest_ip dest_port source_ip st))) = true ->
        fst (_connect_to_host w dest_ip dest_port source_ip st)
          = (true, Some (elapsed_millis w), EmptyString)).
Proof.
  intros w ip port src st.
  unfold _connect_to_host, try_except, connect_body, PySocket.bind, socket, settimeout, ret,
    sock_bind, connect_ex, close, PySocket.raise.
  destruct (sys_socket w) as [m|]; cbn.
  { split; [split; [discriminate | intros [H _]; discriminate] | discriminate]. }
  destruct (truthy src); cbn.
  - destruct (sys_bind w (default EmptyString src)) as [m|]; cbn.
    { split; [split; [discriminate | intros (_ & H & _); discriminate (H eq_refl)]
             | discriminate]. }
    destruct (Z.ltb_spec port 0); cbn.
    { destruct (sys_connect w ip port); cbn;
        (split; [split; [discriminate | intros (_ & _ & H' & _); lia] | discriminate]). }
    destruct (Z.ltb_spec 65535 port); cbn.
    { destruct (sys_connect w ip port); cbn;
        (split; [split; [discriminate | intros (_ & _ & H' & _); lia] | discriminate]). }
    destruct (sys_connect w ip port); cbn;
      first [ split; [split; [intros _; repeat split; auto; lia | reflexivity] | reflexivity]
            | split; [split; [discriminate | intros (_ & _ & _ & H'); discriminate]
                     | discriminate] ].
  - destruct (Z.ltb_spec port 0); cbn.
    { destruct (sys_connect w ip port); cbn;
        (split; [split; [discriminate | intros (_ & _ & H' & _); lia] | discriminate]). }
    destruct (Z.ltb_spec 65535 port); cbn.
    { destruct (sys_connect w ip port); cbn;
        (split; [split; [discriminate | intros (_ & _ & H' & _); lia] | discriminate]). }
    destruct (sys_connect w ip port); cbn;
      first [ split; [split; [intros _; repeat split; auto; try discriminate; lia
                             | reflexivity] | reflexivity]
            | split; [split; [discriminate | intros (_ & _ & _ & H'); discriminate]
                     | discriminate] ].
Qed.

(** The three ways the probe ends: [connect_ex] returned a code and the
    socket was closed; [socket()] failed; or a call raised once the socket
    existed, which is left open. *)
Lemma probe_ends (w : World) (dest_ip : string) (dest_port : Z)
    (source_ip : option string) (st : os_state) :
  (exists code,
     _connect_to_host w dest_ip dest_port source_ip st
       = ((code =? 0, Some (elapsed_millis w),
           if code =? 0 then EmptyString else "UNSUCCESSFUL"),
          {| next_fd := S (next_fd st);
             open_fds := filter (fun d => negb (Nat.eqb d (next_fd st)))
                           (next_fd st :: open_fds st) |}))
  \/ (exists msg,
        _connect_to_host w dest_ip dest_port source_ip st
          = ((false, None, ("Error: " ++ msg)%string), st))
  \/ (exists msg,
        _connect_to_host w dest_ip dest_port source_ip st
          = ((false, None, ("Error: " ++ msg)%string),
             {| next_fd := S (next_fd st); open_fds := next_fd st :: open_fds st |})).
Proof.
  unfold _connect_to_host, try_except, connect_body, PySocket.bind, socket, settimeout, ret,
    sock_bind, connect_ex, close, PySocket.raise.
  destruct (sys_socket w) as [m|]; cbn.
  { right. left. exists m. reflexivity. }
  destruct (truthy source_ip); cbn.
  - destruct (sys_bind w (default EmptyString source_ip)) as [m|]; cbn.
    { right. right. exists m. reflexivity. }
    destruct ((dest_port <? 0) || (65535 <? dest_port));
      destruct (sys_connect w dest_ip dest_port); cbn;
      first [ left; exists 0; reflexivity
            | left; exists ECONNREFUSED; reflexivity
            | left; exists EWOULDBLOCK; reflexivity
            | match goal with e : positive |- _ => left; exists (Z.pos e); reflexivity end
            | right; right; eexists; reflexivity ].
  - destruct ((dest_port <? 0) || (65535 <? dest_port));
      destruct (sys_connect w dest_ip dest_port); cbn;
      first [ left; exists 0; reflexivity
            | left; exists ECONNREFUSED; reflexivity
            | left; exists EWOULDBLOCK; reflexivity
            | match goal with e : positive |- _ => left; exists (Z.pos e); reflexivity end
            | right; right; eexists; reflexivity ].
Qed.

(** X2.  Whatever the probe meets, its tuple has one of three forms:
    success with the elapsed time and an empty text; failure with the
    elapsed time and the text "UNSUCCESSFUL"; failure with no elapsed time
    and a text that starts with "Error: ".  The texts of the first two
    [except] clauses are never returned. *)
Theorem probe_outcome_forms :
  forall (w : World) (dest_ip : string) (dest_port : Z) (source_ip : option string)
         (st : os_state),
    fst (_connect_to_host w dest_ip dest_port source_ip st)
      = (true, Some (elapsed_millis w), EmptyString)
    \/ fst (_connect_to_host w dest_ip dest_port source_ip st)
       = (false, Some (elapsed_millis w), "UNSUCCESSFUL")
    \/ exists msg,
         fst (_connect_to_host w dest_ip dest_port source_ip st)
           = (false, None, ("Error: " ++ msg)%string).
Proof.
  intros w ip port src st.
  destruct (probe_ends w ip port src st) as [[code H] | [[msg H] | [msg H]]]; rewrite H;
    cbn [fst].
  - destruct (code =? 0); auto.
  - right. right. exists msg. reflexivity.
  - right. right. exists msg. reflexivity.
Qed.



(** X4.  The probe changes the table of open descriptors by its own
    descriptor at most: every descriptor that was open stays open, and
    nothing but the one it created is added. *)
Theorem probe_keeps_other_descriptors :
  forall (w : World) (dest_ip : string) (dest_port : Z) (source_ip : option string)
         (st : os_state) (d : nat),
    d <> next_fd st ->
    (In d (open_fds (snd (_connect_to_host w dest_ip dest_port source_ip st)))
     <-> In d (open_fds st)).
Proof.
  intros w ip port src st d Hd.
  destruct (probe_ends w ip port src st) as [[code H] | [[msg H] | [msg H]]]; rewrite H;
    cbn [snd open_fds].
  - rewrite <- !list_elem_of_In, list_elem_of_filter, elem_of_cons.
    split.
    + intros [_ [Heq | Hin]]; [contradiction | exact Hin].
    + intros Hin. split; [|right; exact Hin].
      destruct (Nat.eqb_spec d (next_fd st)); [contradiction | exact I].
  - reflexivity.
  - cbn. split; [intros [Heq | Hin]; [congruence | exact Hin] | auto].
Qed.

Lemma probe_keeps_other_descriptors_witness :
  In 5%nat (open_fds (snd (_connect_to_host w_refusing "10.0.0.1" 80 None
                             {| next_fd := 7; open_fds := [5%nat; 6%nat] |})))
  <-> In 5%nat [5%nat; 6%nat].
Proof.
  apply (probe_keeps_other_descriptors w_refusing "10.0.0.1" 80 None
           {| next_fd := 7; open_fds := [5%nat; 6%nat] |} 5%nat).
  cbn. lia.
Defined.

(** ** Task files *)

Section LoadFacts.

Variable read_csv : string -> fault + list csv_row.
Variable py_int : string -> option Z.

Lemma getitem_inl (r : csv_row) (column : string) (f : fault) :
  getitem r column = inl f -> f = KeyError column.
Proof.
  induction r as [|[c v] r IH]; cbn [getitem].
  - congruence.
  - destruct (String.eqb c column); [discriminate | exact IH].
Qed.

Lemma load_rows_inr (rs : list csv_row) (ts : list Task) :
  load_rows py_int rs = inr ts <-> Forall2 (fun r t => load_row py_int r = inr t) rs ts.
Proof.
  revert ts. induction rs as [|r rs IH]; intros ts; cbn [load_rows].
  - split.
    + intros [= <-]. constructor.
    + intros H. inversion H. reflexivity.
  - destruct (load_row py_int r) as [f|t] eqn:Hr.
    + split; [discriminate|]. intros H. inversion H; subst. congruence.
    + destruct (load_rows py_int rs) as [f|ts'] eqn:Hrs.
      * split; [discriminate|]. intros H. inversion H as [|? ? ? ? _ Hrest]; subst.
        apply IH in Hrest. discriminate.
      * split.
        -- intros [= <-]. constructor; [exact Hr | apply IH; reflexivity].
        -- intros H. inversion H as [|? ? ? ? Hhead Hrest]; subst.
           apply IH in Hrest. congruence.
Qed.

Lemma load_row_inr (r : csv_row) (desc ip : string) (port : Z) :
  load_row py_int r = inr (desc, ip, port)
  <-> getitem r "Description" = inr desc /\ getitem r "IP" = inr ip
      /\ exists cell, getitem r "Port" = inr cell /\ py_int cell = Some port.
Proof.
  unfold load_row.
  destruct (getitem r "Description") as [f|d]; [split; [discriminate | intros [H _]; discriminate]|].
  destruct (getitem r "IP") as [f|i];
    [split; [discriminate | intros (_ & H & _); discriminate]|].
  destruct (getitem r "Port") as [f|c];
    [split; [discriminate | intros (_ & _ & c & H & _); discriminate]|].
  destruct (py_int c) as [p|] eqn:Hp.
  - split.
    + intros [= -> -> ->]. repeat split. exists c. auto.
    + intros ([= ->] & [= ->] & c' & [= <-] & Hc). rewrite Hp in Hc. congruence.
  - split; [discriminate|]. intros (_ & _ & c' & [= <-] & Hc). congruence.
Qed.

(** X5.  When [load_tasks] returns, it returns one task per row of the
    file, in the order of the rows, and task [i] is made of the Description
    and IP cells of row [i] as they are and of the integer its Port cell
    denotes; other columns play no part. *)
Theorem load_tasks_row_by_row :
  forall (csv_path : string) (ts : list Task),
    load_tasks read_csv py_int csv_path = inr ts ->
    exists rs,
      read_csv csv_path = inr rs
      /\ length ts = length rs
      /\ forall (i : nat) (r : csv_row),
           rs !! i = Some r ->
           exists desc ip cell port,
             ts !! i = Some (desc, ip, port)
             /\ getitem r "Description" = inr desc
             /\ getitem r "IP" = inr ip
             /\ getitem r "Port" = inr cell
             /\ py_int cell = Some port.
Proof.
  intros csv_path ts. unfold load_tasks.
  destruct (read_csv csv_path) as [f|rs]; [discriminate|]. intros Hload.
  apply load_rows_inr in Hload. exists rs. split; [reflexivity|].
  split; [symmetry; eapply Forall2_length; exact Hload|].
  intros i r Hr.
  destruct (Forall2_lookup_l _ _ _ _ _ Hload Hr) as ([[desc ip] port] & Ht & Hrow).
  apply load_row_inr in Hrow. destruct Hrow as (Hd & Hi & cell & Hc & Hp).
  exists desc, ip, cell, port. auto.
Qed.


(** X7.  Opening a window and starting a test read the file alike:
    [open_result_window] inserts the rows without a fault exactly when
    [load_tasks] returns, and its "Not tested" rows then show the same
    tasks, in the same order, as the "Testing" rows of
    [start_connectivity_check]; when it meets a fault, it is the fault
    [load_tasks] raises. *)
Theorem preload_agrees_with_load_tasks :
  forall (csv_path : string),
    match load_tasks read_csv py_int csv_path with
    | inr ts =>
        preload read_csv py_int csv_path = (map not_tested ts, None)
        /\ map row_task (map not_tested ts) = ts
        /\ map row_task (map placeholder ts) = ts
    | inl f => snd (preload read_csv py_int csv_path) = Some f
    end.
Proof.
  intros csv_path. unfold load_tasks, preload.
  destruct (read_csv csv_path) as [f|rs]; [reflexivity|].
  assert (forall ts : list Task,
            map row_task (map not_tested ts) = ts
            /\ map row_task (map placeholder ts) = ts) as Hcols.
  { induction ts as [|[[d i] p] ts [IH1 IH2]]; [split; reflexivity|].
    cbn [map]. rewrite IH1, IH2. split; reflexivity. }
  induction rs as [|r rs IH]; cbn [load_rows preload_rows].
  - repeat split.
  - destruct (load_row py_int r) as [f|t]; [reflexivity|].
    destruct (load_rows py_int rs) as [f|ts].
    + destruct (preload_rows py_int rs) as [rows f']. cbn in IH |- *. exact IH.
    + destruct IH as (IH & _). rewrite IH. split; [reflexivity|]. apply Hcols.
Qed.

End LoadFacts.


Lemma load_tasks_row_by_row_witness :
  exists rs,
    sample_files "two.csv" = inr rs
    /\ length two_tasks = length rs
    /\ forall (i : nat) (r : csv_row),
         rs !! i = Some r ->
         exists desc ip cell port,
           two_tasks !! i = Some (desc, ip, port)
           /\ getitem r "Description" = inr desc
           /\ getitem r "IP" = inr ip
           /\ getitem r "Port" = inr cell
           /\ int_of_decimal cell = Some port.
Proof.
  apply (load_tasks_row_by_row sample_files int_of_decimal "two.csv" two_tasks).
  reflexivity.
Defined.

(** ** The registry, the trees and the log in every reachable state *)

Lemma row_task_with_status (status tag : string) (row : Row) :
  row_task (with_status status tag row) = row_task row.
Proof. reflexivity. Qed.

Lemma row_task_insert (rows : list Row) (i : nat) (row : Row) (status tag : string) :
  rows !! i = Some row ->
  map row_task (<[i := with_status status tag row]> rows) = map row_task rows.
Proof.
  revert i. induction rows as [|x rows IH]; intros [|i] H; try discriminate.
  - cbn in H. injection H as ->. reflexivity.
  - cbn in H |- *. f_equal. apply IH. exact H.
Qed.

Lemma row_task_cancel (rows : list Row) :
  map row_task (map cancel_row rows) = map row_task rows.
Proof.
  induction rows as [|x rows IH]; [reflexivity|]. cbn [map]. rewrite IH. f_equal.
  unfold cancel_row. destruct (_ || _); reflexivity.
Qed.

Lemma registered_fields (s s' : State) (k : nat) :
  heap s' = heap s -> runs s' = runs s -> registered s' k = registered s k.
Proof. intros Hh Hr. unfold registered. rewrite Hh, Hr. reflexivity. Qed.

(** Steps that touch neither objects nor registry, trees, windows or log. *)
Lemma ei_frame (s s' : State) :
  heap s' = heap s -> runs s' = runs s -> trees s' = trees s -> closed s' = closed s ->
  log s' = log s -> engine_inv s -> engine_inv s'.
Proof.
  intros Hh Hr Ht Hc Hl [H1 H2 H3 H4].
  constructor.
  - intros k r. rewrite Hh, Hr. apply H1.
  - intros r o. rewrite Hh, Hr. apply H2.
  - intros k r o. rewrite Hc, (registered_fields s s' k Hh Hr). unfold rows_of. rewrite Ht.
    apply H3.
  - intros r. rewrite Hh, Hl. apply H4.
Qed.

(** A run object is overwritten by one of the same tree and tasks whose
    stop flag is not cleared. *)
Lemma ei_update_object (r : nat) (o o' : ConnectivityRun) (s s' : State) :
  heap s !! r = Some o ->
  tree o' = tree o -> tasks o' = tasks o -> (stop_flag o' = false -> stop_flag o = false) ->
  heap s' = <[r := o']> (heap s) -> runs s' = runs s -> trees s' = trees s ->
  closed s' = closed s -> log s' = log s ->
  engine_inv s -> engine_inv s'.
Proof.
  intros Ho Htree Htasks Hflag Hh Hr Ht Hc Hl [H1 H2 H3 H4].
  assert (r < length (heap s))%nat as Hlt by (eapply lookup_lt_Some; exact Ho).
  assert (forall r0 o0, heap s' !! r0 = Some o0 ->
            exists o1, heap s !! r0 = Some o1 /\ tree o0 = tree o1 /\ tasks o0 = tasks o1
                       /\ (stop_flag o0 = false -> stop_flag o1 = false)) as Hback.
  { intros r0 o0. rewrite Hh. destruct (Nat.eq_dec r r0) as [<- | Hne].
    - rewrite list_lookup_insert_eq by exact Hlt. intros [= <-]. exists o. auto.
    - rewrite list_lookup_insert_ne by exact Hne. intros H. exists o0. auto. }
  constructor.
  - intros k r0. rewrite Hr. intros Hk. destruct (H1 k r0 Hk) as (o0 & Ho0 & Ht0).
    rewrite Hh. destruct (Nat.eq_dec r r0) as [<- | Hne].
    + rewrite list_lookup_insert_eq by exact Hlt. exists o'. split; [reflexivity|]. congruence.
    + rewrite list_lookup_insert_ne by exact Hne. exists o0. auto.
  - intros r0 o0 Ho0 Hf. destruct (Hback r0 o0 Ho0) as (o1 & Ho1 & Ht1 & _ & Hf1).
    rewrite Hr, Ht1. apply H2; auto.
  - intros k r0 o0. rewrite Hc. intros Hk Hreg.
    destruct (registered_Some s' k r0 o0 Hreg) as [Hruns Hheap].
    destruct (Hback r0 o0 Hheap) as (o1 & Ho1 & _ & Htk & _).
    unfold rows_of. rewrite Ht, Htk. apply (H3 k r0 o1 Hk).
    unfold registered. rewrite <- Hr, Hruns, Ho1. reflexivity.
  - intros r0. rewrite Hl. specialize (H4 r0). rewrite Hh.
    destruct (Nat.eq_dec r r0) as [<- | Hne].
    + rewrite list_lookup_insert_eq by exact Hlt. rewrite Ho in H4. rewrite Htasks. exact H4.
    + rewrite list_lookup_insert_ne by exact Hne. exact H4.
Qed.

(** The rows of a tree are rewritten, their first three columns kept. *)
Lemma ei_rewrite_rows (k : nat) (rows' : list Row) (s s' : State) :
  map row_task rows' = map row_task (rows_of s k) ->
  heap s' = heap s -> runs s' = runs s -> trees s' = <[k := rows']> (trees s) ->
  closed s' = closed s -> log s' = log s ->
  engine_inv s -> engine_inv s'.
Proof.
  intros Hrows Hh Hr Ht Hc Hl [H1 H2 H3 H4].
  constructor.
  - intros k0 r. rewrite Hh, Hr. apply H1.
  - intros r o. rewrite Hh, Hr. apply H2.
  - intros k0 r o. rewrite Hc, (registered_fields s s' k0 Hh Hr). intros Hk Hreg.
    rewrite <- (H3 k0 r o Hk Hreg). unfold rows_of at 1. rewrite Ht.
    destruct (Nat.eq_dec k k0) as [<- | Hne].
    + rewrite lookup_insert_eq. exact Hrows.
    + rewrite lookup_insert_ne by exact Hne. reflexivity.
  - intros r. rewrite Hh, Hl. apply H4.
Qed.

(** An event is added to the log: a notification, or the dispatch of an
    index of the run's task list. *)
Lemma ei_log (e : event) (s s' : State) :
  (forall r, dispatch_index r e = []
             \/ exists o i, heap s !! r = Some o /\ dispatch_index r e = [i]
                            /\ (i < length (tasks o))%nat) ->
  heap s' = heap s -> runs s' = runs s -> trees s' = trees s -> closed s' = closed s ->
  log s' = (log s ++ [e])%list ->
  engine_inv s -> engine_inv s'.
Proof.
  intros He Hh Hr Ht Hc Hl [H1 H2 H3 H4].
  constructor.
  - intros k r. rewrite Hh, Hr. apply H1.
  - intros r o. rewrite Hh, Hr. apply H2.
  - intros k r o. rewrite Hc, (registered_fields s s' k Hh Hr). unfold rows_of. rewrite Ht.
    apply H3.
  - intros r. rewrite Hh, Hl, dispatched_of_app. specialize (H4 r).
    change (dispatched_of r [e]) with (dispatch_index r e ++ [])%list. rewrite app_nil_r.
    destruct (He r) as [-> | (o & i & Ho & -> & Hi)].
    + rewrite app_nil_r. exact H4.
    + rewrite Ho in H4 |- *. apply Forall_app. split; [exact H4|]. repeat constructor.
      exact Hi.
Qed.

(** A new run object is registered for [k], which had no run with a clear
    stop flag. *)
Lemma ei_new_run (k : nat) (ts : list Task) (src : option string) (s s' : State) :
  active_run s k = None ->
  heap s' = (heap s ++ [new_run k ts src])%list ->
  runs s' = <[k := length (heap s)]> (runs s) ->
  (k ∉ closed s -> trees s' !! k = Some (map placeholder ts)) ->
  (forall k', k' <> k -> trees s' !! k' = trees s !! k') ->
  closed s' = closed s -> log s' = log s ->
  engine_inv s -> engine_inv s'.
Proof.
  intros Hact Hh Hr Htk Hto Hc Hl [H1 H2 H3 H4].
  assert (forall r0 o0, heap s !! r0 = Some o0 -> heap s' !! r0 = Some o0) as Hkeep.
  { intros r0 o0 H. rewrite Hh. apply lookup_app_l_Some. exact H. }
  assert (heap s' !! length (heap s) = Some (new_run k ts src)) as Hnew.
  { rewrite Hh, lookup_app_r by lia. rewrite Nat.sub_diag. reflexivity. }
  assert (forall r0 o0, heap s' !! r0 = Some o0 ->
            heap s !! r0 = Some o0 \/ (r0 = length (heap s) /\ o0 = new_run k ts src))
    as Hback.
  { intros r0 o0. rewrite Hh. intros H. apply lookup_app_Some in H.
    destruct H as [H | [Hge H]]; [left; exact H|]. right.
    destruct (r0 - length (heap s))%nat as [|n] eqn:E; [|discriminate].
    cbn in H. injection H as <-. split; [lia | reflexivity]. }
  constructor.
  - intros k0 r. rewrite Hr. destruct (Nat.eq_dec k k0) as [<- | Hne].
    + rewrite lookup_insert_eq. intros [= <-]. exists (new_run k ts src). auto.
    + rewrite lookup_insert_ne by exact Hne. intros Hk.
      destruct (H1 k0 r Hk) as (o & Ho & Ht). exists o. auto.
  - intros r o Ho Hf. rewrite Hr. destruct (Hback r o Ho) as [Hold | [-> ->]].
    + destruct (Nat.eq_dec k (tree o)) as [Heq | Hne].
      * exfalso. pose proof (H2 r o Hold Hf) as Hreg. rewrite <- Heq in Hreg.
        unfold active_run, registered in Hact. rewrite Hreg, Hold, Hf in Hact. discriminate.
      * rewrite lookup_insert_ne by exact Hne. apply H2; assumption.
    + cbn. apply lookup_insert_eq.
  - intros k0 r o. rewrite Hc. intros Hk Hreg.
    destruct (registered_Some s' k0 r o Hreg) as [Hruns Hheap].
    destruct (Nat.eq_dec k k0) as [<- | Hne].
    + rewrite Hr, lookup_insert_eq in Hruns. injection Hruns as <-.
      rewrite Hnew in Hheap. injection Hheap as <-.
      unfold rows_of. rewrite (Htk Hk).
      change (map row_task (map placeholder ts) = ts).
      clear. induction ts as [|[[d i] p] l IH]; [reflexivity|]. cbn [map]. rewrite IH.
      reflexivity.
    + rewrite Hr, lookup_insert_ne in Hruns by exact Hne.
      destruct (H1 k0 r Hruns) as (o1 & Ho1 & _).
      pose proof (Hkeep r o1 Ho1) as Ho1'. rewrite Hheap in Ho1'. injection Ho1' as <-.
      unfold rows_of. rewrite (Hto k0) by congruence.
      apply (H3 k0 r o Hk). unfold registered. rewrite Hruns, Ho1. reflexivity.
  - intros r. rewrite Hl. specialize (H4 r).
    destruct (heap s' !! r) as [o|] eqn:Ho.
    + destruct (Hback r o Ho) as [Hold | [-> ->]].
      * rewrite Hold in H4. exact H4.
      * rewrite (lookup_ge_None_2 (heap s) (length (heap s))) in H4 by lia.
        rewrite H4. constructor.
    + destruct (heap s !! r) as [o|] eqn:Hold; [|exact H4].
      rewrite (Hkeep r o Hold) in Ho. discriminate.
Qed.

(** A window is closed. *)
Lemma ei_close (k : nat) (s s' : State) :
  heap s' = heap s -> runs s' = runs s -> trees s' = trees s ->
  closed s' = {[k]} ∪ closed s -> log s' = log s ->
  engine_inv s -> engine_inv s'.
Proof.
  intros Hh Hr Ht Hc Hl [H1 H2 H3 H4].
  constructor.
  - intros k0 r. rewrite Hh, Hr. apply H1.
  - intros r o. rewrite Hh, Hr. apply H2.
  - intros k0 r o. rewrite Hc, (registered_fields s s' k0 Hh Hr). unfold rows_of. rewrite Ht.
    intros Hk. apply H3. intros Hin. apply Hk. apply elem_of_union. right. exact Hin.
  - intros r. rewrite Hh, Hl. apply H4.
Qed.

Lemma ei_init : engine_inv init.
Proof.
  constructor.
  - intros k r H. cbn in H. rewrite lookup_empty in H. discriminate.
  - intros r o H. discriminate.
  - intros k r o _ H. unfold registered in H. cbn in H. rewrite lookup_empty in H.
    discriminate.
  - intros r. reflexivity.
Qed.

Lemma ei_run_task_async (ts : list Task) (k i : nat) (src : option string) (delay_ms : Z)
    (s : State) :
  engine_inv s -> engine_inv (run_task_async ts k i src delay_ms s).
Proof.
  intros H. unfold run_task_async.
  destruct (registered s k) as [[r o]|] eqn:Hreg; [|exact H].
  destruct (registered_Some s k r o Hreg) as [_ Ho].
  destruct (stop_flag o) eqn:Hf; cbn [orb]; [exact H|].
  destruct (Nat.leb_spec (length (tasks o)) i) as [Hge | Hlt]; [exact H|].
  set (o' := set_progress i (length (threads s)) o).
  set (s1 := set_heap (<[r := o']> (heap s)) s).
  assert (engine_inv s1) as H1.
  { apply (ei_update_object r o o' s s1 Ho); auto. }
  eapply (ei_log (Dispatched r k i) s1); [| reflexivity .. | exact H1].
  intros r0. cbn [dispatch_index]. destruct (Nat.eqb_spec r r0) as [<- | Hne]; [|left; auto].
  right. exists o', i. split; [|split; [reflexivity | exact Hlt]].
  cbn. apply list_lookup_insert_eq. eapply lookup_lt_Some. exact Ho.
Qed.

Lemma ei_set_testing (r k i : nat) (s : State) :
  engine_inv s -> engine_inv (set_testing r k i s).
Proof.
  intros H. unfold set_testing.
  destruct (heap s !! r) as [o|]; [|exact H].
  destruct (stop_flag o); [exact H|].
  destruct (bool_decide (k ∈ closed s)); [exact H|].
  destruct (rows_of s k !! i) as [row|] eqn:Hrow; [|exact H].
  set (s1 := set_trees _ s).
  assert (engine_inv s1) as H1.
  { eapply (ei_rewrite_rows k _ s s1); [| reflexivity .. | exact H].
    apply row_task_insert. exact Hrow. }
  eapply (ei_log (TaskStarted k i) s1); [| reflexivity .. | exact H1].
  intros r0. left. reflexivity.
Qed.

Lemma ei_update_ui (k i : nat) (status_text tag : string) (s : State) :
  engine_inv s -> engine_inv (update_ui k i status_text tag s).
Proof.
  intros H. unfold update_ui.
  destruct (bool_decide (k ∈ closed s)); [exact H|].
  destruct (rows_of s k !! i) as [row|] eqn:Hrow; [|exact H].
  set (s1 := set_trees _ s).
  assert (engine_inv s1) as H1.
  { eapply (ei_rewrite_rows k _ s s1); [| reflexivity .. | exact H].
    apply row_task_insert. exact Hrow. }
  eapply (ei_log (TaskResult k i status_text) s1); [| reflexivity .. | exact H1].
  intros r0. left. reflexivity.
Qed.

Lemma ei_stop_run (r : nat) (o : ConnectivityRun) (s : State) :
  heap s !! r = Some o -> engine_inv s -> engine_inv (stop_run r o s).
Proof.
  intros Ho H. apply (ei_update_object r o (stop o) s _ Ho); auto.
  cbn. discriminate.
Qed.

Lemma ei_stop_running_tests (k : nat) (s : State) :
  engine_inv s -> engine_inv (stop_running_tests k s).
Proof.
  intros H. unfold stop_running_tests.
  destruct (registered s k) as [[r o]|] eqn:Hreg; [|exact H].
  destruct (registered_Some s k r o Hreg) as [_ Ho].
  apply ei_stop_run; [exact Ho|].
  eapply (ei_rewrite_rows k _ s); [| reflexivity .. | exact H].
  apply row_task_cancel.
Qed.

Lemma ei_on_result_window_close (k : nat) (s : State) :
  engine_inv s -> engine_inv (_on_result_window_close k s).
Proof.
  intros H. unfold _on_result_window_close.
  eapply (ei_close k (stop_running_tests k s)); [reflexivity .. |].
  apply ei_stop_running_tests. exact H.
Qed.

Section ReachableFacts.

Variable read_csv : string -> fault + list csv_row.
Variable py_int : string -> option Z.

Lemma ei_start (csv_path : string) (k : nat) (src : option string) (delay_ms : Z)
    (s : State) :
  engine_inv s ->
  engine_inv (fst (start_connectivity_check read_csv py_int csv_path k src delay_ms s)).
Proof.
  intros H. unfold start_connectivity_check.
  destruct (active_run s k) as [[r o]|] eqn:Hact.
  - destruct (active_run_Some s k r o Hact) as [Hreg _].
    destruct (registered_Some s k r o Hreg) as [_ Ho]. cbn [fst].
    eapply (ei_frame (stop_run r o s)); [reflexivity .. |].
    apply ei_stop_run; assumption.
  - destruct (load_tasks read_csv py_int csv_path) as [f|ts]; [exact H|].
    destruct (bool_decide (k ∈ closed s)) eqn:Hk; cbn [fst].
    + apply bool_decide_eq_true_1 in Hk.
      eapply (ei_new_run k ts src s); [exact Hact | reflexivity | reflexivity | |
                                       | reflexivity | reflexivity | exact H].
      * intros Hn. contradiction.
      * intros k' _. reflexivity.
    + apply ei_run_task_async.
      eapply (ei_new_run k ts src s); [exact Hact | reflexivity | reflexivity | |
                                       | reflexivity | reflexivity | exact H].
      * intros _. cbn. apply lookup_insert_eq.
      * intros k' Hne. cbn. apply lookup_insert_ne. congruence.
Qed.

Lemma ei_run_callback (c : callback) (s : State) :
  engine_inv s -> engine_inv (run_callback read_csv py_int c s).
Proof.
  intros H. destruct c; cbn [run_callback].
  - apply ei_set_testing. exact H.
  - apply ei_update_ui. exact H.
  - apply ei_run_task_async. exact H.
  - apply ei_start. exact H.
Qed.

(** What a worker thread leaves alone. *)
Lemma scan_worker_fields (t : nat) (w : World) (s s' : State) :
  scan_worker t w s = Some s' ->
  now s' = now s /\ heap s' = heap s /\ runs s' = runs s /\ trees s' = trees s
  /\ closed s' = closed s /\ log s' = log s
  /\ forall t', t' <> t -> threads s' !! t' = threads s !! t'.
Proof.
  unfold scan_worker. destruct (threads s !! t) as [wk|]; [|discriminate].
  assert (forall wk' s0, threads s0 = threads s ->
            forall t', t' <> t -> threads (set_worker t wk' s0) !! t' = threads s !! t')
    as Hth.
  { intros wk' s0 E t' Hne. cbn. rewrite E. apply list_lookup_insert_ne. congruence. }
  destruct (w_pc wk).
  - intros [= <-]. repeat split. apply Hth. reflexivity.
  - destruct (w_tasks wk !! w_index wk) as [[[d ip] port]|].
    + destruct (_connect_to_host w ip port (w_source wk) (os s)) as [res os'].
      destruct (status_of res) as [st tg]. intros [= <-]. repeat split.
      apply Hth. reflexivity.
    + intros [= <-]. repeat split. apply Hth. reflexivity.
  - intros [= <-]. repeat split. apply Hth. reflexivity.
  - destruct (heap s !! w_run wk) as [o|]; [|discriminate].
    destruct (stop_flag o); intros [= <-]; repeat split; apply Hth; reflexivity.
  - discriminate.
Qed.

Lemma ei_step (l : label) (s s' : State) :
  step read_csv py_int s l = Some s' -> engine_inv s -> engine_inv s'.
Proof.
  destruct l as [ms| |t w|k csv_path src delay_ms|k|k]; cbn [step].
  - intros [= <-]. apply ei_frame; reflexivity.
  - destruct (timers s) as [|tm q]; [discriminate|].
    destruct (due tm <=? now s); [|discriminate]. intros [= <-] H.
    apply ei_run_callback. revert H. apply ei_frame; reflexivity.
  - intros Hw. destruct (scan_worker_fields t w s s' Hw) as (_ & Hh & Hr & Ht & Hc & Hl & _).
    apply ei_frame; assumption.
  - destruct (bool_decide (k ∈ closed s)); [discriminate|]. intros [= <-]. apply ei_start.
  - destruct (bool_decide (k ∈ closed s)); [discriminate|]. intros [= <-].
    apply ei_stop_running_tests.
  - destruct (bool_decide (k ∈ closed s)); [discriminate|]. intros [= <-].
    apply ei_on_result_window_close.
Qed.

Lemma ei_exec (ls : list label) (s s' : State) :
  exec read_csv py_int s ls = Some s' -> engine_inv s -> engine_inv s'.
Proof.
  revert s. induction ls as [|l ls IH]; intros s; cbn [exec].
  - intros [= <-]. auto.
  - destruct (step read_csv py_int s l) as [s1|] eqn:Hstep; [|discriminate].
    intros Hex H. eapply IH; [exact Hex|]. eapply ei_step; eassumption.
Qed.

(** X8.  At any moment, whatever was clicked, at most one run per tree has
    its stop flag clear, and it is the run registered for the tree: two run
    objects of the same tree that both count as running are one object. *)
Theorem one_running_run_per_tree :
  forall (ls : list label) (s : State) (r1 r2 : nat) (o1 o2 : ConnectivityRun),
    exec read_csv py_int init ls = Some s ->
    heap s !! r1 = Some o1 -> heap s !! r2 = Some o2 ->
    tree o1 = tree o2 ->
    stop_flag o1 = false -> stop_flag o2 = false ->
    r1 = r2 /\ registered s (tree o1) = Some (r1, o1).
Proof.
  intros ls s r1 r2 o1 o2 Hex Ho1 Ho2 Htree Hf1 Hf2.
  pose proof (ei_exec ls init s Hex ei_init) as [_ Hact _ _].
  pose proof (Hact r1 o1 Ho1 Hf1) as H1. pose proof (Hact r2 o2 Ho2 Hf2) as H2.
  rewrite <- Htree in H2. split; [congruence|].
  unfold registered. rewrite H1, Ho1. reflexivity.
Qed.

(** X9.  Every index dispatched for a run is an index of its task list,
    and so is the run's index (which stays 0 while nothing was dispatched):
    the index of a run never reaches the length of its task list. *)
Theorem dispatched_indices_in_range :
  forall (ls : list label) (s : State) (r : nat) (o : ConnectivityRun),
    exec read_csv py_int init ls = Some s ->
    heap s !! r = Some o ->
    Forall (fun i => (i < length (tasks o))%nat) (dispatched_of r (log s))
    /\ ((index o < length (tasks o))%nat
        \/ (index o = 0%nat /\ dispatched_of r (log s) = [])).
Proof.
  intros ls s r o Hex Ho.
  pose proof (ei_exec ls init s Hex ei_init) as [_ _ _ Hrange].
  specialize (Hrange r). rewrite Ho in Hrange. split; [exact Hrange|].
  pose proof (index_tracks_exec read_csv py_int ls init s Hex index_tracks_init r) as Hidx.
  rewrite Ho in Hidx.
  destruct (dispatched_of r (log s)) as [|i l] eqn:Hd using rev_ind.
  - right. split; [exact Hidx | reflexivity].
  - left. rewrite last_snoc in Hidx. cbn in Hidx. rewrite Hidx.
    apply Forall_app in Hrange. destruct Hrange as [_ Hi]. inversion Hi. assumption.
Qed.

(** X10.  As long as a window is open, the first three columns of its tree
    show the tasks of the run registered for it, row by row: marking a row
    as testing, writing a result and cancelling change the status column
    only. *)
Theorem tree_shows_registered_tasks :
  forall (ls : list label) (s : State) (k r : nat) (o : ConnectivityRun),
    exec read_csv py_int init ls = Some s ->
    k ∉ closed s ->
    registered s k = Some (r, o) ->
    map row_task (rows_of s k) = tasks o.
Proof.
  intros ls s k r o Hex Hk Hreg.
  pose proof (ei_exec ls init s Hex ei_init) as [_ _ Hrows _].
  eapply Hrows; eassumption.
Qed.

(** X11.  A worker thread writes no widget and no run object: a statement
    of [scan_worker] leaves the run objects, the registry, the rows of every
    tree and what the result surface has seen as they are, and the other
    threads too; what it wants done to the tree it hands to the event
    loop. *)
Theorem scan_worker_writes_no_widget :
  forall (t : nat) (w : World) (s s' : State),
    scan_worker t w s = Some s' ->
    heap s' = heap s /\ runs s' = runs s /\ trees s' = trees s /\ closed s' = closed s
    /\ log s' = log s
    /\ forall t', t' <> t -> threads s' !! t' = threads s !! t'.
Proof.
  intros t w s s' Hw.
  destruct (scan_worker_fields t w s s' Hw) as (_ & H). exact H.
Qed.

End ReachableFacts.

(** ** A closed window *)

Lemma silent_refl (k : nat) (s : State) : silent k s s.
Proof. repeat split. auto. Qed.

Lemma silent_trans (k : nat) (s1 s2 s3 : State) :
  silent k s1 s2 -> silent k s2 s3 -> silent k s1 s3.
Proof.
  intros (A1 & A2 & A3) (B1 & B2 & B3). repeat split; [auto | congruence | congruence].
Qed.

Lemma silent_fields (k : nat) (s s' : State) :
  closed s' = closed s -> trees s' !! k = trees s !! k -> log s' = log s -> silent k s s'.
Proof. intros Hc Ht Hl. unfold silent. rewrite Hc, Ht, Hl. auto. Qed.

Lemma notices_of_snoc (k : nat) (l : list event) (e : event) :
  notices_of k (l ++ [e]) = (notices_of k l ++ if is_notice k e then [e] else [])%list.
Proof. unfold notices_of. rewrite List.filter_app. cbn. destruct (is_notice k e); reflexivity. Qed.

(** A row of another tree is written and that tree notified. *)
Lemma silent_other_tree (k k0 : nat) (rows' : list Row) (e : event) (s : State) :
  k0 <> k -> is_notice k e = false ->
  silent k s (emit e (set_trees (<[k0 := rows']> (trees s)) s)).
Proof.
  intros Hne He. unfold silent, emit. cbn [closed trees log set_log set_trees].
  rewrite lookup_insert_ne by exact Hne. rewrite notices_of_snoc, He, app_nil_r. auto.
Qed.

Lemma silent_run_task_async (k : nat) (ts : list Task) (k0 i : nat) (src : option string)
    (delay_ms : Z) (s : State) :
  silent k s (run_task_async ts k0 i src delay_ms s).
Proof.
  unfold run_task_async.
  destruct (registered s k0) as [[r o]|]; [|apply silent_refl].
  destruct (stop_flag o || (length (tasks o) <=? i)%nat); [apply silent_refl|].
  unfold silent, emit. cbn [closed trees log set_log set_threads set_heap].
  rewrite notices_of_snoc. cbn [is_notice]. rewrite app_nil_r. auto.
Qed.

Lemma silent_set_testing (k r k0 i : nat) (s : State) :
  k ∈ closed s -> silent k s (set_testing r k0 i s).
Proof.
  intros Hk. unfold set_testing.
  destruct (heap s !! r) as [o|]; [|apply silent_refl].
  destruct (stop_flag o); [apply silent_refl|].
  destruct (bool_decide (k0 ∈ closed s)) eqn:Hc; [apply silent_refl|].
  apply bool_decide_eq_false_1 in Hc.
  destruct (rows_of s k0 !! i); [|apply silent_refl].
  assert (k0 <> k) as Hne by (intros ->; contradiction).
  apply silent_other_tree; [exact Hne|]. cbn. apply Nat.eqb_neq. exact Hne.
Qed.

Lemma silent_update_ui (k k0 i : nat) (status_text tag : string) (s : State) :
  k ∈ closed s -> silent k s (update_ui k0 i status_text tag s).
Proof.
  intros Hk. unfold update_ui.
  destruct (bool_decide (k0 ∈ closed s)) eqn:Hc; [apply silent_refl|].
  apply bool_decide_eq_false_1 in Hc.
  destruct (rows_of s k0 !! i); [|apply silent_refl].
  assert (k0 <> k) as Hne by (intros ->; contradiction).
  apply silent_other_tree; [exact Hne|]. cbn. apply Nat.eqb_neq. exact Hne.
Qed.

Lemma silent_stop_running_tests (k k0 : nat) (s : State) :
  k0 <> k -> silent k s (stop_running_tests k0 s).
Proof.
  intros Hne. unfold stop_running_tests.
  destruct (registered s k0) as [[r o]|]; [|apply silent_refl].
  apply silent_fields; [reflexivity | | reflexivity].
  cbn. apply lookup_insert_ne. exact Hne.
Qed.

Section ClosedFacts.

Variable read_csv : string -> fault + list csv_row.
Variable py_int : string -> option Z.

Lemma silent_start (k : nat) (csv_path : string) (k0 : nat) (src : option string)
    (delay_ms : Z) (s : State) :
  k ∈ closed s ->
  silent k s (fst (start_connectivity_check read_csv py_int csv_path k0 src delay_ms s)).
Proof.
  intros Hk. unfold start_connectivity_check.
  destruct (active_run s k0) as [[r o]|].
  - cbn [fst]. apply silent_fields; reflexivity.
  - destruct (load_tasks read_csv py_int csv_path) as [f|ts]; [apply silent_refl|].
    destruct (bool_decide (k0 ∈ closed s)) eqn:Hc; cbn [fst].
    + apply silent_fields; reflexivity.
    + apply bool_decide_eq_false_1 in Hc.
      assert (k0 <> k) as Hne by (intros ->; contradiction).
      eapply silent_trans; [|apply silent_run_task_async].
      apply silent_fields; [reflexivity | | reflexivity].
      cbn. apply lookup_insert_ne. exact Hne.
Qed.

Lemma silent_step (k : nat) (l : label) (s s' : State) :
  k ∈ closed s -> step read_csv py_int s l = Some s' -> silent k s s'.
Proof.
  intros Hk. destruct l as [ms| |t w|k0 csv_path src delay_ms|k0|k0]; cbn [step].
  - intros [= <-]. apply silent_fields; reflexivity.
  - destruct (timers s) as [|tm q]; [discriminate|].
    destruct (due tm <=? now s); [|discriminate]. intros [= <-].
    eapply silent_trans; [apply (silent_fields k s (set_timers q s)); reflexivity|].
    destruct (cb tm); cbn [run_callback].
    + apply silent_set_testing. exact Hk.
    + apply silent_update_ui. exact Hk.
    + apply silent_run_task_async.
    + apply silent_start. exact Hk.
  - intros Hw.
    destruct (scan_worker_fields t w s s' Hw) as (_ & _ & _ & Ht & Hc & Hl & _).
    apply silent_fields; [exact Hc | rewrite Ht; reflexivity | exact Hl].
  - destruct (bool_decide (k0 ∈ closed s)) eqn:Hc; [discriminate|]. intros [= <-].
    apply silent_start. exact Hk.
  - destruct (bool_decide (k0 ∈ closed s)) eqn:Hc; [discriminate|]. intros [= <-].
    apply bool_decide_eq_false_1 in Hc.
    apply silent_stop_running_tests. intros ->. contradiction.
  - destruct (bool_decide (k0 ∈ closed s)) eqn:Hc; [discriminate|]. intros [= <-].
    apply bool_decide_eq_false_1 in Hc.
    assert (k0 <> k) as Hne by (intros ->; contradiction).
    unfold _on_result_window_close.
    eapply silent_trans; [apply silent_stop_running_tests; exact Hne|].
    unfold silent. cbn [closed trees log set_closed set_timers].
    split; [|auto]. intros Hin. apply elem_of_union. right. exact Hin.
Qed.

(** X12.  Once a window is closed it stays closed, and whatever happens
    afterwards (probes of its run completing, callbacks coming due, other
    windows being used), no row of its tree is written any more and it is
    notified of nothing. *)
Theorem closed_window_is_silent :
  forall (k : nat) (ls : list label) (s s' : State),
    k ∈ closed s ->
    exec read_csv py_int s ls = Some s' ->
    k ∈ closed s'
    /\ rows_of s' k = rows_of s k
    /\ notices_of k (log s') = notices_of k (log s).
Proof.
  intros k ls. induction ls as [|l ls IH]; intros s s' Hk; cbn [exec].
  - intros [= <-]. auto.
  - destruct (step read_csv py_int s l) as [s1|] eqn:Hstep; [|discriminate].
    intros Hex. destruct (silent_step k l s s1 Hk Hstep) as (Hc & Ht & Hn).
    destruct (IH s1 s' (Hc Hk) Hex) as (Hc' & Hr' & Hn').
    split; [exact Hc'|]. split; [|congruence].
    rewrite Hr'. unfold rows_of. rewrite Ht. reflexivity.
Qed.

End ClosedFacts.

(** ** Stopping *)

Lemma cancel_row_twice (r : Row) : cancel_row (cancel_row r) = cancel_row r.
Proof.
  unfold cancel_row.
  destruct (String.eqb (r_status r) "Testing" || String.eqb (r_status r) "Not tested")
    eqn:E.
  - reflexivity.
  - rewrite E. reflexivity.
Qed.

(** X13.  Clicking Stop twice is clicking it once: the second
    [stop_running_tests] changes nothing. *)
Theorem stop_running_tests_twice :
  forall (k : nat) (s : State),
    stop_running_tests k (stop_running_tests k s) = stop_running_tests k s.
Proof.
  intros k s. destruct (registered s k) as [[r o]|] eqn:Hreg.
  - destruct (registered_Some s k r o Hreg) as [Hruns Ho].
    assert (r < length (heap s))%nat as Hlt by (eapply lookup_lt_Some; exact Ho).
    assert (stop_running_tests k s
            = stop_run r o (set_trees (<[k := map cancel_row (rows_of s k)]> (trees s)) s))
      as Hs1 by (unfold stop_running_tests; rewrite Hreg; reflexivity).
    rewrite Hs1.
    set (s1 := stop_run r o _).
    assert (registered s1 k = Some (r, stop o)) as Hreg1.
    { unfold registered. subst s1. cbn. rewrite Hruns, list_lookup_insert_eq by exact Hlt.
      reflexivity. }
    assert (rows_of s1 k = map cancel_row (rows_of s k)) as Hrows1.
    { unfold rows_of at 1. subst s1. cbn. rewrite lookup_insert_eq. reflexivity. }
    unfold stop_running_tests. rewrite Hreg1, Hrows1.
    rewrite map_map, (map_ext _ cancel_row) by (intros a; apply cancel_row_twice).
    subst s1. unfold stop_run, set_heap, set_trees. cbn.
    rewrite insert_insert_eq, list_insert_insert_eq. reflexivity.
  - unfold stop_running_tests. rewrite Hreg. rewrite Hreg. reflexivity.
Qed.

(** X14.  Stop, with a run registered for the tree, sets the stop flag of
    that run, keeps its index, keeps the number of rows and their first
    three columns, marks the rows that read "Testing" or "Not tested" as
    "Cancelled", and leaves the rows that already show a result as they
    are. *)
Theorem stop_cancels_unfinished_rows :
  forall (k r : nat) (o : ConnectivityRun) (s : State),
    registered s k = Some (r, o) ->
    registered (stop_running_tests k s) k = Some (r, stop o)
    /\ index (stop o) = index o
    /\ length (rows_of (stop_running_tests k s) k) = length (rows_of s k)
    /\ forall (i : nat) (row : Row),
         rows_of s k !! i = Some row ->
         exists row',
           rows_of (stop_running_tests k s) k !! i = Some row'
           /\ row_task row' = row_task row
           /\ (r_status row = "Testing" \/ r_status row = "Not tested" ->
               r_status row' = "Cancelled" /\ r_tag row' = "cancelled")
           /\ (r_status row <> "Testing" -> r_status row <> "Not tested" -> row' = row).
Proof.
  intros k r o s Hreg.
  destruct (registered_Some s k r o Hreg) as [Hruns Ho].
  assert (r < length (heap s))%nat as Hlt by (eapply lookup_lt_Some; exact Ho).
  unfold stop_running_tests. rewrite Hreg.
  assert (rows_of (stop_run r o (set_trees (<[k := map cancel_row (rows_of s k)]> (trees s)) s)) k
          = map cancel_row (rows_of s k)) as Hrows.
  { unfold rows_of at 1. cbn. rewrite lookup_insert_eq. reflexivity. }
  rewrite Hrows. split; [|split; [reflexivity | split; [apply length_map|]]].
  - unfold registered. cbn. rewrite Hruns, list_lookup_insert_eq by exact Hlt. reflexivity.
  - intros i row Hrow. exists (cancel_row row).
    split.
    { change (map cancel_row (rows_of s k)) with (cancel_row <$> rows_of s k).
      rewrite list_lookup_fmap, Hrow. reflexivity. }
    unfold cancel_row.
    destruct (String.eqb_spec (r_status row) "Testing") as [E1 | E1];
      destruct (String.eqb_spec (r_status row) "Not tested") as [E2 | E2]; cbn [orb];
      (split; [reflexivity | split]).
    all: first [ intros _; split; reflexivity
               | intros [H | H]; contradiction
               | intros H1 H2; contradiction
               | intros _ _; reflexivity ].
Qed.

(** ** A request whose file cannot be read *)

(** X15.  A request on a key whose run is going stops that run before the
    file is looked at: when the file cannot be read (or a row of it cannot
    be loaded), the request still raises no fault and the run is stopped;
    the fault is raised by the request made again later, which changes
    nothing, so that the key is left with no run going. *)
Theorem unreadable_file_stops_the_run :
  forall (read_csv : string -> fault + list csv_row) (py_int : string -> option Z)
         (csv_path : string) (k : nat) (src : option string) (delay_ms : Z)
         (s : State) (r : nat) (o : ConnectivityRun) (f : fault),
    active_run s k = Some (r, o) ->
    load_tasks read_csv py_int csv_path = inl f ->
    snd (start_connectivity_check read_csv py_int csv_path k src delay_ms s) = None
    /\ registered (fst (start_connectivity_check read_csv py_int csv_path k src delay_ms s)) k
       = Some (r, stop o)
    /\ active_run (fst (start_connectivity_check read_csv py_int csv_path k src delay_ms s)) k
       = None
    /\ forall s2,
         active_run s2 k = None ->
         start_connectivity_check read_csv py_int csv_path k src delay_ms s2 = (s2, Some f).
Proof.
  intros read_csv py_int csv_path k src delay_ms s r o f Hact Hload.
  destruct (active_run_Some s k r o Hact) as [Hreg Hflag].
  destruct (registered_Some s k r o Hreg) as [Hruns Ho].
  assert (registered (fst (start_connectivity_check read_csv py_int csv_path k src delay_ms s)) k
          = Some (r, stop o)) as Hreg'.
  { unfold start_connectivity_check. rewrite Hact. unfold registered. cbn.
    rewrite Hruns, list_lookup_insert_eq by (eapply lookup_lt_Some; exact Ho). reflexivity. }
  split; [unfold start_connectivity_check; rewrite Hact; reflexivity|].
  split; [exact Hreg'|]. split.
  - unfold active_run. rewrite Hreg'. reflexivity.
  - intros s2 H2. unfold start_connectivity_check. rewrite H2, Hload. reflexivity.
Qed.

(** ** What a row can show after a probe *)

(** X16.  The status [scan_worker] computes from a probe is "SUCCESSFUL (n
    ms)" with the tag "successful", or, with the tag "unsuccessful", the
    text "UNSUCCESSFUL" or a text that starts with "Error: ". *)
Theorem probe_status_forms :
  forall (w : World) (dest_ip : string) (dest_port : Z) (source_ip : option string)
         (st : os_state),
    status_of (fst (_connect_to_host w dest_ip dest_port source_ip st))
      = (("SUCCESSFUL (" ++ str_of_int (elapsed_millis w) ++ " ms)")%string, "successful")
    \/ status_of (fst (_connect_to_host w dest_ip dest_port source_ip st))
       = ("UNSUCCESSFUL", "unsuccessful")
    \/ exists msg,
         status_of (fst (_connect_to_host w dest_ip dest_port source_ip st))
           = (("Error: " ++ msg)%string, "unsuccessful").
Proof.
  intros w ip port src st.
  destruct (probe_ends w ip port src st) as [[code H] | [[msg H] | [msg H]]]; rewrite H;
    cbn [fst].
  - destruct (code =? 0); [left | right; left]; reflexivity.
  - right. right. exists msg. reflexivity.
  - right. right. exists msg. reflexivity.
Qed.

(** ** The manual test *)

Lemma split_on_not_nil (sep : ascii) (s : string) : split_on sep s <> [].
Proof.
  destruct s as [|c s]; cbn; [discriminate|].
  destruct (Ascii.eqb c sep); [discriminate|].
  destruct (split_on sep s); discriminate.
Qed.

Lemma split_on_one (sep : ascii) (s a : string) :
  split_on sep s = [a] <-> s = a /\ has_char sep s = false.
Proof.
  revert a. induction s as [|c s IH]; intros a; cbn.
  - split; [intros [= <-]; auto | intros [<- _]; reflexivity].
  - destruct (Ascii.eqb c sep) eqn:E; cbn.
    + split; [|intros [_ H]; discriminate].
      intros H. injection H as _ H. exfalso. eapply split_on_not_nil. exact H.
    + destruct (split_on sep s) as [|x xs] eqn:Hs.
      { exfalso. eapply split_on_not_nil. exact Hs. }
      split.
      * intros [= <- ->]. destruct (proj1 (IH x) eq_refl) as [-> Hn]. auto.
      * intros [<- Hn]. pose proof (proj2 (IH s) (conj eq_refl Hn)) as H1.
        injection H1 as -> ->. reflexivity.
Qed.

(** Splitting gives two pieces exactly when the separator occurs once; the
    pieces are what stands before and after it. *)
Lemma split_on_two (sep : ascii) (s a b : string) :
  split_on sep s = [a; b]
  <-> s = (a ++ String sep b)%string /\ has_char sep a = false /\ has_char sep b = false.
Proof.
  revert a. induction s as [|c s IH]; intros a; cbn.
  - split; [discriminate|]. intros [H _]. destruct a; discriminate.
  - destruct (Ascii.eqb_spec c sep) as [-> | Hne].
    + split.
      * intros [= <- H]. apply split_on_one in H. destruct H as [-> Hn]. auto.
      * intros (H & Ha & Hb). destruct a as [|c' a].
        -- cbn in H. injection H as ->. f_equal. apply split_on_one. auto.
        -- cbn in H, Ha. injection H as <- _. rewrite Ascii.eqb_refl in Ha. discriminate.
    + destruct (split_on sep s) as [|x xs] eqn:Hs.
      { exfalso. eapply split_on_not_nil. exact Hs. }
      split.
      * intros [= <- ->]. destruct (proj1 (IH x) eq_refl) as (-> & Ha & Hb).
        cbn. destruct (Ascii.eqb_spec c sep); [contradiction|]. auto.
      * intros (H & Ha & Hb). destruct a as [|c' a].
        -- cbn in H. injection H as -> _. contradiction.
        -- cbn in H, Ha. injection H as <- ->.
           apply orb_false_iff in Ha. destruct Ha as [_ Ha].
           pose proof (proj2 (IH a) (conj eq_refl (conj Ha Hb))) as H1.
           injection H1 as -> ->. reflexivity.
Qed.

(** X17.  The manual test probes exactly when the entry, stripped, is a
    host part and a port part with one colon between them and no other
    colon, and the port part is an integer; it then probes that host (which
    may be empty) on that port (whatever its range) from the selected
    source.  An entry with two colons or more, such as an IPv6 address, is
    a format error. *)
Theorem manual_test_probes_iff :
  forall (py_strip : string -> string) (py_int : string -> option Z)
         (entry source_ip dest_ip source_ip' : string) (dest_port : Z),
    _run_manual py_strip py_int entry source_ip = ManualProbe dest_ip dest_port source_ip'
    <-> source_ip' = source_ip
        /\ exists port_part,
             py_strip entry = (dest_ip ++ String ":" port_part)%string
             /\ has_char ":" dest_ip = false
             /\ has_char ":" port_part = false
             /\ py_int port_part = Some dest_port.
Proof.
  intros py_strip py_int entry src ip src' port. unfold _run_manual.
  destruct (String.eqb_spec (py_strip entry) EmptyString) as [E | E].
  - split; [discriminate|]. intros (_ & pp & H & _). rewrite E in H.
    destruct ip; discriminate.
  - destruct (split_on ":" (py_strip entry)) as [|a [|b [|c l]]] eqn:Hs.
    + split; [discriminate|]. intros (_ & pp & H & Ha & Hb & _).
      pose proof (proj2 (split_on_two ":" (py_strip entry) ip pp) (conj H (conj Ha Hb))).
      congruence.
    + split; [discriminate|]. intros (_ & pp & H & Ha & Hb & _).
      pose proof (proj2 (split_on_two ":" (py_strip entry) ip pp) (conj H (conj Ha Hb))).
      congruence.
    + apply split_on_two in Hs. destruct Hs as (Hs & Ha & Hb).
      destruct (py_int b) as [p|] eqn:Hp.
      * split.
        -- intros [= <- <- <-]. split; [reflexivity|]. exists b. auto.
        -- intros (-> & pp & H & Ha' & Hb' & Hp').
           pose proof (proj2 (split_on_two ":" (py_strip entry) ip pp)
                         (conj H (conj Ha' Hb'))) as H1.
           pose proof (proj2 (split_on_two ":" (py_strip entry) a b)
                         (conj Hs (conj Ha Hb))) as H2.
           rewrite H1 in H2. injection H2 as <- <-. congruence.
      * split; [discriminate|].
        intros (_ & pp & H & Ha' & Hb' & Hp').
        pose proof (proj2 (split_on_two ":" (py_strip entry) ip pp)
                      (conj H (conj Ha' Hb'))) as H1.
        pose proof (proj2 (split_on_two ":" (py_strip entry) a b)
                      (conj Hs (conj Ha Hb))) as H2.
        rewrite H1 in H2. injection H2 as <- <-. congruence.
    + split; [discriminate|]. intros (_ & pp & H & Ha & Hb & _).
      pose proof (proj2 (split_on_two ":" (py_strip entry) ip pp) (conj H (conj Ha Hb))).
      congruence.
Qed.

(** ** The addresses of the machine and the dropdowns *)

Lemma span_digits_run (s run rest : string) :
  span_digits s = (run, rest) -> span_digits run = (run, EmptyString).
Proof.
  revert run rest. induction s as [|c s IH]; intros run rest; cbn [span_digits].
  - intros [= <- <-]. reflexivity.
  - destruct (is_digit c) eqn:Hc.
    + destruct (span_digits s) as [run' rest'] eqn:Hs. intros [= <- <-].
      cbn [span_digits]. rewrite Hc, (IH run' rest' eq_refl). reflexivity.
    + intros [= <- <-]. reflexivity.
Qed.

Lemma digits_dot_Some (s a rest : string) :
  digits_dot s = Some (a, rest) -> all_digits a = true.
Proof.
  unfold digits_dot, all_digits.
  destruct (span_digits s) as [run r] eqn:Hs.
  destruct run as [|c run]; [discriminate|].
  destruct r as [|x r]; [discriminate|].
  destruct x as [[] [] [] [] [] [] [] []]; try discriminate.
  intros [= <- <-]. rewrite (span_digits_run _ _ _ Hs). reflexivity.
Qed.

Lemma match_quad_shape (s ip : string) : match_quad s = Some ip -> dotted_quad ip.
Proof.
  unfold match_quad.
  destruct (digits_dot s) as [[a s1]|] eqn:H1; [|discriminate].
  destruct (digits_dot s1) as [[b s2]|] eqn:H2; [|discriminate].
  destruct (digits_dot s2) as [[c s3]|] eqn:H3; [|discriminate].
  destruct (span_digits s3) as [d rest] eqn:H4.
  destruct d as [|x d]; [discriminate|]. intros [= <-].
  exists a, b, c, (String x d). split; [reflexivity|].
  split; [eapply digits_dot_Some; exact H1|].
  split; [eapply digits_dot_Some; exact H2|].
  split; [eapply digits_dot_Some; exact H3|].
  unfold all_digits. rewrite (span_digits_run _ _ _ H4). reflexivity.
Qed.

Lemma search_quad_shape (s ip : string) : search_quad s = Some ip -> dotted_quad ip.
Proof.
  induction s as [|c s IH]; cbn [search_quad].
  - destruct (match_quad EmptyString) eqn:H; [|discriminate].
    intros [= <-]. eapply match_quad_shape. exact H.
  - destruct (match_quad (String c s)) eqn:H.
    + intros [= <-]. eapply match_quad_shape. exact H.
    + exact IH.
Qed.

(** X18.  Every address [get_machine_ipv4_addresses] returns is four runs
    of digits with dots between them (of any length and value: "999.1.1.1"
    passes); there is at most one per line of the output, and none when
    [ipconfig] could not be run. *)
Theorem ipv4_addresses_are_dotted_quads :
  forall (ipconfig : option (list string)),
    Forall dotted_quad (get_machine_ipv4_addresses ipconfig)
    /\ (length (get_machine_ipv4_addresses ipconfig) <= length (default [] ipconfig))%nat
    /\ get_machine_ipv4_addresses None = [].
Proof.
  intros [lines|]; cbn [get_machine_ipv4_addresses default from_option id].
  2:{ repeat split; [constructor | cbn; lia]. }
  split; [|split; [|reflexivity]].
  - induction lines as [|line lines IH]; cbn [flat_map]; [constructor|].
    apply Forall_app. split; [|exact IH].
    unfold ipv4_of_line. destruct (contains "IPv4 Address" line); [|constructor].
    destruct (search_quad line) as [ip|] eqn:H; [|constructor].
    repeat constructor. eapply search_quad_shape. exact H.
  - induction lines as [|line lines IH]; cbn [flat_map]; [cbn; lia|].
    rewrite length_app. cbn [length].
    assert (length (ipv4_of_line line) <= 1)%nat as H1.
    { unfold ipv4_of_line. destruct (contains "IPv4 Address" line); [|cbn; lia].
      destruct (search_quad line); cbn; lia. }
    lia.
Qed.

Lemma existsb_eqb_In (x : string) (l : list string) :
  existsb (String.eqb x) l = true <-> In x l.
Proof.
  rewrite existsb_exists. split.
  - intros (y & Hy & E). apply String.eqb_eq in E. subst y. exact Hy.
  - intros H. exists x. split; [exact H | apply String.eqb_refl].
Qed.

(** X19.  After [refresh_ip_dropdowns] every dropdown lists the addresses
    found, and its text is one of them, or empty when none was found; a
    text that is still one of the addresses is kept, any other is replaced
    by the first address. *)
Theorem refreshed_dropdown_shows_an_address :
  forall (ipconfig : option (list string)) (combos : list Combobox) (i : nat)
         (cb : Combobox),
    combos !! i = Some cb ->
    exists cb',
      refresh_ip_dropdowns ipconfig combos !! i = Some cb'
      /\ cb_values cb' = get_machine_ipv4_addresses ipconfig
      /\ (In (cb_get cb') (cb_values cb')
          \/ (cb_values cb' = [] /\ cb_get cb' = EmptyString))
      /\ (In (cb_get cb) (get_machine_ipv4_addresses ipconfig) -> cb_get cb' = cb_get cb)
      /\ (~ In (cb_get cb) (get_machine_ipv4_addresses ipconfig) ->
          cb_get cb' = hd EmptyString (get_machine_ipv4_addresses ipconfig)).
Proof.
  intros ipconfig combos i cb Hcb. unfold refresh_ip_dropdowns.
  set (ips := get_machine_ipv4_addresses ipconfig).
  exists (refresh_combo ips cb). split.
  { change (map (refresh_combo ips) combos) with (refresh_combo ips <$> combos).
    rewrite list_lookup_fmap, Hcb. reflexivity. }
  split; [reflexivity|]. unfold refresh_combo. cbn [cb_get cb_values].
  destruct (existsb (String.eqb (cb_get cb)) ips) eqn:E.
  - apply existsb_eqb_In in E. repeat split; auto. intros H. contradiction.
  - assert (~ In (cb_get cb) ips) as Hn.
    { intros H. apply existsb_eqb_In in H. congruence. }
    split; [|split; [intros H; contradiction | intros _; destruct ips; reflexivity]].
    destruct ips as [|ip ips']; [right; auto | left; left; reflexivity].
Qed.

(** X20.  Refreshing the dropdowns twice on the same output of [ipconfig]
    is refreshing them once. *)
Theorem refresh_ip_dropdowns_twice :
  forall (ipconfig : option (list string)) (combos : list Combobox),
    refresh_ip_dropdowns ipconfig (refresh_ip_dropdowns ipconfig combos)
      = refresh_ip_dropdowns ipconfig combos.
Proof.
  intros ipconfig combos. unfold refresh_ip_dropdowns.
  set (ips := get_machine_ipv4_addresses ipconfig).
  rewrite map_map. apply map_ext. intros cb. unfold refresh_combo. cbn [cb_get cb_values].
  destruct (existsb (String.eqb (cb_get cb)) ips) eqn:E.
  - rewrite E. reflexivity.
  - destruct ips as [|ip ips']; [reflexivity|].
    cbn [existsb]. rewrite String.eqb_refl. reflexivity.
Qed.

(** ** The grid of buttons *)

(** X21.  With [n] buttons, button [i] is put in a row from 1 to the
    number of rows the window height is computed from, in column 0 or 1; no
    two buttons share a cell; and the last button is in the last row. *)
Theorem buttons_fill_the_counted_rows :
  forall (n i j : Z),
    0 <= i < n -> 0 <= j < n ->
    1 <= fst (button_cell i) <= num_rows n
    /\ 0 <= snd (button_cell i) < cols_per_row
    /\ (button_cell i = button_cell j -> i = j)
    /\ fst (button_cell (n - 1)) = num_rows n.
Proof.
  intros n i j Hi Hj. unfold button_cell, num_rows, cols_per_row. cbn [fst snd].
  pose proof (Z.div_mod i 2 ltac:(lia)) as Di.
  pose proof (Z.mod_pos_bound i 2 ltac:(lia)) as Mi.
  pose proof (Z.div_mod j 2 ltac:(lia)) as Dj.
  pose proof (Z.mod_pos_bound j 2 ltac:(lia)) as Mj.
  pose proof (Z.div_mod (n + 2 - 1) 2 ltac:(lia)) as Dn.
  pose proof (Z.mod_pos_bound (n + 2 - 1) 2 ltac:(lia)) as Mn.
  pose proof (Z.div_mod (n - 1) 2 ltac:(lia)) as Dl.
  pose proof (Z.mod_pos_bound (n - 1) 2 ltac:(lia)) as Ml.
  repeat split; try lia.
  intros [= H1 H2]. lia.
Qed.

Lemma buttons_fill_the_counted_rows_witness :
  1 <= fst (button_cell 2) <= num_rows 3
  /\ 0 <= snd (button_cell 2) < cols_per_row
  /\ (button_cell 2 = button_cell 0 -> 2 = 0)
  /\ fst (button_cell (3 - 1)) = num_rows 3.
Proof.
  apply (buttons_fill_the_counted_rows 3 2 0); lia.
Defined.

Lemma refreshed_dropdown_shows_an_address_witness :
  exists cb',
    refresh_ip_dropdowns (Some ipconfig_output) [stale_combo] !! 0%nat = Some cb'
    /\ cb_values cb' = get_machine_ipv4_addresses (Some ipconfig_output)
    /\ (In (cb_get cb') (cb_values cb')
        \/ (cb_values cb' = [] /\ cb_get cb' = EmptyString))
    /\ (In (cb_get stale_combo) (get_machine_ipv4_addresses (Some ipconfig_output)) ->
        cb_get cb' = cb_get stale_combo)
    /\ (~ In (cb_get stale_combo) (get_machine_ipv4_addresses (Some ipconfig_output)) ->
        cb_get cb' = hd EmptyString (get_machine_ipv4_addresses (Some ipconfig_output))).
Proof.
  apply (refreshed_dropdown_shows_an_address (Some ipconfig_output) [stale_combo] 0
           stale_combo).
  reflexivity.
Defined.

(** ** The further properties at concrete inputs *)

Lemma one_running_run_per_tree_witness :
  1%nat = 1%nat
  /\ registered (sample_exec init stop_then_test) (tree replacement_run)
     = Some (1%nat, replacement_run).
Proof.
  apply (one_running_run_per_tree sample_files int_of_decimal stop_then_test
           (sample_exec init stop_then_test) 1 1 replacement_run replacement_run).
  - vm_compute. reflexivity.
  - vm_compute. reflexivity.
  - vm_compute. reflexivity.
  - reflexivity.
  - reflexivity.
  - reflexivity.
Defined.

Lemma dispatched_indices_in_range_witness :
  Forall (fun i => (i < length (tasks replacement_run))%nat)
    (dispatched_of 1 (log (sample_exec init stop_then_test)))
  /\ ((index replacement_run < length (tasks replacement_run))%nat
      \/ (index replacement_run = 0%nat
          /\ dispatched_of 1 (log (sample_exec init stop_then_test)) = [])).
Proof.
  apply (dispatched_indices_in_range sample_files int_of_decimal stop_then_test
           (sample_exec init stop_then_test) 1 replacement_run).
  - vm_compute. reflexivity.
  - vm_compute. reflexivity.
Defined.

Lemma tree_shows_registered_tasks_witness :
  map row_task (rows_of (sample_exec init stop_then_test) 7) = tasks replacement_run.
Proof.
  apply (tree_shows_registered_tasks sample_files int_of_decimal stop_then_test
           (sample_exec init stop_then_test) 7 1 replacement_run).
  - vm_compute. reflexivity.
  - vm_compute. discriminate.
  - vm_compute. reflexivity.
Defined.

Lemma scan_worker_writes_no_widget_witness :
  heap (sample_exec just_started [Work 0 w_up]) = heap just_started
  /\ runs (sample_exec just_started [Work 0 w_up]) = runs just_started
  /\ trees (sample_exec just_started [Work 0 w_up]) = trees just_started
  /\ closed (sample_exec just_started [Work 0 w_up]) = closed just_started
  /\ log (sample_exec just_started [Work 0 w_up]) = log just_started
  /\ forall t', t' <> 0%nat ->
       threads (sample_exec just_started [Work 0 w_up]) !! t' = threads just_started !! t'.
Proof.
  apply (scan_worker_writes_no_widget 0 w_up just_started
           (sample_exec just_started [Work 0 w_up])).
  vm_compute. reflexivity.
Defined.

Lemma closed_window_is_silent_witness :
  7%nat ∈ closed (sample_exec closed_mid_probe after_closing)
  /\ rows_of (sample_exec closed_mid_probe after_closing) 7 = rows_of closed_mid_probe 7
  /\ notices_of 7 (log (sample_exec closed_mid_probe after_closing))
     = notices_of 7 (log closed_mid_probe).
Proof.
  apply (closed_window_is_silent sample_files int_of_decimal 7 after_closing
           closed_mid_probe (sample_exec closed_mid_probe after_closing)).
  - vm_compute. reflexivity.
  - vm_compute. reflexivity.
Defined.

Lemma stop_cancels_unfinished_rows_witness :
  registered (stop_running_tests 7 just_started) 7
    = Some (0%nat, stop (the_run 7 two_tasks None 0))
  /\ index (stop (the_run 7 two_tasks None 0)) = index (the_run 7 two_tasks None 0)
  /\ length (rows_of (stop_running_tests 7 just_started) 7) = length (rows_of just_started 7)
  /\ forall (i : nat) (row : Row),
       rows_of just_started 7 !! i = Some row ->
       exists row',
         rows_of (stop_running_tests 7 just_started) 7 !! i = Some row'
         /\ row_task row' = row_task row
         /\ (r_status row = "Testing" \/ r_status row = "Not tested" ->
             r_status row' = "Cancelled" /\ r_tag row' = "cancelled")
         /\ (r_status row <> "Testing" -> r_status row <> "Not tested" -> row' = row).
Proof.
  apply (stop_cancels_unfinished_rows 7 0 (the_run 7 two_tasks None 0) just_started).
  vm_compute. reflexivity.
Defined.

Lemma unreadable_file_stops_the_run_witness :
  snd (start_connectivity_check sample_files int_of_decimal "gone.csv" 7 None 100
         just_started) = None
  /\ registered (fst (start_connectivity_check sample_files int_of_decimal "gone.csv" 7
                        None 100 just_started)) 7
     = Some (0%nat, stop (the_run 7 two_tasks None 0))
  /\ active_run (fst (start_connectivity_check sample_files int_of_decimal "gone.csv" 7
                        None 100 just_started)) 7
     = None
  /\ forall s2,
       active_run s2 7 = None ->
       start_connectivity_check sample_files int_of_decimal "gone.csv" 7 None 100 s2
         = (s2, Some (OSError "No such file or directory")).
Proof.
  apply (unreadable_file_stops_the_run sample_files int_of_decimal "gone.csv" 7 None 100
           just_started 0 (the_run 7 two_tasks None 0)
           (OSError "No such file or directory")).
  - vm_compute. reflexivity.
  - reflexivity.
Defined.

(** ** What the rows read, and where the results come from *)

Lemma probed_result_text (ts : list Task) (i : nat) (src : option string)
    (status_text tag : string) :
  probed ts i src status_text tag -> result_text status_text tag.
Proof.
  intros (w & desc & ip & port & st & _ & Hst). revert Hst.
  destruct (probe_ends w ip port src st)
    as [[code H] | [[msg H] | [msg H]]]; rewrite H; cbn [fst].
  - destruct (code =? 0); cbn; intros [= <- <-].
    + left. exists (elapsed_millis w). auto.
    + right. left. auto.
  - cbn. intros [= <- <-]. right. right. exists msg. auto.
  - cbn. intros [= <- <-]. right. right. exists msg. auto.
Qed.

Lemma result_text_not_waiting (status_text tag : string) :
  result_text status_text tag -> status_text <> "Testing" /\ status_text <> "Cancelled".
Proof.
  intros [(n & -> & _) | [[-> _] | (msg & -> & _)]]; split; discriminate.
Qed.

Lemma In_enqueue (t x : timer) (q : list timer) :
  In t (enqueue x q) -> t = x \/ In t q.
Proof.
  induction q as [|u q IH]; cbn [enqueue].
  - intros [<- | []]. auto.
  - destruct (due x <? due u).
    + intros [<- | H]; auto.
    + intros [<- | H]; [right; left; reflexivity|].
      destruct (IH H) as [-> | H']; [auto | right; right; exact H'].
Qed.

Lemma In_insert {A} (l : list A) (i : nat) (x y : A) :
  In y (<[i := x]> l) -> y = x \/ In y l.
Proof.
  revert i. induction l as [|a l IH]; intros [|i]; cbn; auto.
  - intros [<- | H]; auto.
  - intros [<- | H]; auto. destruct (IH i H); auto.
Qed.

(** *** Run objects stay *)

Lemma heap_keeps_refl (h : list ConnectivityRun) : heap_keeps h h.
Proof. intros r o H. exists o. auto. Qed.

Lemma heap_keeps_trans (h1 h2 h3 : list ConnectivityRun) :
  heap_keeps h1 h2 -> heap_keeps h2 h3 -> heap_keeps h1 h3.
Proof.
  intros H12 H23 r o H. destruct (H12 r o H) as (o2 & H2 & Ht & Hts & Hs).
  destruct (H23 r o2 H2) as (o3 & H3 & Ht' & Hts' & Hs').
  exists o3. repeat split; congruence.
Qed.

Lemma heap_keeps_insert (h : list ConnectivityRun) (r : nat) (o o' : ConnectivityRun) :
  h !! r = Some o -> tree o' = tree o -> tasks o' = tasks o -> source_ip o' = source_ip o ->
  heap_keeps h (<[r := o']> h).
Proof.
  intros Hr Ht Hts Hs r0 o0 H0. destruct (Nat.eq_dec r r0) as [<- | Hne].
  - exists o'. rewrite list_lookup_insert_eq by (eapply lookup_lt_Some; exact Hr).
    assert (o0 = o) as -> by congruence. auto.
  - exists o0. rewrite list_lookup_insert_ne by exact Hne. auto.
Qed.

Lemma heap_keeps_app (h : list ConnectivityRun) (o : ConnectivityRun) :
  heap_keeps h (h ++ [o]).
Proof.
  intros r o0 H0. exists o0. rewrite lookup_app_l by (eapply lookup_lt_Some; exact H0). auto.
Qed.

Lemma registered_heap (s : State) (k r : nat) (o : ConnectivityRun) :
  registered s k = Some (r, o) -> heap s !! r = Some o.
Proof.
  unfold registered. destruct (runs s !! k) as [r0|]; [|discriminate].
  destruct (heap s !! r0) as [o0|] eqn:H; [|discriminate]. intros [= <- <-]. exact H.
Qed.

Lemma has_origin_keeps (h h' : list ConnectivityRun) (k : nat) (ts : list Task)
    (src : option string) :
  heap_keeps h h' -> has_origin h k ts src -> has_origin h' k ts src.
Proof.
  intros Hk (r & o & Hr & Ht & Hts & Hs). destruct (Hk r o Hr) as (o' & Hr' & Ht' & Hts' & Hs').
  exists r, o'. repeat split; congruence.
Qed.

Lemma run_probed_keeps (h h' : list ConnectivityRun) (k i : nat) (status_text tag : string) :
  heap_keeps h h' -> run_probed h k i status_text tag -> run_probed h' k i status_text tag.
Proof.
  intros Hk (ts & src & Ho & Hp). exists ts, src. split; [|exact Hp].
  eapply has_origin_keeps; eassumption.
Qed.

Lemma callback_ok_keeps (h h' : list ConnectivityRun) (c : callback) :
  heap_keeps h h' -> callback_ok h c -> callback_ok h' c.
Proof.
  intros Hk. destruct c; cbn [callback_ok]; auto.
  - apply run_probed_keeps. exact Hk.
  - apply has_origin_keeps. exact Hk.
Qed.

Lemma worker_ok_keeps (h h' : list ConnectivityRun) (wk : Worker) :
  heap_keeps h h' -> worker_ok h wk -> worker_ok h' wk.
Proof.
  intros Hk [Ho Hp]. split; [|exact Hp]. eapply has_origin_keeps; eassumption.
Qed.

Lemma worker_ok_at_pc (h : list ConnectivityRun) (wk : Worker) (p : pc) :
  worker_ok h wk ->
  (forall status_text tag,
     p = AtUpdate status_text tag ->
     probed (w_tasks wk) (w_index wk) (w_source wk) status_text tag) ->
  worker_ok h (at_pc p wk).
Proof. intros [Ho _] Hp. split; [exact Ho | exact Hp]. Qed.

(** *** The invariant *)

Lemma ro_frame (s s' : State) :
  heap_keeps (heap s) (heap s') ->
  threads s' = threads s -> timers s' = timers s -> trees s' = trees s -> log s' = log s ->
  results_ok s -> results_ok s'.
Proof.
  intros Hk Hth Htm Htr Hl [H1 H2 H3 H4]. constructor.
  - rewrite Hth. intros wk Hin. eapply worker_ok_keeps; [exact Hk | auto].
  - rewrite Htm. intros t Hin. eapply callback_ok_keeps; [exact Hk | auto].
  - rewrite Hl. intros k i st Hin. destruct (H3 k i st Hin) as [tg Hp].
    exists tg. eapply run_probed_keeps; eassumption.
  - unfold rows_of. rewrite Htr. intros k i row Hrow.
    destruct (H4 k i row Hrow) as [Hw | Hp]; [left; exact Hw|].
    right. eapply run_probed_keeps; eassumption.
Qed.

Lemma ro_init : results_ok init.
Proof.
  constructor.
  - intros wk [].
  - intros t [].
  - intros k i st [].
  - intros k i row H. unfold rows_of in H. cbn in H. rewrite lookup_empty in H.
    discriminate.
Qed.

Lemma ro_after (ms : Z) (c : callback) (s : State) :
  callback_ok (heap s) c -> results_ok s -> results_ok (after ms c s).
Proof.
  intros Hc [H1 H2 H3 H4]. constructor; try assumption.
  intros t Hin. cbn in Hin. apply In_enqueue in Hin.
  destruct Hin as [-> | Hin]; [exact Hc | apply H2; exact Hin].
Qed.

Lemma ro_set_worker (t : nat) (wk : Worker) (s : State) :
  worker_ok (heap s) wk -> results_ok s -> results_ok (set_worker t wk s).
Proof.
  intros Hwk [H1 H2 H3 H4]. constructor; try assumption.
  intros wk0 Hin. cbn in Hin. apply In_insert in Hin.
  destruct Hin as [-> | Hin]; [exact Hwk | apply H1; exact Hin].
Qed.

Lemma ro_run_task_async (ts : list Task) (k i : nat) (src : option string) (delay_ms : Z)
    (s : State) :
  has_origin (heap s) k ts src -> results_ok s ->
  results_ok (run_task_async ts k i src delay_ms s).
Proof.
  intros Ho H. unfold run_task_async.
  destruct (registered s k) as [[r o]|] eqn:Hreg; [|exact H].
  destruct (stop_flag o || (length (tasks o) <=? i)%nat); [exact H|].
  apply registered_heap in Hreg.
  set (t := length (threads s)).
  assert (heap_keeps (heap s) (<[r := set_progress i t o]> (heap s))) as Hk
    by (eapply heap_keeps_insert; [exact Hreg | reflexivity ..]).
  assert (results_ok (set_heap (<[r := set_progress i t o]> (heap s)) s)) as H1
    by (revert H; apply ro_frame; [exact Hk | reflexivity ..]).
  destruct H1 as [H1 H2 H3 H4]. constructor.
  - intros wk Hin. cbn in Hin. apply in_app_or in Hin.
    destruct Hin as [Hin | [<- | []]]; [apply H1; exact Hin|].
    split; [|discriminate]. cbn. eapply has_origin_keeps; eassumption.
  - exact H2.
  - intros k0 i0 st Hin. cbn in Hin. apply in_app_or in Hin.
    destruct Hin as [Hin | [Heq | []]]; [apply H3; exact Hin | discriminate].
  - exact H4.
Qed.

Lemma ro_write_row (k i : nat) (row : Row) (status tag : string) (e : event) (s : State) :
  (row_waits (with_status status tag row) \/ run_probed (heap s) k i status tag) ->
  (forall k0 i0 st, e = TaskResult k0 i0 st -> exists tg, run_probed (heap s) k0 i0 st tg) ->
  results_ok s ->
  results_ok (emit e (set_trees (<[k := <[i := with_status status tag row]> (rows_of s k)]>
                                   (trees s)) s)).
Proof.
  intros Hrow He [H1 H2 H3 H4]. constructor.
  - exact H1.
  - exact H2.
  - intros k0 i0 st Hin. cbn in Hin. apply in_app_or in Hin.
    destruct Hin as [Hin | [Heq | []]]; [apply H3; exact Hin | apply He; exact Heq].
  - intros k0 i0 row0 Hin. unfold rows_of in Hin. cbn [trees emit set_log set_trees] in Hin.
    cbn [heap emit set_log set_trees].
    destruct (Nat.eq_dec k k0) as [<- | Hne].
    + rewrite lookup_insert_eq in Hin. cbn [from_option id] in Hin.
      apply list_lookup_insert_Some in Hin.
      destruct Hin as [(<- & <- & _) | [_ Hin]]; [exact Hrow | apply H4; exact Hin].
    + rewrite lookup_insert_ne in Hin by exact Hne. apply H4. exact Hin.
Qed.

Lemma ro_set_testing (r k i : nat) (s : State) :
  results_ok s -> results_ok (set_testing r k i s).
Proof.
  intros H. unfold set_testing.
  destruct (heap s !! r) as [o|]; [|exact H].
  destruct (stop_flag o); [exact H|].
  destruct (bool_decide (k ∈ closed s)); [exact H|].
  destruct (rows_of s k !! i) as [row|]; [|exact H].
  apply ro_write_row; [| |exact H].
  - left. left. cbn. auto.
  - intros k0 i0 st. discriminate.
Qed.

Lemma ro_update_ui (k i : nat) (status_text tag : string) (s : State) :
  run_probed (heap s) k i status_text tag -> results_ok s ->
  results_ok (update_ui k i status_text tag s).
Proof.
  intros Hst H. unfold update_ui.
  destruct (bool_decide (k ∈ closed s)); [exact H|].
  destruct (rows_of s k !! i) as [row|]; [|exact H].
  apply ro_write_row; [| |exact H].
  - right. exact Hst.
  - intros k0 i0 st [= <- <- <-]. exists tag. exact Hst.
Qed.

Lemma ro_stop_running_tests (k : nat) (s : State) :
  results_ok s -> results_ok (stop_running_tests k s).
Proof.
  intros H. unfold stop_running_tests.
  destruct (registered s k) as [[r o]|] eqn:Hreg; [|exact H].
  apply registered_heap in Hreg. unfold stop_run.
  eapply (ro_frame (set_trees (<[k := map cancel_row (rows_of s k)]> (trees s)) s));
    [eapply heap_keeps_insert; [exact Hreg | reflexivity ..] | reflexivity ..|].
  destruct H as [H1 H2 H3 H4]. constructor; try assumption.
  intros k0 i0 row0 Hin. unfold rows_of in Hin. cbn [trees set_trees] in Hin.
  cbn [heap set_trees].
  destruct (Nat.eq_dec k k0) as [<- | Hne].
  - rewrite lookup_insert_eq in Hin. cbn [from_option id] in Hin.
    rewrite list_lookup_fmap in Hin. fold (rows_of s k) in Hin.
    destruct (rows_of s k !! i0) as [row|] eqn:Hrow; [|discriminate].
    injection Hin as <-. unfold cancel_row.
    destruct (_ || _); [left; right; cbn; auto | apply H4; exact Hrow].
  - rewrite lookup_insert_ne in Hin by exact Hne. apply H4. exact Hin.
Qed.

Lemma ro_on_result_window_close (k : nat) (s : State) :
  results_ok s -> results_ok (_on_result_window_close k s).
Proof.
  intros H. unfold _on_result_window_close.
  destruct (ro_stop_running_tests k s H) as [H1 H2 H3 H4]. constructor; try assumption.
  intros t Hin. cbn in Hin.
  apply list_elem_of_In, list_elem_of_filter in Hin. destruct Hin as [_ Hin].
  apply list_elem_of_In in Hin. apply H2. exact Hin.
Qed.

Lemma ro_scan_worker (t : nat) (w : World) (s s' : State) :
  scan_worker t w s = Some s' -> results_ok s -> results_ok s'.
Proof.
  unfold scan_worker. destruct (threads s !! t) as [wk|] eqn:Ht; [|discriminate].
  intros Hw H.
  assert (worker_ok (heap s) wk) as Hwk.
  { apply (ro_threads s H). apply list_elem_of_In. eapply list_elem_of_lookup_2. exact Ht. }
  destruct (w_pc wk) as [| |st tg| |] eqn:Hpc.
  - injection Hw as <-. apply ro_set_worker.
    + apply worker_ok_at_pc; [exact Hwk | discriminate].
    + apply ro_after; [exact I | exact H].
  - destruct (w_tasks wk !! w_index wk) as [[[d ip] port]|] eqn:Htask.
    + destruct (_connect_to_host w ip port (w_source wk) (os s)) as [res os'] eqn:Hp.
      destruct (status_of res) as [st tg] eqn:Hst. injection Hw as <-.
      apply ro_set_worker.
      * apply worker_ok_at_pc; [exact Hwk|]. intros st0 tg0 [= <- <-].
        exists w, d, ip, port, (os s). split; [exact Htask|]. rewrite Hp. exact Hst.
      * revert H. apply ro_frame; first [apply heap_keeps_refl | reflexivity].
    + injection Hw as <-. apply ro_set_worker; [|exact H].
      apply worker_ok_at_pc; [exact Hwk | discriminate].
  - injection Hw as <-. apply ro_set_worker.
    + apply worker_ok_at_pc; [exact Hwk | discriminate].
    + apply ro_after; [|exact H]. cbn [callback_ok].
      destruct Hwk as [Ho Hp]. exists (w_tasks wk), (w_source wk). auto.
  - destruct (heap s !! w_run wk) as [o|]; [|discriminate].
    destruct (stop_flag o); injection Hw as <-.
    + apply ro_set_worker; [|exact H]. apply worker_ok_at_pc; [exact Hwk | discriminate].
    + apply ro_set_worker.
      * apply worker_ok_at_pc; [exact Hwk | discriminate].
      * apply ro_after; [|exact H]. cbn [callback_ok]. apply Hwk.
  - discriminate.
Qed.

Lemma heap_keeps_scan_worker (t : nat) (w : World) (s s' : State) :
  scan_worker t w s = Some s' -> heap s' = heap s.
Proof.
  unfold scan_worker. destruct (threads s !! t) as [wk|]; [|discriminate].
  destruct (w_pc wk) as [| |st tg| |].
  - intros [= <-]. reflexivity.
  - destruct (w_tasks wk !! w_index wk) as [[[d ip] port]|].
    + destruct (_connect_to_host w ip port (w_source wk) (os s)) as [res os'].
      destruct (status_of res) as [st tg]. intros [= <-]. reflexivity.
    + intros [= <-]. reflexivity.
  - intros [= <-]. reflexivity.
  - destruct (heap s !! w_run wk) as [o|]; [|discriminate].
    destruct (stop_flag o); intros [= <-]; reflexivity.
  - discriminate.
Qed.

Lemma heap_keeps_run_task_async (ts : list Task) (k i : nat) (src : option string)
    (delay_ms : Z) (s : State) :
  heap_keeps (heap s) (heap (run_task_async ts k i src delay_ms s)).
Proof.
  unfold run_task_async.
  destruct (registered s k) as [[r o]|] eqn:Hreg; [|apply heap_keeps_refl].
  destruct (stop_flag o || (length (tasks o) <=? i)%nat); [apply heap_keeps_refl|].
  apply registered_heap in Hreg. cbn [heap emit set_log set_threads set_heap].
  eapply heap_keeps_insert; [exact Hreg | reflexivity ..].
Qed.

Lemma heap_keeps_stop_running_tests (k : nat) (s : State) :
  heap_keeps (heap s) (heap (stop_running_tests k s)).
Proof.
  unfold stop_running_tests.
  destruct (registered s k) as [[r o]|] eqn:Hreg; [|apply heap_keeps_refl].
  apply registered_heap in Hreg. cbn [heap stop_run set_heap set_trees].
  eapply heap_keeps_insert; [exact Hreg | reflexivity ..].
Qed.

Section ResultFacts.

Variable read_csv : string -> fault + list csv_row.
Variable py_int : string -> option Z.

Lemma active_run_heap (s : State) (k r : nat) (o : ConnectivityRun) :
  active_run s k = Some (r, o) -> heap s !! r = Some o.
Proof.
  unfold active_run. destruct (registered s k) as [[r0 o0]|] eqn:Hreg; [|discriminate].
  destruct (stop_flag o0); [discriminate|]. intros [= <- <-].
  eapply registered_heap. exact Hreg.
Qed.

Lemma ro_start (csv_path : string) (k : nat) (src : option string) (delay_ms : Z)
    (s : State) :
  results_ok s ->
  results_ok (fst (start_connectivity_check read_csv py_int csv_path k src delay_ms s)).
Proof.
  intros H. unfold start_connectivity_check.
  destruct (active_run s k) as [[r o]|] eqn:Hact.
  - cbn [fst]. apply active_run_heap in Hact. apply ro_after; [exact I|].
    revert H. apply ro_frame; [|reflexivity ..].
    cbn [heap stop_run set_heap]. eapply heap_keeps_insert; [exact Hact | reflexivity ..].
  - destruct (load_tasks read_csv py_int csv_path) as [f|ts]; [exact H|].
    set (s1 := set_runs _ _).
    assert (results_ok s1) as H1.
    { revert H. apply ro_frame; [apply heap_keeps_app | reflexivity ..]. }
    assert (has_origin (heap s1) k ts src) as Ho.
    { exists (length (heap s)), (new_run k ts src). cbn [heap s1 set_runs set_heap].
      rewrite lookup_app_r, Nat.sub_diag by lia. auto. }
    destruct (bool_decide (k ∈ closed s)); cbn [fst]; [exact H1|].
    apply ro_run_task_async; [exact Ho|].
    destruct H1 as [H1 H2 H3 H4]. constructor; try assumption.
    intros k0 i0 row0 Hin. unfold rows_of in Hin. cbn [trees set_trees] in Hin.
    destruct (Nat.eq_dec k k0) as [<- | Hne].
    + rewrite lookup_insert_eq in Hin. cbn [from_option id] in Hin.
      rewrite list_lookup_fmap in Hin.
      destruct (ts !! i0) as [[[d ip] port]|]; [|discriminate].
      injection Hin as <-. left. left. cbn. auto.
    + rewrite lookup_insert_ne in Hin by exact Hne. apply H4. exact Hin.
Qed.

Lemma heap_keeps_start (csv_path : string) (k : nat) (src : option string) (delay_ms : Z)
    (s : State) :
  heap_keeps (heap s)
    (heap (fst (start_connectivity_check read_csv py_int csv_path k src delay_ms s))).
Proof.
  unfold start_connectivity_check.
  destruct (active_run s k) as [[r o]|] eqn:Hact.
  - cbn [fst]. apply active_run_heap in Hact. cbn [heap after set_timers stop_run set_heap].
    eapply heap_keeps_insert; [exact Hact | reflexivity ..].
  - destruct (load_tasks read_csv py_int csv_path) as [f|ts]; [apply heap_keeps_refl|].
    destruct (bool_decide (k ∈ closed s)); cbn [fst].
    + apply heap_keeps_app.
    + eapply heap_keeps_trans; [|apply heap_keeps_run_task_async]. apply heap_keeps_app.
Qed.

Lemma ro_step (l : label) (s s' : State) :
  step read_csv py_int s l = Some s' -> results_ok s -> results_ok s'.
Proof.
  destruct l as [ms| |t w|k csv_path src delay_ms|k|k]; cbn [step].
  - intros [= <-]. apply ro_frame; first [apply heap_keeps_refl | reflexivity].
  - destruct (timers s) as [|tm q] eqn:Hq; [discriminate|].
    destruct (due tm <=? now s); [|discriminate]. intros [= <-] H.
    assert (callback_ok (heap s) (cb tm)) as Hcb
      by (apply (ro_timers s H); rewrite Hq; left; reflexivity).
    assert (results_ok (set_timers q s)) as Hs.
    { destruct H as [H1 H2 H3 H4]. constructor; try assumption.
      intros t Hin. apply H2. rewrite Hq. right. exact Hin. }
    destruct (cb tm) as [r k i|k i st tg|ts k i src d|path k src d];
      cbn [run_callback callback_ok] in *.
    + apply ro_set_testing. exact Hs.
    + apply ro_update_ui; [exact Hcb | exact Hs].
    + apply ro_run_task_async; [exact Hcb | exact Hs].
    + apply ro_start. exact Hs.
  - apply ro_scan_worker.
  - destruct (bool_decide (k ∈ closed s)); [discriminate|]. intros [= <-]. apply ro_start.
  - destruct (bool_decide (k ∈ closed s)); [discriminate|]. intros [= <-].
    apply ro_stop_running_tests.
  - destruct (bool_decide (k ∈ closed s)); [discriminate|]. intros [= <-].
    apply ro_on_result_window_close.
Qed.

Lemma ro_exec (ls : list label) (s s' : State) :
  exec read_csv py_int s ls = Some s' -> results_ok s -> results_ok s'.
Proof.
  revert s. induction ls as [|l ls IH]; intros s; cbn [exec].
  - intros [= <-]. auto.
  - destruct (step read_csv py_int s l) as [s1|] eqn:Hstep; [|discriminate].
    intros Hex H. eapply IH; [exact Hex|]. eapply ro_step; eassumption.
Qed.

Lemma heap_keeps_step (l : label) (s s' : State) :
  step read_csv py_int s l = Some s' -> heap_keeps (heap s) (heap s').
Proof.
  destruct l as [ms| |t w|k csv_path src delay_ms|k|k]; cbn [step].
  - intros [= <-]. apply heap_keeps_refl.
  - destruct (timers s) as [|tm q]; [discriminate|].
    destruct (due tm <=? now s); [|discriminate]. intros [= <-].
    destruct (cb tm) as [r k i|k i st tg|ts k i src d|path k src d]; cbn [run_callback].
    + unfold set_testing. cbn [heap set_timers].
      destruct (heap s !! r) as [o|]; [|apply heap_keeps_refl].
      destruct (stop_flag o); [apply heap_keeps_refl|].
      destruct (bool_decide _); [apply heap_keeps_refl|].
      destruct (rows_of _ k !! i); apply heap_keeps_refl.
    + unfold update_ui. destruct (bool_decide _); [apply heap_keeps_refl|].
      destruct (rows_of _ k !! i); apply heap_keeps_refl.
    + apply (heap_keeps_run_task_async ts k i src d (set_timers q s)).
    + apply (heap_keeps_start path k src d (set_timers q s)).
  - intros Hw. rewrite (heap_keeps_scan_worker t w s s' Hw). apply heap_keeps_refl.
  - destruct (bool_decide (k ∈ closed s)); [discriminate|]. intros [= <-].
    apply heap_keeps_start.
  - destruct (bool_decide (k ∈ closed s)); [discriminate|]. intros [= <-].
    apply heap_keeps_stop_running_tests.
  - destruct (bool_decide (k ∈ closed s)); [discriminate|]. intros [= <-].
    apply (heap_keeps_stop_running_tests k s).
Qed.

Lemma heap_keeps_exec (ls : list label) (s s' : State) :
  exec read_csv py_int s ls = Some s' -> heap_keeps (heap s) (heap s').
Proof.
  revert s. induction ls as [|l ls IH]; intros s; cbn [exec].
  - intros [= <-]. apply heap_keeps_refl.
  - destruct (step read_csv py_int s l) as [s1|] eqn:Hstep; [|discriminate].
    intros Hex. eapply heap_keeps_trans; [eapply heap_keeps_step; exact Hstep | auto].
Qed.



End ResultFacts.



(** ** The rows of a run on its own *)

Lemma last_notice_snoc (k j : nat) (l : list event) (e : event) :
  last_notice k j (l ++ [e]) = if about_row k j e then Some e else last_notice k j l.
Proof.
  unfold last_notice. rewrite List.filter_app. cbn [List.filter].
  destruct (about_row k j e).
  - apply last_snoc.
  - rewrite app_nil_r. reflexivity.
Qed.

Lemma last_notice_app (k j : nat) (l1 l2 : list event) :
  last_notice k j (l1 ++ l2)
  = match last_notice k j l2 with
    | Some e => Some e
    | None => last_notice k j l1
    end.
Proof.
  induction l2 as [|e l2 IH] using rev_ind.
  - rewrite app_nil_r. reflexivity.
  - rewrite app_assoc, !last_notice_snoc. destruct (about_row k j e); [reflexivity | exact IH].
Qed.

Lemma last_notice_erase (k j : nat) (l : list event) :
  last_notice k j (map erase l) = option_map erase (last_notice k j l).
Proof.
  induction l as [|e l IH] using rev_ind; [reflexivity|].
  rewrite map_app. cbn [map]. rewrite !last_notice_snoc.
  replace (about_row k j (erase e)) with (about_row k j e) by (destruct e; reflexivity).
  destruct (about_row k j e); [reflexivity | exact IH].
Qed.

Lemma last_notice_In (k j : nat) (l : list event) (e : event) :
  last_notice k j l = Some e -> In e l.
Proof.
  induction l as [|x l IH] using rev_ind; [discriminate|].
  rewrite last_notice_snoc. intros H. apply in_or_app.
  destruct (about_row k j x).
  - injection H as ->. right. left. reflexivity.
  - left. apply IH. exact H.
Qed.

Lemma last_notice_schedule (k j n : nat) :
  (j < n)%nat -> last_notice k j (schedule k n) = Some (TaskResult k j "").
Proof.
  induction n as [|n IH]; [lia|]. intros Hlt.
  rewrite schedule_S, last_notice_app. unfold events_of_task, last_notice at 1.
  cbn [List.filter about_row]. rewrite Nat.eqb_refl. cbn [andb].
  destruct (Nat.eqb_spec n j) as [-> | Hne].
  - reflexivity.
  - cbn [last]. apply IH. lia.
Qed.

Section SoloRows.

Variable read_csv : string -> fault + list csv_row.
Variable py_int : string -> option Z.
Variables (k : nat) (ts : list Task) (src : option string) (delay_ms : Z).

Local Abbreviation srows := (solo_rows k ts).

Lemma sr_frame (s s' : State) :
  trees s' = trees s -> log s' = log s -> srows s -> srows s'.
Proof.
  unfold solo_rows, rows_follow_log, rows_of. intros -> ->. auto.
Qed.

Lemma sr_run_task_async (ts' : list Task) (k' i : nat) (src' : option string) (d : Z)
    (s : State) :
  srows s -> srows (run_task_async ts' k' i src' d s).
Proof.
  intros H. unfold run_task_async.
  destruct (registered s k') as [[r o]|]; [|exact H].
  destruct (stop_flag o || (length (tasks o) <=? i)%nat); [exact H|].
  destruct H as [Hlen H]. split; [exact Hlen|].
  intros j row Hrow. unfold emit. cbn [log set_log set_threads set_heap].
  rewrite last_notice_snoc. cbn [about_row]. apply H. exact Hrow.
Qed.

Lemma sr_write_row (k' i : nat) (row : Row) (status tag : string) (e : event) (s : State) :
  (forall j, about_row k j e = Nat.eqb k' k && Nat.eqb i j) ->
  row_follows (with_status status tag row) (Some e) ->
  srows s ->
  srows (emit e (set_trees (<[k' := <[i := with_status status tag row]> (rows_of s k')]>
                                  (trees s)) s)).
Proof.
  intros He Hrow [Hlen H]. unfold solo_rows, rows_follow_log, rows_of, emit.
  cbn [trees log set_log set_trees].
  destruct (Nat.eq_dec k' k) as [-> | Hne].
  - rewrite lookup_insert_eq. cbn [from_option id]. split; [rewrite length_insert; exact Hlen|].
    intros j row0 Hj. rewrite last_notice_snoc, He, Nat.eqb_refl. cbn [andb].
    destruct (Nat.eqb_spec i j) as [-> | Hij].
    + apply list_lookup_insert_Some in Hj.
      destruct Hj as [(_ & <- & _) | [Hjj _]]; [exact Hrow | congruence].
    + rewrite list_lookup_insert_ne in Hj by exact Hij. apply H. exact Hj.
  - rewrite lookup_insert_ne by exact Hne. split; [exact Hlen|].
    intros j row0 Hj. rewrite last_notice_snoc, He.
    destruct (Nat.eqb_spec k' k) as [Heq | _]; [contradiction|]. cbn [andb].
    apply H. exact Hj.
Qed.

Lemma sr_set_testing (r k' i : nat) (s : State) :
  srows s -> srows (set_testing r k' i s).
Proof.
  intros H. unfold set_testing.
  destruct (heap s !! r) as [o|]; [|exact H].
  destruct (stop_flag o); [exact H|].
  destruct (bool_decide (k' ∈ closed s)); [exact H|].
  destruct (rows_of s k' !! i) as [row|]; [|exact H].
  apply sr_write_row; [reflexivity | reflexivity | exact H].
Qed.

Lemma sr_update_ui (k' i : nat) (status_text tag : string) (s : State) :
  srows s -> srows (update_ui k' i status_text tag s).
Proof.
  intros H. unfold update_ui.
  destruct (bool_decide (k' ∈ closed s)); [exact H|].
  destruct (rows_of s k' !! i) as [row|]; [|exact H].
  apply sr_write_row; [reflexivity | reflexivity | exact H].
Qed.

Lemma sr_scan_worker (t : nat) (w : World) (s s' : State) :
  scan_worker t w s = Some s' -> srows s -> srows s'.
Proof.
  unfold scan_worker. destruct (threads s !! t) as [wk|]; [|discriminate].
  destruct (w_pc wk) as [| |st tg| |].
  - intros [= <-]. apply sr_frame; reflexivity.
  - destruct (w_tasks wk !! w_index wk) as [[[d ip] port]|].
    + destruct (_connect_to_host w ip port (w_source wk) (os s)) as [res os'].
      destruct (status_of res) as [st tg]. intros [= <-]. apply sr_frame; reflexivity.
    + intros [= <-]. apply sr_frame; reflexivity.
  - intros [= <-]. apply sr_frame; reflexivity.
  - destruct (heap s !! w_run wk) as [o|]; [|discriminate].
    destruct (stop_flag o); intros [= <-]; apply sr_frame; reflexivity.
  - discriminate.
Qed.

(** No request to start again is pending in a run on its own. *)
Lemma solo_first_timer (ph : phase) (s : State) (t : timer) (q : list timer) :
  solo_inv k ts src delay_ms ph s -> timers s = t :: q ->
  match cb t with
  | CbRestart _ _ _ _ => False
  | _ => True
  end.
Proof.
  destruct ph as [i p f|]; cbn [solo_inv]; intros H Hq.
  - destruct (bi_timers _ _ _ _ _ _ _ _ H) as (d1 & d2 & d3 & st & tg & Htm).
    rewrite Hq in Htm. symmetry in Htm.
    destruct (next_timer _ _ _ _ _ Htm) as (Ht & _ & _).
    destruct f as [|[|[|f]]]; cbn in Ht; [| | |discriminate]; injection Ht as <-; exact I.
  - rewrite (ii_timers _ _ _ H) in Hq. discriminate.
Qed.

Lemma sr_step (ph : phase) (l : label) (s s' : State) :
  solo_inv k ts src delay_ms ph s -> quiet l -> step read_csv py_int s l = Some s' ->
  srows s -> srows s'.
Proof.
  intros Hsolo Hq Hstep H.
  destruct l as [ms| |t w|? ? ? ?|?|?]; try contradiction; cbn [step] in Hstep.
  - injection Hstep as <-. revert H. apply sr_frame; reflexivity.
  - destruct (timers s) as [|tm q] eqn:Htm; [discriminate|].
    destruct (due tm <=? now s); [|discriminate]. injection Hstep as <-.
    pose proof (solo_first_timer ph s tm q Hsolo Htm) as Hcb.
    assert (srows (set_timers q s)) as Hs by (revert H; apply sr_frame; reflexivity).
    destruct (cb tm) as [r k' i|k' i st tg|ts' k' i src' d|path k' src' d];
      cbn [run_callback].
    + apply sr_set_testing. exact Hs.
    + apply sr_update_ui. exact Hs.
    + apply sr_run_task_async. exact Hs.
    + contradiction.
  - eapply sr_scan_worker; eassumption.
Qed.

Lemma sr_exec (ls : list label) (ph : phase) (s s' : State) :
  solo_inv k ts src delay_ms ph s -> Forall quiet ls ->
  exec read_csv py_int s ls = Some s' ->
  srows s -> srows s'.
Proof.
  revert ph s. induction ls as [|l ls IH]; intros ph s Hsolo Hq Hex H; cbn [exec] in Hex.
  - injection Hex as <-. exact H.
  - destruct (step read_csv py_int s l) as [s1|] eqn:Hstep; [|discriminate].
    inversion Hq as [|? ? Hl Hls]; subst.
    destruct (solo_step read_csv py_int k ts src delay_ms ph l s s1 Hsolo Hl Hstep)
      as (ph1 & H1 & _).
    eapply (IH ph1 s1); try eassumption. exact (sr_step ph l s s1 Hsolo Hl Hstep H).
Qed.

Lemma sr_start (csv_path : string) :
  load_tasks read_csv py_int csv_path = inr ts ->
  srows (fst (start_connectivity_check read_csv py_int csv_path k src delay_ms init)).
Proof.
  intros Hload.
  rewrite (start_creates read_csv py_int csv_path k src delay_ms ts init)
    by (try exact Hload; try reflexivity; apply not_elem_of_empty).
  cbn [fst]. apply sr_run_task_async. split.
  - unfold rows_of. cbn. rewrite lookup_insert_eq. cbn. apply length_map.
  - intros j row Hrow. unfold rows_of in Hrow. cbn in Hrow.
    rewrite lookup_insert_eq in Hrow. cbn in Hrow.
    rewrite list_lookup_fmap in Hrow.
    destruct (ts !! j) as [[[d ip] port]|]; [|discriminate].
    injection Hrow as <-. cbn. reflexivity.
Qed.

Lemma start_heap (csv_path : string) :
  load_tasks read_csv py_int csv_path = inr ts ->
  exists o,
    heap (fst (start_connectivity_check read_csv py_int csv_path k src delay_ms init))
      !! 0%nat = Some o
    /\ source_ip o = src.
Proof.
  intros Hload.
  rewrite (start_creates read_csv py_int csv_path k src delay_ms ts init)
    by (try exact Hload; try reflexivity; apply not_elem_of_empty).
  cbn [fst].
  destruct (heap_keeps_run_task_async ts k 0 src delay_ms
              (set_trees (<[k := map placeholder ts]> (trees init))
                 (set_runs (<[k := length (heap init)]> (runs init))
                    (set_heap (heap init ++ [new_run k ts src]) init)))
              0%nat (new_run k ts src) eq_refl) as (o & Ho & _ & _ & Hs).
  exists o. auto.
Qed.

End SoloRows.



(** ** The height of the main window *)

(** X25.  The minimum height of the main window grows with the folders
    that have a task list, by 40 (a button and the space under it) for
    every two of them: the height for [n] folders is the height for none
    plus 40 for each row of the grid that a button is placed in. *)
Theorem window_height_counts_the_button_rows :
  forall logo_height n m : Z,
    0 <= n <= m ->
    min_win_h logo_height n = min_win_h logo_height 0 + 40 * fst (button_cell (n - 1))
    /\ min_win_h logo_height (n + 2) = min_win_h logo_height n + 40
    /\ min_win_h logo_height n <= min_win_h logo_height m.
Proof.
  intros logo_height n m [Hn Hm].
  unfold min_win_h, _calc_min_height, num_rows, button_cell, cols_per_row. cbn [fst].
  replace (n + 2 + 2 - 1) with (n + 2 - 1 + 1 * 2) by lia.
  rewrite Z.div_add by lia.
  replace (n + 2 - 1) with (n - 1 + 1 * 2) by lia. rewrite Z.div_add by lia.
  change ((0 + 2 - 1) / 2) with 0.
  assert ((n - 1) / 2 <= (m - 1) / 2) by (apply Z.div_le_mono; lia).
  replace (m + 2 - 1) with (m - 1 + 1 * 2) by lia. rewrite Z.div_add by lia.
  lia.
Qed.

(** X25, at work: three folders, then five. *)
Lemma window_height_counts_the_button_rows_witness :
  min_win_h 0 3 = min_win_h 0 0 + 40 * fst (button_cell (3 - 1))
  /\ min_win_h 0 (3 + 2) = min_win_h 0 3 + 40
  /\ min_win_h 0 3 <= min_win_h 0 5.
Proof.
  apply (window_height_counts_the_button_rows 0 3 5). lia.
Defined.
